(** * Reconciliation engine of the fenwick backend

    A shallow embedding of the smart-sync script ([syncData]), of the
    full-replace script ([replaceProduction]) and of the REST handlers
    they talk to, followed by the properties of the change plan and of the
    execution protocol. *)

From Stdlib Require Import List String Ascii ZArith Bool Lia Arith.
From Stdlib Require Import DecimalString DecimalZ Permutation Sorted.
Import ListNotations.

Local Open Scope string_scope.
Local Open Scope list_scope.

(* ================================================================== *)
(** ** JavaScript values *)

(** The values [JSON.parse] produces.  An object keeps its properties in
    enumeration order, so it is an association list.  A string is a
    sequence of 8-bit code units.  Numbers are the integers, written in
    plain decimal (the numeric attributes [number], [startYear], [endYear]
    are INTEGER columns); fractions, exponents and the negative zero are not
    covered. *)
#[warnings="-register-all"]
Inductive json : Type :=
| JNull
| JBool (b : bool)
| JNum (n : Z)
| JStr (s : string)
| JArr (items : list json)
| JObj (fields : list (string * json)).

(** A JavaScript value that may be [undefined]: [None] is [undefined]. *)
Definition jsval : Type := option json.

(** The double quote, written by code so that no literal has to double it. *)
Definition dquote : ascii := ascii_of_nat 34.

Definition chars (s : string) : list ascii := list_ascii_of_string s.

Module JSON.

Definition hexDigit (n : nat) : ascii :=
  nth n (chars "0123456789abcdef") "0"%char.

(** QuoteJSONString, one code unit at a time: the two-character escapes,
    [\u00xx] for the other control characters, the character itself
    otherwise. *)
Definition quoteChar (c : ascii) : list ascii :=
  let n := nat_of_ascii c in
  if Nat.eqb n 34 then ["\"%char; dquote]
  else if Nat.eqb n 92 then ["\"%char; "\"%char]
  else if Nat.eqb n 8 then ["\"%char; "b"%char]
  else if Nat.eqb n 9 then ["\"%char; "t"%char]
  else if Nat.eqb n 10 then ["\"%char; "n"%char]
  else if Nat.eqb n 12 then ["\"%char; "f"%char]
  else if Nat.eqb n 13 then ["\"%char; "r"%char]
  else if Nat.ltb n 32 then
    ["\"%char; "u"%char; "0"%char; "0"%char;
     hexDigit (n / 16); hexDigit (n mod 16)]
  else [c].

Fixpoint escape (s : string) : list ascii :=
  match s with
  | EmptyString => []
  | String c r => quoteChar c ++ escape r
  end.

Definition quote (s : string) : list ascii :=
  dquote :: escape s ++ [dquote].

(** Number::toString on an integer: the decimal digits, with a sign. *)
Definition numToString (n : Z) : list ascii :=
  chars (NilZero.string_of_int (Z.to_int n)).

(** SerializeJSONProperty without indentation: elements and members are
    separated by a comma, a member is its quoted key, a colon, its
    value. *)
Fixpoint ser (v : json) : list ascii :=
  match v with
  | JNull => chars "null"
  | JBool true => chars "true"
  | JBool false => chars "false"
  | JNum n => numToString n
  | JStr s => quote s
  | JArr items =>
      "["%char ::
      (fix elems (l : list json) : list ascii :=
         match l with
         | [] => []
         | x :: r =>
             ser x ++ match r with [] => [] | _ :: _ => ","%char :: elems r end
         end) items ++ ["]"%char]
  | JObj fields =>
      "{"%char ::
      (fix members (l : list (string * json)) : list ascii :=
         match l with
         | [] => []
         | (k, x) :: r =>
             quote k ++ ":"%char :: ser x
               ++ match r with [] => [] | _ :: _ => ","%char :: members r end
         end) fields ++ ["}"%char]
  end.

Fixpoint elems (l : list json) : list ascii :=
  match l with
  | [] => []
  | x :: r => ser x ++ match r with [] => [] | _ :: _ => ","%char :: elems r end
  end.

Fixpoint members (l : list (string * json)) : list ascii :=
  match l with
  | [] => []
  | (k, x) :: r =>
      quote k ++ ":"%char :: ser x
        ++ match r with [] => [] | _ :: _ => ","%char :: members r end
  end.

(** [JSON.stringify(value)]; on [undefined] it returns [undefined]. *)
Definition stringify (v : jsval) : option string :=
  match v with
  | None => None
  | Some j => Some (string_of_list_ascii (ser j))
  end.

End JSON.

(* ================================================================== *)
(** ** Induction on values *)

Section JsonInduction.
Variable P : json -> Prop.
Hypothesis Hnull : P JNull.
Hypothesis Hbool : forall b, P (JBool b).
Hypothesis Hnum : forall n, P (JNum n).
Hypothesis Hstr : forall s, P (JStr s).
Hypothesis Harr : forall l, Forall P l -> P (JArr l).
Hypothesis Hobj : forall l, Forall (fun kv => P (snd kv)) l -> P (JObj l).

Fixpoint json_nested_ind (v : json) : P v :=
  match v with
  | JNull => Hnull
  | JBool b => Hbool b
  | JNum n => Hnum n
  | JStr s => Hstr s
  | JArr l =>
      Harr l ((fix go (l : list json) : Forall P l :=
                 match l with
                 | [] => Forall_nil _
                 | x :: r => Forall_cons x (json_nested_ind x) (go r)
                 end) l)
  | JObj l =>
      Hobj l ((fix go (l : list (string * json))
                : Forall (fun kv => P (snd kv)) l :=
                 match l with
                 | [] => Forall_nil _
                 | kv :: r =>
                     Forall_cons kv (json_nested_ind (snd kv)) (go r)
                 end) l)
  end.
End JsonInduction.

(* ================================================================== *)
(** ** The JavaScript operations the scripts use *)

Module JS.

(** Property read [o.k] on an object. *)
Fixpoint getField (k : string) (fields : list (string * json)) : jsval :=
  match fields with
  | [] => None
  | (k', v) :: r => if String.eqb k' k then Some v else getField k r
  end.

(** Property read [v.k] on a value that is neither [undefined] nor
    [null], for the property names the scripts read ([id], [name],
    [settings] attributes): only an object has them. *)
Definition member (v : json) (k : string) : jsval :=
  match v with
  | JObj fields => getField k fields
  | _ => None
  end.

(** ToBoolean. *)
Definition truthy (v : jsval) : bool :=
  match v with
  | None | Some JNull => false
  | Some (JBool b) => b
  | Some (JNum n) => negb (Z.eqb n 0)
  | Some (JStr s) => negb (String.eqb s EmptyString)
  | Some (JArr _) | Some (JObj _) => true
  end.

(** [a || b]. *)
Definition logicalOr (a b : jsval) : jsval := if truthy a then a else b.

(** SameValueZero, the key comparison of [Map].  Objects and arrays are
    compared by reference, and two values that come out of [JSON.parse]
    are never the same object. *)
Definition sameValueZero (a b : jsval) : bool :=
  match a, b with
  | None, None => true
  | Some JNull, Some JNull => true
  | Some (JBool x), Some (JBool y) => Bool.eqb x y
  | Some (JNum x), Some (JNum y) => Z.eqb x y
  | Some (JStr x), Some (JStr y) => String.eqb x y
  | _, _ => false
  end.

Fixpoint join (sep : string) (l : list string) : string :=
  match l with
  | [] => EmptyString
  | [s] => s
  | s :: r => s ++ sep ++ join sep r
  end.

(** ToString, as a template literal applies it. *)
Fixpoint toStr (v : json) : string :=
  match v with
  | JNull => "null"
  | JBool true => "true"
  | JBool false => "false"
  | JNum n => string_of_list_ascii (JSON.numToString n)
  | JStr s => s
  | JArr items =>
      join ","
        (map (fun x => match x with JNull => EmptyString | _ => toStr x end)
             items)
  | JObj _ => "[object Object]"
  end.

Definition toString (v : jsval) : string :=
  match v with
  | None => "undefined"
  | Some j => toStr j
  end.

(** [a === b].  It differs from SameValueZero on NaN only, which no JSON
    text denotes; objects and arrays are compared by reference. *)
Definition strictEquals (a b : jsval) : bool := sameValueZero a b.

(** [Array.isArray]. *)
Definition isArray (v : jsval) : bool :=
  match v with
  | Some (JArr _) => true
  | _ => false
  end.

(** An array index: the canonical numeral of an integer from 0 to
    2^32 - 2.  The properties of an object whose key is one are enumerated
    first, in ascending order; the other properties follow in the order
    they were created in. *)
Definition arrayIndex (k : string) : option Z :=
  match NilZero.uint_of_string k with
  | Some d =>
      let n := Z.of_uint d in
      if (n <=? 4294967294)%Z
         && String.eqb (string_of_list_ascii (JSON.numToString n)) k
      then Some n
      else None
  | None => None
  end.

Fixpoint replaceField (k : string) (v : json) (o : list (string * json))
  : list (string * json) :=
  match o with
  | [] => []
  | (k', v') :: r =>
      if String.eqb k' k then (k', v) :: r else (k', v') :: replaceField k v r
  end.

(** A new property with the array index [i] goes before the first
    property that has a greater index, or none. *)
Fixpoint placeIndex (i : Z) (k : string) (v : json)
    (o : list (string * json)) : list (string * json) :=
  match o with
  | [] => [(k, v)]
  | (k', v') :: r =>
      match arrayIndex k' with
      | Some j =>
          if (j <? i)%Z then (k', v') :: placeIndex i k v r
          else (k, v) :: o
      | None => (k, v) :: o
      end
  end.

(** Creating the data property [k] of an object, given in enumeration
    order: a property that is there takes the value where it stands, a new
    one is placed by its key. *)
Definition setField (o : list (string * json)) (k : string) (v : json)
  : list (string * json) :=
  match getField k o with
  | Some _ => replaceField k v o
  | None =>
      match arrayIndex k with
      | Some i => placeIndex i k v o
      | None => o ++ [(k, v)]
      end
  end.

(** The properties, in enumeration order, of the object that [JSON.parse]
    builds from the members of an object text, taken in the order of the
    text. *)
Definition objectOf (members : list (string * json))
  : list (string * json) :=
  fold_left (fun o kv => setField o (fst kv) (snd kv)) members [].

End JS.

(* ================================================================== *)
(** ** Data model *)

(** A project record is a JavaScript object. *)
Definition record : Type := list (string * json).

Definition prop (p : record) (k : string) : jsval := JS.getField k p.

Record Snapshot : Type := {
  projects : list record;
  settings : jsval
}.

(** [new Map(entries)]: the entries in insertion order; setting a key that
    is already there replaces its value in place. *)
Module JsMap.

Definition t : Type := list (jsval * record).

Fixpoint set (m : t) (k : jsval) (v : record) : t :=
  match m with
  | [] => [(k, v)]
  | (k', v') :: r =>
      if JS.sameValueZero k' k then (k', v) :: r else (k', v') :: set r k v
  end.

Definition ofEntries (entries : list (jsval * record)) : t :=
  fold_left (fun m e => set m (fst e) (snd e)) entries [].

Fixpoint get (m : t) (k : jsval) : option record :=
  match m with
  | [] => None
  | (k', v) :: r => if JS.sameValueZero k' k then Some v else get r k
  end.

Definition has (m : t) (k : jsval) : bool :=
  match get m k with Some _ => true | None => false end.

End JsMap.

(* ================================================================== *)
(** ** The reconciliation engine *)

Definition option_string_eqb (a b : option string) : bool :=
  match a, b with
  | None, None => true
  | Some x, Some y => String.eqb x y
  | _, _ => false
  end.

Definition deepEqual (obj1 obj2 : jsval) : bool :=
  option_string_eqb (JSON.stringify obj1) (JSON.stringify obj2).

Record UpdatePair : Type := { local : record; prod : record }.

Record ChangePlan : Type := {
  toCreate : list record;
  toUpdate : list UpdatePair;
  toDelete : list record;
  settingsChanged : bool
}.

(** The first loop of [syncData]: every entry of [localMap] is looked up in
    [prodMap]; a record is an object, hence truthy, so [!prodProj] holds
    exactly when the lookup gives [undefined]. *)
Fixpoint findCreatesAndUpdates (prodMap : JsMap.t) (entries : JsMap.t)
    (toCreate : list record) (toUpdate : list UpdatePair)
  : list record * list UpdatePair :=
  match entries with
  | [] => (toCreate, toUpdate)
  | (id, localProj) :: rest =>
      match JsMap.get prodMap id with
      | None =>
          findCreatesAndUpdates prodMap rest (toCreate ++ [localProj]) toUpdate
      | Some prodProj =>
          if negb (deepEqual (Some (JObj localProj)) (Some (JObj prodProj)))
          then findCreatesAndUpdates prodMap rest toCreate
                 (toUpdate ++ [{| local := localProj; prod := prodProj |}])
          else findCreatesAndUpdates prodMap rest toCreate toUpdate
      end
  end.

(** The second loop. *)
Fixpoint findDeletes (localMap : JsMap.t) (entries : JsMap.t)
    (toDelete : list record) : list record :=
  match entries with
  | [] => toDelete
  | (id, prodProj) :: rest =>
      if negb (JsMap.has localMap id)
      then findDeletes localMap rest (toDelete ++ [prodProj])
      else findDeletes localMap rest toDelete
  end.

Definition mapOfProjects (ps : list record) : JsMap.t :=
  JsMap.ofEntries (map (fun p => (prop p "id", p)) ps).

Definition computePlan (localData prodData : Snapshot) : ChangePlan :=
  let localMap := mapOfProjects (projects localData) in
  let prodMap := mapOfProjects (projects prodData) in
  let '(toCreate, toUpdate) :=
    findCreatesAndUpdates prodMap localMap [] [] in
  let toDelete := findDeletes localMap prodMap [] in
  {| toCreate := toCreate;
     toUpdate := toUpdate;
     toDelete := toDelete;
     settingsChanged :=
       negb (deepEqual (settings localData) (settings prodData)) |}.

Definition planIsEmpty (plan : ChangePlan) : bool :=
  (List.length (toCreate plan) =? 0)%nat
  && (List.length (toUpdate plan) =? 0)%nat
  && (List.length (toDelete plan) =? 0)%nat
  && negb (settingsChanged plan).

(** Lines 153-158: the attributes the summary names under an update.  The
    two records come out of two different parses, so [!==] holds of any two
    objects or arrays. *)
Definition changedFields (local prod : record) : list string :=
  let changes := [] in
  let changes :=
    if negb (JS.strictEquals (prop local "number") (prop prod "number"))
    then changes ++ ["number"] else changes in
  let changes :=
    if negb (JS.strictEquals (prop local "name") (prop prod "name"))
    then changes ++ ["name"] else changes in
  let changes :=
    if negb (JS.strictEquals (prop local "client") (prop prod "client"))
    then changes ++ ["client"] else changes in
  let changes :=
    if negb (deepEqual (prop local "stages") (prop prod "stages"))
    then changes ++ ["stages"] else changes in
  let changes :=
    if negb (deepEqual (prop local "projectTypes") (prop prod "projectTypes"))
    then changes ++ ["projectTypes"] else changes in
  changes.

(** Lines 159-161: the line that lists them, when there is one. *)
Definition changesLine (local prod : record) : option string :=
  let changes := changedFields local prod in
  if (0 <? List.length changes)%nat
  then Some ("     (" ++ JS.join ", " changes ++ ")")%string
  else None.

(* ================================================================== *)
(** ** Effects: the remote gateway, the file system, the operator *)

Inductive method : Type := GET | POST | PUT | DELETE.

(** One call of [fetch(url, { method, body })]. *)
Record request : Type := {
  reqMethod : method;
  reqUrl : string;
  reqBody : option string
}.

(** How a mutation call ends: the promise rejects, or it resolves with a
    response that is a success ([response.ok]) or not; [errorReadable] says
    whether [await response.json()] and the read of its [error] property
    go through on a non-success response. *)
Inductive outcome : Type :=
| RespOk
| RespNotOk (errorReadable : bool)
| Rejected.

Inductive opKind : Type := OpCreate | OpUpdate | OpDelete.

(** The lines of the report that the properties below speak about; [name]
    is the [name] attribute of the project on the line. *)
Inductive message : Type :=
| MsgLocalFileMissing
| MsgAlreadyInSync
| MsgSummary (creates updates deletes : nat) (settingsChanged : bool)
| MsgSettingsWillBeUpdated
| MsgCancelled
| MsgStarting
| MsgDone (k : opKind) (name : jsval)
| MsgFailed (k : opKind) (name : jsval)
| MsgError (k : opKind) (name : jsval)
| MsgSettingsNotImplemented
| MsgSyncComplete (successCount failCount : nat)
| MsgSyncFailed
| MsgBackupSaved (file : string)
| MsgReplacementPlan (file : string) (deletes creates : nat)
| MsgDeletionComplete (deleted failed : nat)
| MsgCreationComplete (created failed : nat)
| MsgReplaceComplete (deleted created failed : nat) (file : string)
| MsgVerified (count : nat)
| MsgReplaceFailed (file : string).

Inductive event : Type :=
| EvRequest (r : request)
| EvWriteFile (path : string) (data : Snapshot) (ok : bool)
| EvAsk
| EvLog (m : message).

(** The world outside the script.  [getData] is the whole of
    [fetchProductionData]'s exchange: the decoded snapshot, or [None] when
    the request fails, the response is not a success, or its body is not a
    snapshot.  [writeFile] and [statFile] say whether [fs.writeFileSync] and
    [fs.statSync] return. *)
Record Env (W : Type) : Type := {
  getData : W -> option Snapshot * W;
  send : W -> request -> outcome * W;
  writeFile : W -> string -> Snapshot -> bool * W;
  statFile : W -> string -> bool * W
}.
Arguments getData {W}.
Arguments send {W}.
Arguments writeFile {W}.
Arguments statFile {W}.

(** What the script finds at [LOCAL_DATA_FILE]. *)
Inductive localFile : Type :=
| FileMissing
| FileUnreadable
| FileLoaded (localData : Snapshot).

(** How a computation ends: with a value, with an exception on its way to
    the enclosing [catch], with [process.exit], or waiting for an answer
    that never comes. *)
Inductive result (A : Type) : Type :=
| Val (a : A)
| Throw
| Exit (code : Z)
| Stall.
Arguments Val {A}.
Arguments Throw {A}.
Arguments Exit {A}.
Arguments Stall {A}.

Record Sys (W : Type) : Type := {
  world : W;
  stdin : list string
}.
Arguments world {W}.
Arguments stdin {W}.

(** A computation reads and updates the world and the pending operator
    input, and emits the events it causes, oldest first. *)
Definition M (W A : Type) : Type := Sys W -> result A * Sys W * list event.

Section Monad.
Context {W : Type}.

Definition ret {A} (a : A) : M W A := fun s => (Val a, s, []).

Definition bind {A B} (m : M W A) (f : A -> M W B) : M W B :=
  fun s =>
    match m s with
    | (Val a, s1, t1) => let '(r, s2, t2) := f a s1 in (r, s2, t1 ++ t2)
    | (Throw, s1, t1) => (Throw, s1, t1)
    | (Exit c, s1, t1) => (Exit c, s1, t1)
    | (Stall, s1, t1) => (Stall, s1, t1)
    end.

Definition throw {A} : M W A := fun s => (Throw, s, []).

Definition exit {A} (code : Z) : M W A := fun s => (Exit code, s, []).

(** [try { body } catch { handler }]. *)
Definition tryCatch {A} (body handler : M W A) : M W A :=
  fun s =>
    match body s with
    | (Throw, s1, t1) => let '(r, s2, t2) := handler s1 in (r, s2, t1 ++ t2)
    | other => other
    end.

Definition emit (e : event) : M W unit := fun s => (Val tt, s, [e]).

Definition log (m : message) : M W unit := emit (EvLog m).

(** [for (const x of l) { acc = body(x, acc) }]. *)
Fixpoint forEach {A S} (l : list A) (body : A -> S -> M W S) (acc : S)
  : M W S :=
  match l with
  | [] => ret acc
  | x :: r => bind (body x acc) (forEach r body)
  end.

End Monad.

Declare Scope js_scope.
Delimit Scope js_scope with js.
Notation "x <- m ;; k" := (bind m (fun x => k))
  (at level 61, m at next level, right associativity) : js_scope.
Notation "m ;; k" := (bind m (fun _ => k))
  (at level 61, right associativity) : js_scope.

Definition API_URL : string := "https://fenwick-backend.onrender.com/api".

(** [LOCAL_DATA_FILE] is read outside the model: see [localFile]. *)
Definition LOCAL_DATA_FILE : string := "local-data.json".

(** [.replace(/[:.]/g, '-')]. *)
Fixpoint replaceColonsAndDots (s : string) : string :=
  match s with
  | EmptyString => EmptyString
  | String c r =>
      String (if (Ascii.eqb c ":" || Ascii.eqb c ".")%bool then "-"%char else c)
             (replaceColonsAndDots r)
  end.

(** [BACKUP_FILE], from [iso], the value of [new Date().toISOString()] when
    the script starts. *)
Definition BACKUP_FILE (iso : string) : string :=
  "production-backup-" ++ replaceColonsAndDots iso ++ ".json".

Definition getDataRequest : request :=
  {| reqMethod := GET; reqUrl := API_URL ++ "/data"; reqBody := None |}.

Definition createRequest (project : record) : request :=
  {| reqMethod := POST;
     reqUrl := API_URL ++ "/projects";
     reqBody := JSON.stringify (Some (JObj project)) |}.

Definition updateRequest (local : record) : request :=
  {| reqMethod := PUT;
     reqUrl := API_URL ++ "/projects/" ++ JS.toString (prop local "id");
     reqBody := JSON.stringify (Some (JObj local)) |}.

Definition deleteRequest (project : record) : request :=
  {| reqMethod := DELETE;
     reqUrl := API_URL ++ "/projects/" ++ JS.toString (prop project "id");
     reqBody := None |}.

Section Workflows.
Context {W : Type}.
Variable env : Env W.

(** [String.prototype.toLowerCase] and [toUpperCase] of the runtime. *)
Variable toLowerCase toUpperCase : string -> string.

Local Open Scope js_scope.

(** [rl.question]: the next line the operator types. *)
Definition askQuestion : M W string :=
  fun s =>
    match stdin s with
    | [] => (Stall, s, [EvAsk])
    | answer :: rest =>
        (Val answer, {| world := world s; stdin := rest |}, [EvAsk])
    end.

Definition fetchProductionData : M W Snapshot :=
  fun s =>
    let '(r, w) := getData env (world s) in
    let s' := {| world := w; stdin := stdin s |} in
    match r with
    | Some data => (Val data, s', [EvRequest getDataRequest])
    | None => (Throw, s', [EvRequest getDataRequest])
    end.

(** [await fetch(url, options)] and the test of [response.ok]; where
    the loop reads the error of a non-success response ([readsError]),
    that read may throw as well. *)
Definition fetch (readsError : bool) (r : request) : M W bool :=
  fun s =>
    let '(o, w) := send env (world s) r in
    let s' := {| world := w; stdin := stdin s |} in
    match o with
    | RespOk => (Val true, s', [EvRequest r])
    | RespNotOk errorReadable =>
        if readsError && negb errorReadable
        then (Throw, s', [EvRequest r])
        else (Val false, s', [EvRequest r])
    | Rejected => (Throw, s', [EvRequest r])
    end.

Definition writeFileSync (path : string) (data : Snapshot) : M W unit :=
  fun s =>
    let '(ok, w) := writeFile env (world s) path data in
    let s' := {| world := w; stdin := stdin s |} in
    (if ok then Val tt else Throw, s', [EvWriteFile path data ok]).

Definition statSync (path : string) : M W unit :=
  fun s =>
    let '(ok, w) := statFile env (world s) path in
    (if ok then Val tt else Throw, {| world := w; stdin := stdin s |}, []).

(** Reading a property of [undefined] or [null] throws. *)
Definition deref (v : jsval) : M W json :=
  match v with
  | None | Some JNull => throw
  | Some j => ret j
  end.

(** [Object.keys(v)] throws on [undefined] and [null]. *)
Definition objectKeys (v : jsval) : M W unit :=
  match v with
  | None | Some JNull => throw
  | Some _ => ret tt
  end.

(** One iteration of a loop over projects: the call in its [try], the
    two counters (succeeded, failed); the pause that ends the iteration
    takes time only. *)
Definition attempt (readsError : bool) (k : opKind) (r : request)
    (name : jsval) (counts : nat * nat) : M W (nat * nat) :=
  let '(successCount, failCount) := counts in
  tryCatch
    (ok <- fetch readsError r ;;
     if ok then
       log (MsgDone k name) ;; ret (S successCount, failCount)
     else
       log (MsgFailed k name) ;; ret (successCount, S failCount))
    (log (MsgError k name) ;; ret (successCount, S failCount)).

(** The summary of lines 131-186. *)
Definition showSummary (localData prodData : Snapshot) (plan : ChangePlan)
  : M W unit :=
  log (MsgSummary (List.length (toCreate plan)) (List.length (toUpdate plan))
         (List.length (toDelete plan)) (settingsChanged plan)) ;;
  if settingsChanged plan then
    log MsgSettingsWillBeUpdated ;;
    localSettings <- deref (settings localData) ;;
    prodSettings <- deref (settings prodData) ;;
    (if negb (deepEqual (JS.member localSettings "colorMap")
                        (JS.member prodSettings "colorMap"))
     then objectKeys (JS.member prodSettings "colorMap") ;;
          objectKeys (JS.member localSettings "colorMap")
     else ret tt)
  else ret tt.

(** Lines 189-198: [true] when the run goes on. *)
Definition confirmSync (autoConfirm : bool) : M W bool :=
  if negb autoConfirm then
    answer <- askQuestion ;;
    if negb (String.eqb (toLowerCase answer) "yes")
       && negb (String.eqb (toLowerCase answer) "y")
    then log MsgCancelled ;; ret false
    else ret true
  else ret true.

(** Lines 200-287. *)
Definition executePlan (plan : ChangePlan) : M W unit :=
  log MsgStarting ;;
  c1 <- forEach (toCreate plan)
          (fun project => attempt true OpCreate (createRequest project)
                            (prop project "name")) (0, 0)%nat ;;
  c2 <- forEach (toUpdate plan)
          (fun u => attempt true OpUpdate (updateRequest (local u))
                      (prop (local u) "name")) c1 ;;
  c3 <- forEach (toDelete plan)
          (fun project => attempt true OpDelete (deleteRequest project)
                            (prop project "name")) c2 ;;
  (if settingsChanged plan then log MsgSettingsNotImplemented else ret tt) ;;
  log (MsgSyncComplete (fst c3) (snd c3)).

(** [syncData], from what is found at [LOCAL_DATA_FILE] and the presence of
    the [--confirm] flag.  An early [return] is the end of the [try] block;
    [rl.close()], in [finally] and before the early returns, changes
    nothing of what is observed here. *)
Definition syncData (file : localFile) (autoConfirm : bool) : M W unit :=
  tryCatch
    (match file with
     | FileMissing => log MsgLocalFileMissing ;; exit 1
     | FileUnreadable => throw
     | FileLoaded localData =>
         prodData <- fetchProductionData ;;
         let plan := computePlan localData prodData in
         if planIsEmpty plan then log MsgAlreadyInSync
         else
           showSummary localData prodData plan ;;
           proceed <- confirmSync autoConfirm ;;
           if proceed then executePlan plan else ret tt
     end)
    (log MsgSyncFailed ;; exit 1).

(** [deleteAllProjects] does not read the body of a non-success
    response.  The result is the pair (deleted, failed). *)
Definition deleteAllProjects (projects : list record) : M W (nat * nat) :=
  forEach projects
    (fun project => attempt false OpDelete (deleteRequest project)
                      (prop project "name")) (0, 0)%nat.

Definition createProjects (projects : list record) : M W (nat * nat) :=
  forEach projects
    (fun project => attempt true OpCreate (createRequest project)
                      (prop project "name")) (0, 0)%nat.

(** Lines 133-149 of the replace script. *)
Definition confirmReplace (autoConfirm : bool) : M W bool :=
  if negb autoConfirm then
    answer1 <- askQuestion ;;
    if negb (String.eqb answer1 "REPLACE") then
      log MsgCancelled ;; ret false
    else
      answer2 <- askQuestion ;;
      if negb (String.eqb (toUpperCase answer2) "YES") then
        log MsgCancelled ;; ret false
      else ret true
  else ret true.

(** [replaceProduction]; [iso] is the time the script was started at.  The
    backup holds the two-space indented serialisation of [prodData]; the
    event of the write carries the snapshot itself. *)
Definition replaceProduction (iso : string) (file : localFile)
    (autoConfirm : bool) : M W unit :=
  tryCatch
    (match file with
     | FileMissing => log MsgLocalFileMissing ;; exit 1
     | FileUnreadable => throw
     | FileLoaded localData =>
         prodData <- fetchProductionData ;;
         writeFileSync (BACKUP_FILE iso) prodData ;;
         statSync (BACKUP_FILE iso) ;;
         log (MsgBackupSaved (BACKUP_FILE iso)) ;;
         log (MsgReplacementPlan (BACKUP_FILE iso)
                (List.length (projects prodData))
                (List.length (projects localData))) ;;
         proceed <- confirmReplace autoConfirm ;;
         if proceed then
           log MsgStarting ;;
           deleteResults <- deleteAllProjects (projects prodData) ;;
           log (MsgDeletionComplete (fst deleteResults) (snd deleteResults)) ;;
           createResults <- createProjects (projects localData) ;;
           log (MsgCreationComplete (fst createResults) (snd createResults)) ;;
           log MsgSettingsNotImplemented ;;
           log (MsgReplaceComplete (fst deleteResults) (fst createResults)
                  (snd deleteResults + snd createResults) (BACKUP_FILE iso)) ;;
           finalData <- fetchProductionData ;;
           log (MsgVerified (List.length (projects finalData)))
         else ret tt
     end)
    (log (MsgReplaceFailed (BACKUP_FILE iso)) ;; exit 1).

End Workflows.

(* ================================================================== *)
(** ** The two migration scripts

    Both read [./backup-data.json]: [backup] is the snapshot found there,
    or [None] when the file cannot be read or parsed.  Of what the scripts
    print nothing is recorded: their traces hold the calls. *)

(** [migrate-data.js]. *)
Module Migrate.
Section Migrate.
Context {W : Type}.
Variable env : Env W.

Local Open Scope js_scope.

(** Lines 20-37, one iteration: the POST in its [try]; on a non-success
    response the body is read; the two branches differ in what they
    print. *)
Definition upload (project : record) : M W unit :=
  tryCatch
    (ok <- fetch env true (createRequest project) ;;
     if ok then ret tt else ret tt)
    (ret tt).

(** [migrateData]: its [catch] only reports. *)
Definition migrateData (backup : option Snapshot) : M W unit :=
  tryCatch
    (match backup with
     | None => throw
     | Some data =>
         forEach (projects data) (fun project _ => upload project) tt
     end)
    (ret tt).

End Migrate.
End Migrate.

(** [migrate-data-smart.js]. *)
Module MigrateSmart.

(** The four counters of the summary. *)
Record counters : Type := {
  created : nat;
  updated : nat;
  skipped : nat;
  failed : nat
}.

Section MigrateSmart.
Context {W : Type}.
Variable env : Env W.

Local Open Scope js_scope.

(** [checkProductionSchema]: the fetch and the reads of the answer in
    their [try]; the snapshot, or [null] when one of them throws.  The
    script does not test [response.ok]: a response of the server that is
    not a success carries an error and no projects, and the read of their
    number throws. *)
Definition checkProductionSchema : M W (option Snapshot) :=
  fun s =>
    let '(r, w) := getData env (world s) in
    (Val r, {| world := w; stdin := stdin s |}, [EvRequest getDataRequest]).

(** One iteration of the loop: a PUT when the map of the production
    projects has the identifier, a POST otherwise. *)
Definition upsert (existingProjectsMap : JsMap.t) (project : record)
    (c : counters) : M W counters :=
  tryCatch
    (match JsMap.get existingProjectsMap (prop project "id") with
     | Some _ =>
         ok <- fetch env true (updateRequest project) ;;
         if ok then
           ret {| created := created c; updated := S (updated c);
                  skipped := skipped c; failed := failed c |}
         else
           ret {| created := created c; updated := updated c;
                  skipped := skipped c; failed := S (failed c) |}
     | None =>
         ok <- fetch env true (createRequest project) ;;
         if ok then
           ret {| created := S (created c); updated := updated c;
                  skipped := skipped c; failed := failed c |}
         else
           ret {| created := created c; updated := updated c;
                  skipped := skipped c; failed := S (failed c) |}
     end)
    (ret {| created := created c; updated := updated c;
            skipped := skipped c; failed := S (failed c) |}).

(** [migrateData]; the result is the counters of the summary, when the
    script gets that far. *)
Definition migrateData (backup : option Snapshot) : M W (option counters) :=
  tryCatch
    (prodState <- checkProductionSchema ;;
     match prodState with
     | None => ret None
     | Some prod =>
         match backup with
         | None => throw
         | Some data =>
             c <- forEach (projects data)
                    (upsert (mapOfProjects (projects prod)))
                    {| created := 0; updated := 0;
                       skipped := 0; failed := 0 |} ;;
             ret (Some c)
         end
     end)
    (ret None).

End MigrateSmart.
End MigrateSmart.

(* ================================================================== *)
(** ** The gateway: the handlers of the projects, and their table *)

Module Server.

(** [projectData], which is also the parameter list of the INSERT. *)
Record projectData : Type := {
  id : jsval;
  number : jsval;
  name : jsval;
  practiceName : jsval;
  briefDescription : jsval;
  client : jsval;
  value : jsval;
  area : jsval;
  location : jsval;
  projectTypes : jsval;
  typeColor : jsval;
  thumbnail : jsval;
  notes : jsval;
  stages : jsval;
  pauses : jsval
}.

(** [JSON.stringify(v)] as a value. *)
Definition stringified (v : jsval) : jsval :=
  option_map JStr (JSON.stringify v).

(** Lines 725-741; [random] is the value that
    [Math.floor(Math.random() * 1000)] takes when it is evaluated, a
    number from 0 to 999. *)
Definition buildProjectData (project : record) (random : Z) : projectData :=
  {| id := prop project "id";
     number := JS.logicalOr (prop project "number") (Some (JNum random));
     name := prop project "name";
     practiceName := JS.logicalOr (prop project "practiceName") (Some JNull);
     briefDescription :=
       JS.logicalOr (prop project "briefDescription") (Some JNull);
     client := JS.logicalOr (prop project "client") (Some (JStr EmptyString));
     value := JS.logicalOr (prop project "value") (Some (JStr EmptyString));
     area := JS.logicalOr (prop project "area") (Some (JStr EmptyString));
     location :=
       JS.logicalOr (prop project "location") (Some (JStr EmptyString));
     projectTypes :=
       stringified
         (JS.logicalOr (prop project "projectTypes") (Some (JArr [])));
     typeColor :=
       JS.logicalOr (prop project "typeColor") (Some (JStr "#5a8a99"));
     thumbnail :=
       JS.logicalOr (prop project "thumbnail") (Some (JStr EmptyString));
     notes := JS.logicalOr (prop project "notes") (Some (JStr EmptyString));
     stages := stringified (prop project "stages");
     pauses :=
       stringified (JS.logicalOr (prop project "pauses") (Some (JArr []))) |}.

(** [escapeElement] of the driver: backslashes and double quotes are
    escaped, and the text is put between double quotes. *)
Fixpoint escapeChars (s : string) : string :=
  match s with
  | EmptyString => EmptyString
  | String c r =>
      if Ascii.eqb c "\"%char then String c (String c (escapeChars r))
      else if Ascii.eqb c dquote then String "\"%char (String c (escapeChars r))
      else String c (escapeChars r)
  end.

Definition escapeElement (s : string) : string :=
  String dquote (escapeChars s ++ String dquote EmptyString)%string.

(** [prepareValue] of node-postgres on a value that is not [null]: the text
    that is sent for a parameter.  A string is sent as it is, a number and a
    boolean by [toString], an object by [JSON.stringify], an array as an
    array literal ([arrayString]). *)
Fixpoint prepare (v : json) : string :=
  match v with
  | JArr items =>
      String "{"%char
        ((fix elements (l : list json) : string :=
            match l with
            | [] => EmptyString
            | x :: r =>
                (match x with
                 | JNull => "NULL"
                 | JArr _ => prepare x
                 | _ => escapeElement (prepare x)
                 end
                 ++ match r with
                    | [] => EmptyString
                    | _ :: _ => String ","%char (elements r)
                    end)%string
            end) items ++ "}")%string
  | JObj _ => string_of_list_ascii (JSON.ser v)
  | _ => JS.toStr v
  end.

(** [null] and [undefined] are sent as NULL, which is [None] here. *)
Definition prepareValue (v : jsval) : option string :=
  match v with
  | None | Some JNull => None
  | Some j => Some (prepare j)
  end.

(** The types of the columns of the [projects] table (lines 342-360):
    [number] is INTEGER, every other column that the handlers write is
    TEXT. *)
Inductive sqlType : Type := TEXT | INTEGER.

(** The [projects] table.  A row holds the parameters it was written
    with; what a column holds is the text of its parameter, read in the
    type of the column.  [online] is false when a query fails for a reason
    of the database's own. *)
Record database : Type := {
  online : bool;
  rows : list projectData
}.

Definition isNull (v : jsval) : bool :=
  match v with
  | None | Some JNull => true
  | Some _ => false
  end.

(** [id = projectId] on a row: [id] is a TEXT column, so the text of the
    stored parameter is compared. *)
Definition hasId (projectId : string) (r : projectData) : bool :=
  option_string_eqb (prepareValue (id r)) (Some projectId).

Section Table.
(** Whether the server reads a text as a value of the type: what it takes
    for a numeral of an INTEGER, and for a text, depends on the server. *)
Variable reads : sqlType -> string -> bool.

(** A parameter is bound to a column of the type: NULL always is, a text
    when the server reads it. *)
Definition bound (t : sqlType) (v : jsval) : bool :=
  match prepareValue v with
  | Some text => reads t text
  | None => true
  end.

(** The fifteen parameters of a statement are bound, each to its column;
    a statement with a parameter that is not bound fails before it touches
    the table. *)
Definition allBound (r : projectData) : bool :=
  bound TEXT (id r) && bound INTEGER (number r) && bound TEXT (name r)
  && bound TEXT (practiceName r) && bound TEXT (briefDescription r)
  && bound TEXT (client r) && bound TEXT (value r) && bound TEXT (area r)
  && bound TEXT (location r) && bound TEXT (projectTypes r)
  && bound TEXT (typeColor r) && bound TEXT (thumbnail r)
  && bound TEXT (notes r) && bound TEXT (stages r) && bound TEXT (pauses r).

(** INSERT INTO projects: the parameters are bound, the NOT NULL columns
    of the schema are checked, and the primary key, which is the text of
    [id]. *)
Definition insertProject (db : database) (r : projectData)
  : option database :=
  if negb (online db) then None
  else if negb (allBound r) then None
  else if isNull (number r) || isNull (name r)
          || isNull (projectTypes r) || isNull (typeColor r)
          || isNull (stages r)
  then None
  else match prepareValue (id r) with
       | None => None
       | Some key =>
           if existsb (hasId key) (rows db) then None
           else Some {| online := online db; rows := rows db ++ [r] |}
       end.

(** DELETE FROM projects WHERE id=$1. *)
Definition deleteWhereId (db : database) (projectId : string)
  : option database :=
  if negb (online db) then None
  else if negb (reads TEXT projectId) then None
  else Some {| online := online db;
               rows := filter (fun r => negb (hasId projectId r))
                              (rows db) |}.

End Table.

(** The parameter list of the UPDATE, lines 786-790: [number] and
    [typeColor] are passed as submitted; [id] is the parameter of the WHERE
    clause. *)
Definition buildUpdateData (project : record) (projectId : string)
  : projectData :=
  {| id := Some (JStr projectId);
     number := prop project "number";
     name := prop project "name";
     practiceName := JS.logicalOr (prop project "practiceName") (Some JNull);
     briefDescription :=
       JS.logicalOr (prop project "briefDescription") (Some JNull);
     client := JS.logicalOr (prop project "client") (Some (JStr EmptyString));
     value := JS.logicalOr (prop project "value") (Some (JStr EmptyString));
     area := JS.logicalOr (prop project "area") (Some (JStr EmptyString));
     location :=
       JS.logicalOr (prop project "location") (Some (JStr EmptyString));
     projectTypes :=
       stringified
         (JS.logicalOr (prop project "projectTypes") (Some (JArr [])));
     typeColor := prop project "typeColor";
     thumbnail :=
       JS.logicalOr (prop project "thumbnail") (Some (JStr EmptyString));
     notes := JS.logicalOr (prop project "notes") (Some (JStr EmptyString));
     stages := stringified (prop project "stages");
     pauses :=
       stringified (JS.logicalOr (prop project "pauses") (Some (JArr []))) |}.

(** The row that holds the values of [r] under the identifier [key]. *)
Definition withId (key : jsval) (r : projectData) : projectData :=
  {| id := key;
     number := number r;
     name := name r;
     practiceName := practiceName r;
     briefDescription := briefDescription r;
     client := client r;
     value := value r;
     area := area r;
     location := location r;
     projectTypes := projectTypes r;
     typeColor := typeColor r;
     thumbnail := thumbnail r;
     notes := notes r;
     stages := stages r;
     pauses := pauses r |}.

Section Update.
Variable reads : sqlType -> string -> bool.

(** UPDATE projects SET ... WHERE id=$15: the parameters are bound, whether
    a row has the identifier or not; every row that has it takes the new
    values and keeps its [id]; the NOT NULL columns are checked on the rows
    that change. *)
Definition updateWhereId (db : database) (r : projectData)
    (projectId : string) : option database :=
  if negb (online db) then None
  else if negb (allBound reads r) then None
  else if existsb (hasId projectId) (rows db)
          && (isNull (number r) || isNull (name r)
              || isNull (projectTypes r) || isNull (typeColor r)
              || isNull (stages r))
  then None
  else Some {| online := online db;
               rows := map (fun r' => if hasId projectId r'
                                      then withId (id r') r else r')
                           (rows db) |}.

End Update.

Record response : Type := {
  status : Z;
  body : json
}.

(** [res.json(obj)] and [res.status(500).json(obj)]. *)
Definition json200 (obj : json) : response := {| status := 200; body := obj |}.
Definition json500 (error : string) : response :=
  {| status := 500; body := JObj [("error", JStr error)] |}.

(** An object literal drops a property whose value is [undefined] when
    it is serialised. *)
Definition successWithId (v : jsval) : json :=
  JObj (("success", JBool true)
          :: match v with Some j => [("id", j)] | None => [] end).

(** [response.ok] on the client side. *)
Definition ok (r : response) : bool :=
  (200 <=? status r)%Z && (status r <=? 299)%Z.

Section Handlers.
Variable reads : sqlType -> string -> bool.

(** [process.env.NODE_ENV === 'production']: PostgreSQL, whose queries
    are awaited; otherwise SQLite, whose [db.run] is not waited for. *)
Variable isProduction : bool.

(** app.post('/api/projects'). *)
Definition postProject (random : Z) (db : database) (project : record)
  : response * database :=
  let projectData := buildProjectData project random in
  if isProduction then
    match insertProject reads db projectData with
    | Some db' => (json200 (successWithId (id projectData)), db')
    | None => (json500 "Failed to create project", db)
    end
  else
    (json200 (successWithId (id projectData)),
     match insertProject reads db projectData with
     | Some db' => db'
     | None => db
     end).

(** app.put('/api/projects/:id'). *)
Definition putProject (db : database) (project : record)
    (projectId : string) : response * database :=
  let params := buildUpdateData project projectId in
  if isProduction then
    match updateWhereId reads db params projectId with
    | Some db' => (json200 (JObj [("success", JBool true)]), db')
    | None => (json500 "Failed to update project", db)
    end
  else
    (json200 (JObj [("success", JBool true)]),
     match updateWhereId reads db params projectId with
     | Some db' => db'
     | None => db
     end).

(** app.delete('/api/projects/:id'). *)
Definition deleteProject (db : database) (projectId : string)
  : response * database :=
  if isProduction then
    match deleteWhereId reads db projectId with
    | Some db' => (json200 (JObj [("success", JBool true)]), db')
    | None => (json500 "Failed to delete project", db)
    end
  else
    (json200 (JObj [("success", JBool true)]),
     match deleteWhereId reads db projectId with
     | Some db' => db'
     | None => db
     end).
End Handlers.

End Server.

(* ================================================================== *)
(** ** The checks of [check-production.js] on the fetched projects *)

Module CheckProduction.

(** Line 19. *)
Definition hasNewSchema (projects : list record) : bool :=
  existsb (fun p => JS.isArray (prop p "projectTypes")) projects.

(** Lines 59-63. *)
Definition allHaveNewFields (projects : list record) : bool :=
  forallb (fun p =>
             negb (JS.strictEquals (prop p "practiceName") None)
             && negb (JS.strictEquals (prop p "briefDescription") None)
             && JS.isArray (prop p "projectTypes"))
          projects.

(** Lines 68-72. *)
Definition needsUpdate (projects : list record) : nat :=
  List.length
    (filter (fun p =>
               JS.strictEquals (prop p "practiceName") None
               || JS.strictEquals (prop p "briefDescription") None
               || negb (JS.isArray (prop p "projectTypes")))
            projects).

End CheckProduction.

(* ================================================================== *)
(** ** Notions the properties are stated with *)

Definition idOf (p : record) : jsval := prop p "id".

(** A record with identifier [k] occurs in the collection. *)
Definition present (k : jsval) (ps : list record) : bool :=
  existsb (fun p => JS.sameValueZero (idOf p) k) ps.

(** The record a collection holds under [k]: the last one, when several
    carry the same identifier. *)
Definition recordOf (k : jsval) (ps : list record) : option record :=
  find (fun p => JS.sameValueZero (idOf p) k) (rev ps).

Definition countId (k : jsval) (ids : list jsval) : nat :=
  List.length (filter (JS.sameValueZero k) ids).

Definition updateIds (plan : ChangePlan) : list jsval :=
  map (fun u => idOf (local u)) (toUpdate plan).

(** Identifiers that a [Map] compares by value. *)
Definition primitive (k : jsval) : bool := JS.sameValueZero k k.

Definition listed (k : jsval) (ids : list jsval) : bool :=
  existsb (JS.sameValueZero k) ids.


(** Equality of values in which an object is a mapping: the same keys with
    equal values, in whatever order they were inserted; an array is a
    sequence.  This is the structural equality the data model speaks of; it
    is not what [deepEqual] computes. *)
Fixpoint structurallyEqual (a b : json) : bool :=
  match a, b with
  | JNull, JNull => true
  | JBool x, JBool y => Bool.eqb x y
  | JNum x, JNum y => Z.eqb x y
  | JStr x, JStr y => String.eqb x y
  | JArr xs, JArr ys =>
      (fix go (xs ys : list json) : bool :=
         match xs, ys with
         | [], [] => true
         | x :: xs', y :: ys' => structurallyEqual x y && go xs' ys'
         | _, _ => false
         end) xs ys
  | JObj fa, JObj fb =>
      Nat.eqb (List.length fa) (List.length fb)
      && (fix all (fa : list (string * json)) : bool :=
            match fa with
            | [] => true
            | (k, x) :: r =>
                match JS.getField k fb with
                | Some y => structurallyEqual x y
                | None => false
                end && all r
            end) fa
  | _, _ => false
  end.

Definition emptyPlan : ChangePlan :=
  {| toCreate := [];
     toUpdate := [];
     toDelete := [];
     settingsChanged := false |}.

(** ** Reading a run *)

Definition requestsOf (t : list event) : list request :=
  flat_map (fun e => match e with EvRequest r => [r] | _ => [] end) t.

Definition isMutation (r : request) : bool :=
  match reqMethod r with GET => false | _ => true end.

(** The create, update and delete calls of a run, in the order issued. *)
Definition mutationsOf (t : list event) : list request :=
  filter isMutation (requestsOf t).

Definition logged (m : message) (t : list event) : Prop := In (EvLog m) t.

Definition succeeded (o : outcome) : bool :=
  match o with RespOk => true | _ => false end.

Definition successes (os : list outcome) : nat :=
  List.length (filter succeeded os).

Definition failures (os : list outcome) : nat :=
  List.length (filter (fun o => negb (succeeded o)) os).

(** What the gateway answers to a sequence of calls made one after the
    other from the world [w]. *)
Fixpoint replies {W} (env : Env W) (w : W) (reqs : list request)
  : list outcome * W :=
  match reqs with
  | [] => ([], w)
  | r :: rest =>
      let '(o, w1) := send env w r in
      let '(os, w2) := replies env w1 rest in
      (o :: os, w2)
  end.

(** The calls that carry out a plan. *)
Definition planRequests (plan : ChangePlan) : list request :=
  map createRequest (toCreate plan)
  ++ map (fun u => updateRequest (local u)) (toUpdate plan)
  ++ map deleteRequest (toDelete plan).



(** A settings object as the export script and the GET handler build it:
    an object whose [colorMap] is a mapping. *)
Definition wellFormedSettings (s : jsval) : Prop :=
  exists fields colorMap,
    s = Some (JObj fields)
    /\ JS.getField "colorMap" fields = Some (JObj colorMap).

(** The answers [syncData] takes for a yes. *)
Definition affirmative (toLowerCase : string -> string) (answer : string)
  : bool :=
  String.eqb (toLowerCase answer) "yes" || String.eqb (toLowerCase answer) "y".

(** The run is not held back: the flag is given, or the operator's first
    answer is affirmative. *)
Definition syncConfirmed (toLowerCase : string -> string)
    (autoConfirm : bool) (input : list string) : bool :=
  autoConfirm
  || match input with
     | answer :: _ => affirmative toLowerCase answer
     | [] => false
     end.

Definition replaceConfirmed (toUpperCase : string -> string)
    (autoConfirm : bool) (input : list string) : bool :=
  autoConfirm
  || match input with
     | answer1 :: answer2 :: _ =>
         String.eqb answer1 "REPLACE" && String.eqb (toUpperCase answer2) "YES"
     | _ => false
     end.

(** The three components of a finished run. *)
Definition resultOf {W A} (x : result A * Sys W * list event) : result A :=
  fst (fst x).
Definition sysOf {W A} (x : result A * Sys W * list event) : Sys W :=
  snd (fst x).
Definition traceOf {W A} (x : result A * Sys W * list event) : list event :=
  snd x.

(** The calls that carry out a full replacement. *)
Definition replaceRequests (localData prodData : Snapshot) : list request :=
  map deleteRequest (projects prodData)
  ++ map createRequest (projects localData).


(** ** Further notions *)

(** No two records of the collection carry the same identifier. *)
Fixpoint distinctIds (ps : list record) : bool :=
  match ps with
  | [] => true
  | p :: r => negb (present (idOf p) r) && distinctIds r
  end.

(** The collection holds, under the identifier of [p], a record that is
    not [p]. *)
Definition differsIn (ps : list record) (p : record) : bool :=
  match recordOf (idOf p) ps with
  | Some q => negb (deepEqual (Some (JObj p)) (Some (JObj q)))
  | None => false
  end.

(** The questions put to the operator in a run. *)
Definition isAsk (e : event) : bool :=
  match e with EvAsk => true | _ => false end.

Definition asksOf (t : list event) : nat := List.length (filter isAsk t).

(** A computation that puts no question to the operator and leaves the
    pending input as it is. *)
Definition quiet {W A} (m : M W A) : Prop :=
  forall sys,
    asksOf (traceOf (m sys)) = 0 /\ stdin (sysOf (m sys)) = stdin sys.

(** The writes of files among the events. *)
Definition isWrite (e : event) : bool :=
  match e with EvWriteFile _ _ _ => true | _ => false end.

(** A computation all of whose events satisfy [P]. *)
Definition emitsOnly {W A} (P : event -> Prop) (m : M W A) : Prop :=
  forall sys e, In e (traceOf (m sys)) -> P e.

(** A computation that puts at most [n] questions. *)
Definition asksAtMost {W A} (n : nat) (m : M W A) : Prop :=
  forall sys, asksOf (traceOf (m sys)) <= n.

Definition isDigit (c : ascii) : bool :=
  let n := nat_of_ascii c in ((48 <=? n) && (n <=? 57))%nat.

(** [s] has the shape [shape], in which [d] stands for a digit and every
    other character for itself. *)
Fixpoint matchesShape (shape s : string) : bool :=
  match shape, s with
  | EmptyString, EmptyString => true
  | String x shape', String c s' =>
      (if Ascii.eqb x "d" then isDigit c else Ascii.eqb x c)
      && matchesShape shape' s'
  | _, _ => false
  end.

(** What [toISOString] gives for the years 0 to 9999. *)
Definition isoShape (s : string) : bool :=
  matchesShape "dddd-dd-ddTdd:dd:dd.dddZ" s.

(** The table has a row under the identifier. *)
Definition hasRow (db : Server.database) (projectId : string) : bool :=
  existsb (Server.hasId projectId) (Server.rows db).

(** The text that the table would hold for the identifier of the
    submitted record is new. *)
Definition freshId (db : Server.database) (project : record) : bool :=
  match Server.prepareValue (prop project "id") with
  | Some key => negb (hasRow db key)
  | None => false
  end.

(** What the create handler needs of the server, of the table and of the
    submitted record: a server that answers and reads the parameters, an
    identifier that is new, a name, and stages. *)
Definition creatable (reads : Server.sqlType -> string -> bool)
    (random : Z) (db : Server.database) (project : record) : bool :=
  Server.online db
  && Server.allBound reads (Server.buildProjectData project random)
  && freshId db project
  && negb (Server.isNull (prop project "name"))
  && match prop project "stages" with Some _ => true | None => false end.

(** The server reads the parameters of the update. *)
Definition bindable (reads : Server.sqlType -> string -> bool)
    (project : record) (projectId : string) : bool :=
  Server.allBound reads (Server.buildUpdateData project projectId).

(** What the update handler needs of the submitted record when a row
    changes: a number, a name, a colour, and stages. *)
Definition updatable (project : record) : bool :=
  negb (Server.isNull (prop project "number"))
  && negb (Server.isNull (prop project "name"))
  && negb (Server.isNull (prop project "typeColor"))
  && match prop project "stages" with Some _ => true | None => false end.

(** The creation calls among the calls. *)
Definition isCreation (r : request) : bool :=
  match reqMethod r with POST => true | _ => false end.

(** The request the smart migration makes for a record. *)
Definition upsertRequest (prod : list record) (p : record) : request :=
  if present (idOf p) prod then updateRequest p else createRequest p.

(** ** A gateway that plays a script

    The world is the list of outcomes still to come; a call beyond the
    script succeeds.  The fetch returns [prodData]; the disk works or not. *)
Module Scripted.

Definition env (prodData : option Snapshot) (disk : bool)
  : Env (list outcome) :=
  {| getData := fun w => (prodData, w);
     send := fun w _ =>
               match w with
               | [] => (RespOk, [])
               | o :: rest => (o, rest)
               end;
     writeFile := fun w _ _ => (disk, w);
     statFile := fun w _ => (disk, w) |}.

Definition upperChar (c : ascii) : ascii :=
  let n := nat_of_ascii c in
  if ((97 <=? n) && (n <=? 122))%nat then ascii_of_nat (n - 32) else c.

Definition lowerChar (c : ascii) : ascii :=
  let n := nat_of_ascii c in
  if ((65 <=? n) && (n <=? 90))%nat then ascii_of_nat (n + 32) else c.

Fixpoint mapChars (f : ascii -> ascii) (s : string) : string :=
  match s with
  | EmptyString => EmptyString
  | String c r => String (f c) (mapChars f r)
  end.

(** [toUpperCase] and [toLowerCase] on ASCII text. *)
Definition toUpperCase : string -> string := mapChars upperChar.
Definition toLowerCase : string -> string := mapChars lowerChar.

Definition start (script : list outcome) (answers : list string)
  : Sys (list outcome) :=
  {| world := script; stdin := answers |}.

End Scripted.

(** ** A gateway whose fetch gives out

    The fetch answers [prodData] a given number of times and fails from
    then on; the calls are answered from a script as above; the disk writes
    and measures files, or not. *)
Module Flaky.

Record state : Type := {
  fetches : nat;
  script : list outcome
}.

Definition env (prodData : Snapshot) (writes stats : bool) : Env state :=
  {| getData := fun w =>
       match fetches w with
       | O => (None, w)
       | S n => (Some prodData, {| fetches := n; script := script w |})
       end;
     send := fun w _ =>
       match script w with
       | [] => (RespOk, w)
       | o :: rest => (o, {| fetches := fetches w; script := rest |})
       end;
     writeFile := fun w _ _ => (writes, w);
     statFile := fun w _ => (stats, w) |}.

Definition start (n : nat) (outcomes : list outcome) (answers : list string)
  : Sys state :=
  {| world := {| fetches := n; script := outcomes |}; stdin := answers |}.

End Flaky.

(** ** Sample data *)

Module Samples.

Definition stage (from to : string) : json :=
  JObj [("start", JStr from); ("end", JStr to)].

(** A project as the export script and the GET handler lay it out. *)
Definition project (id : string) (number : Z) (name : string)
    (stages : list (string * json)) : record :=
  [("id", JStr id); ("number", JNum number); ("name", JStr name);
   ("practiceName", JNull); ("briefDescription", JNull);
   ("client", JStr "Fenwick"); ("value", JStr EmptyString);
   ("area", JStr EmptyString);
   ("location", JStr "London"); ("projectTypes", JArr [JStr "Cultural"]);
   ("typeColor", JStr "#B68CC9"); ("thumbnail", JStr EmptyString);
   ("notes", JStr EmptyString);
   ("stages", JObj stages); ("pauses", JArr [])].

Definition twoStages : list (string * json) :=
  [("concept", stage "2020-01" "2020-06");
   ("design", stage "2020-07" "2021-02")].

Definition sampleSettings (colorMap : list (string * json)) : jsval :=
  Some (JObj [("startYear", JNum 2011); ("endYear", JNum 2026);
              ("colorMap", JObj colorMap);
              ("projectTypeColors", JObj [("Cultural", JStr "#B68CC9")])]).

Definition colors : list (string * json) :=
  [("Commercial", JStr "#C97373"); ("Residential", JStr "#C79A6B")].

(** Scenario A. *)
Definition p1 := project "1" 1 "Library" twoStages.
Definition p2 := project "2" 2 "Museum" twoStages.
Definition p2' := project "2" 2 "Museum (old name)" twoStages.
Definition p3 := project "3" 3 "Station" twoStages.
Definition p4 := project "4" 4 "Pavilion" twoStages.

Definition sourceA : Snapshot :=
  {| projects := [p1; p2; p3]; settings := sampleSettings colors |}.
Definition targetA : Snapshot :=
  {| projects := [p2'; p3; p4]; settings := sampleSettings colors |}.

(** The same project, the two stages inserted in the other order. *)
Definition p2swapped :=
  project "2" 2 "Museum"
    [("design", stage "2020-07" "2021-02");
     ("concept", stage "2020-01" "2020-06")].

Definition sourceOrder : Snapshot :=
  {| projects := [p2]; settings := sampleSettings colors |}.
Definition targetOrder : Snapshot :=
  {| projects := [p2swapped]; settings := sampleSettings colors |}.


(** Scenario C: five records in production, three locally. *)
Definition p5 := project "5" 5 "Bridge" twoStages.
Definition localC : Snapshot :=
  {| projects := [p1; p2; p3]; settings := sampleSettings colors |}.
Definition prodC : Snapshot :=
  {| projects := [p1; p2'; p3; p4; p5]; settings := sampleSettings colors |}.

Definition iso : string := "2024-05-01T10:20:30.456Z".

(** The record 3 as production holds it, and moved to another town. *)
Definition p3moved : record :=
  map (fun kv => if String.eqb (fst kv) "location"
                 then ("location", JStr "Leeds") else kv) p3.

(** A record submitted with an identifier, a name and stages only. *)
Definition bare : record :=
  [("id", JStr "9"); ("name", JStr "Kiosk"); ("stages", JObj [])].

(** A server for the samples: it reads as TEXT a text without the
    character of code 0, and as INTEGER a plain decimal numeral from
    -2^31 to 2^31 - 1. *)
Definition reads (t : Server.sqlType) (text : string) : bool :=
  match t with
  | Server.TEXT => negb (existsb (Ascii.eqb zero) (chars text))
  | Server.INTEGER =>
      match NilZero.int_of_string text with
      | Some d =>
          (-2147483648 <=? Z.of_int d)%Z && (Z.of_int d <=? 2147483647)%Z
      | None => false
      end
  end.

(** The stages of record 2 under the keys 1 and 2, written in the two
    orders. *)
Definition numbered : list (string * json) :=
  [("1", stage "2020-01" "2020-06"); ("2", stage "2020-07" "2021-02")].
Definition p2numbered :=
  project "2" 2 "Museum" (JS.objectOf numbered).
Definition p2renumbered :=
  project "2" 2 "Museum" (JS.objectOf (rev numbered)).

(** A record whose identifier is an array. *)
Definition oddId : Snapshot :=
  {| projects := [[("id", JArr [JNum 1]); ("name", JStr "Annex")]];
     settings := sampleSettings colors |}.


Definition emptyDb : Server.database :=
  {| Server.online := true; Server.rows := [] |}.

Definition oneRowDb : Server.database :=
  {| Server.online := true;
     Server.rows := [Server.buildProjectData p1 0] |}.

End Samples.

(* ================================================================== *)
(** ** Notions used in the proofs *)

Module JSONAux.
Import JSON.

(** Every character, for the checks done by enumeration. *)
Definition allAscii : list ascii := map ascii_of_nat (seq 0 256).

Definition ascii_eqb (a b : ascii) : bool := Ascii.eqb a b.

Fixpoint compatible (l1 l2 : list ascii) : bool :=
  match l1, l2 with
  | [], _ | _, [] => true
  | a :: r1, b :: r2 => ascii_eqb a b && compatible r1 r2
  end.

Definition quoteTable : list (ascii * list ascii) :=
  map (fun c => (c, quoteChar c)) allAscii.

Definition quoteChar_code_ok : bool :=
  let tbl := quoteTable in
  forallb (fun p1 =>
    forallb (fun p2 =>
      ascii_eqb (fst p1) (fst p2) || negb (compatible (snd p1) (snd p2)))
      tbl) tbl.

Definition startsPlain (l : list ascii) : bool :=
  match l with
  | [] => false
  | c :: _ => negb (ascii_eqb c dquote)
  end.

Definition numChar (c : ascii) : bool :=
  existsb (ascii_eqb c) (chars "-0123456789").

(** What may follow a serialised value: nothing, or a character that is
    not part of a number. *)
Definition okRest (r : list ascii) : bool :=
  match r with
  | [] => true
  | c :: _ => negb (numChar c)
  end.

(** The first character of a serialised value tells its kind. *)
Definition valueStart (c : ascii) : bool :=
  existsb (ascii_eqb c) (dquote :: chars "ntf[{") || numChar c.

Definition tag (v : json) : nat :=
  match v with
  | JNull => 0 | JBool true => 1 | JBool false => 2 | JNum _ => 3
  | JStr _ => 4 | JArr _ => 5 | JObj _ => 6
  end.

Definition charTag (c : ascii) : nat :=
  if ascii_eqb c "n" then 0 else if ascii_eqb c "t" then 1
  else if ascii_eqb c "f" then 2 else if numChar c then 3
  else if ascii_eqb c dquote then 4 else if ascii_eqb c "[" then 5
  else if ascii_eqb c "{" then 6 else 7.

Definition inj_at (v1 : json) : Prop :=
  forall v2 r1 r2, okRest r1 = true -> okRest r2 = true ->
    ser v1 ++ r1 = ser v2 ++ r2 -> v1 = v2 /\ r1 = r2.

End JSONAux.

Module JsMapAux.
Import JS JsMap.

Definition findEntry (m : t) (k : jsval) : option (jsval * record) :=
  find (fun e => sameValueZero (fst e) k) m.

(** No two entries of a map have the same key. *)
Fixpoint distinctKeys (m : t) : Prop :=
  match m with
  | [] => True
  | (k, _) :: r =>
      (forall e, In e r -> sameValueZero k (fst e) = false) /\ distinctKeys r
  end.

(** Every entry is filed under the identifier of its record. *)
Definition keyed (m : t) : Prop :=
  Forall (fun e => fst e = idOf (snd e)) m.

End JsMapAux.

Module PlanAux.
Import JS JsMap.

Definition isCreate (prodMap : t) (e : jsval * record) : bool :=
  match get prodMap (fst e) with None => true | Some _ => false end.

Definition isUpdate (prodMap : t) (e : jsval * record) : bool :=
  match get prodMap (fst e) with
  | Some p => negb (deepEqual (Some (JObj (snd e))) (Some (JObj p)))
  | None => false
  end.

Definition pairOf (prodMap : t) (e : jsval * record) : UpdatePair :=
  {| local := snd e;
     prod := match get prodMap (fst e) with Some p => p | None => snd e end |}.

Definition isDelete (localMap : t) (e : jsval * record) : bool :=
  negb (has localMap (fst e)).

End PlanAux.

Module OrderAux.

(** The array index of the key of a property. *)
Definition indexOf (kv : string * json) : Z :=
  match JS.arrayIndex (fst kv) with Some n => n | None => -1 end.

Definition byIndex (a b : string * json) : Prop := (indexOf a < indexOf b)%Z.

(** Every key is an array index. *)
Definition indexed (o : list (string * json)) : Prop :=
  Forall (fun kv => JS.arrayIndex (fst kv) <> None) o.

End OrderAux.

Definition nullish (v : jsval) : bool :=
  match v with None | Some JNull => true | Some _ => false end.


(* ================================================================== *)
(** * Properties *)

(* ================================================================== *)
(** ** Serialisation is injective *)

Module JSONFacts.
Import JSON JSONAux.

Lemma ser_arr l : ser (JArr l) = "["%char :: elems l ++ ["]"%char].
Proof.
  reflexivity.
Qed.

Lemma ser_obj l : ser (JObj l) = "{"%char :: members l ++ ["}"%char].
Proof.
  reflexivity.
Qed.

Lemma allAscii_complete c : In c allAscii.
Proof.
  unfold allAscii. rewrite <- (ascii_nat_embedding c).
  apply in_map, in_seq. pose proof (nat_ascii_bounded c). lia.
Qed.

Lemma app_compatible l1 : forall l2 x y,
  l1 ++ x = l2 ++ y -> compatible l1 l2 = true.
Proof.
  induction l1 as [|a r1 IH]; intros [|b r2] x y H; simpl; try reflexivity.
  simpl in H. injection H as -> H. unfold ascii_eqb.
  rewrite Ascii.eqb_refl. simpl. eauto.
Qed.

Lemma quoteTable_complete c : In (c, quoteChar c) quoteTable.
Proof.
  unfold quoteTable.
  apply (in_map (fun c => (c, quoteChar c))), allAscii_complete.
Qed.

Lemma quoteChar_code_checked : quoteChar_code_ok = true.
Proof. vm_compute. reflexivity. Qed.

Lemma quoteChar_inj c1 c2 x y :
  quoteChar c1 ++ x = quoteChar c2 ++ y -> c1 = c2 /\ x = y.
Proof.
  intros H.
  assert (E : c1 = c2).
  { pose proof quoteChar_code_checked as K.
    unfold quoteChar_code_ok in K. cbv zeta in K.
    rewrite forallb_forall in K.
    specialize (K _ (quoteTable_complete c1)). rewrite forallb_forall in K.
    specialize (K _ (quoteTable_complete c2)). simpl in K.
    rewrite (app_compatible _ _ _ _ H) in K. simpl in K.
    rewrite orb_false_r in K. now apply Ascii.eqb_eq. }
  subst c2. split; [reflexivity|]. now apply app_inv_head in H.
Qed.

Lemma quoteChar_head c : startsPlain (quoteChar c) = true.
Proof.
  assert (K : forallb (fun c => startsPlain (quoteChar c)) allAscii = true)
    by (vm_compute; reflexivity).
  rewrite forallb_forall in K. apply K, allAscii_complete.
Qed.

Lemma escape_inj s1 : forall s2 r1 r2,
  escape s1 ++ dquote :: r1 = escape s2 ++ dquote :: r2 ->
  s1 = s2 /\ r1 = r2.
Proof.
  induction s1 as [|c1 s1 IH]; intros [|c2 s2] r1 r2 H; simpl in H.
  - injection H as ->. auto.
  - pose proof (quoteChar_head c2) as K.
    destruct (quoteChar c2) as [|a t]; [discriminate|]. simpl in H, K.
    injection H as <- _. unfold ascii_eqb in K.
    now rewrite Ascii.eqb_refl in K.
  - pose proof (quoteChar_head c1) as K.
    destruct (quoteChar c1) as [|a t]; [discriminate|]. simpl in H, K.
    injection H as -> _. unfold ascii_eqb in K.
    now rewrite Ascii.eqb_refl in K.
  - rewrite <- !app_assoc in H. apply quoteChar_inj in H as [-> H].
    apply IH in H as [-> ->]. auto.
Qed.

Lemma quote_inj s1 s2 r1 r2 :
  quote s1 ++ r1 = quote s2 ++ r2 -> s1 = s2 /\ r1 = r2.
Proof.
  unfold quote. simpl. intros H. injection H as H.
  rewrite <- !app_assoc in H. simpl in H. now apply escape_inj in H.
Qed.

(** *** Numbers *)

Lemma digits_numChar d :
  Forall (fun c => numChar c = true) (chars (NilEmpty.string_of_uint d)).
Proof.
  induction d; simpl; constructor; auto.
Qed.

Lemma numToString_chars n :
  Forall (fun c => numChar c = true) (numToString n).
Proof.
  unfold numToString.
  assert (U : forall d, Forall (fun c => numChar c = true)
                          (chars (NilZero.string_of_uint d))).
  { intros d. destruct d; try apply digits_numChar.
    simpl. constructor; auto. }
  destruct (Z.to_int n); simpl; [apply U|]. constructor; [reflexivity|apply U].
Qed.

Lemma numToString_nonempty n : numToString n <> [].
Proof.
  unfold numToString.
  destruct (Z.to_int n) as [d|d]; simpl; [|discriminate].
  destruct d; simpl; discriminate.
Qed.

Lemma to_int_proper n : Z.to_int n <> Decimal.Pos Decimal.Nil
                        /\ Z.to_int n <> Decimal.Neg Decimal.Nil.
Proof.
  destruct n; simpl; split; try discriminate;
    intros [= E]; now apply DecimalPos.Unsigned.to_uint_nonnil in E.
Qed.

Lemma numToString_inj n1 n2 : numToString n1 = numToString n2 -> n1 = n2.
Proof.
  unfold numToString, chars. intros H.
  apply (f_equal string_of_list_ascii) in H.
  rewrite !string_of_list_ascii_of_string in H.
  apply (f_equal NilZero.int_of_string) in H.
  destruct (to_int_proper n1), (to_int_proper n2).
  rewrite !NilZero.isi in H by assumption.
  injection H as H. now apply DecimalZ.to_int_inj.
Qed.

Lemma numeric_prefix d1 : forall d2 r1 r2,
  Forall (fun c => numChar c = true) d1 ->
  Forall (fun c => numChar c = true) d2 ->
  okRest r1 = true -> okRest r2 = true ->
  d1 ++ r1 = d2 ++ r2 -> d1 = d2 /\ r1 = r2.
Proof.
  induction d1 as [|a d1 IH]; intros [|b d2] r1 r2 F1 F2 O1 O2 H; simpl in H.
  - auto.
  - subst r1. apply Forall_inv in F2. simpl in O1.
    rewrite F2 in O1. discriminate.
  - subst r2. apply Forall_inv in F1. simpl in O2.
    rewrite F1 in O2. discriminate.
  - injection H as -> H.
    apply Forall_inv_tail in F1. apply Forall_inv_tail in F2.
    destruct (IH _ _ _ F1 F2 O1 O2 H) as [-> ->]. auto.
Qed.

(** *** Values *)

Lemma ser_head v : exists c t, ser v = c :: t /\ valueStart c = true.
Proof.
  destruct v as [|[|]|n|s|l|l]; try (simpl; eauto; fail).
  - pose proof (numToString_chars n) as F.
    pose proof (numToString_nonempty n) as N. simpl.
    destruct (numToString n) as [|c t]; [congruence|].
    apply Forall_inv in F. exists c, t. split; [reflexivity|].
    unfold valueStart. rewrite F. apply orb_true_r.
  - unfold ser, quote. eauto.
Qed.

Lemma ser_num_head n c t : ser (JNum n) = c :: t -> numChar c = true.
Proof.
  simpl. intros H. pose proof (numToString_chars n) as F.
  rewrite H in F. now apply Forall_inv in F.
Qed.

(** *** Injectivity *)

Lemma numChar_tag c : numChar c = true -> charTag c = 3.
Proof.
  assert (K : forallb (fun c => implb (numChar c) (Nat.eqb (charTag c) 3))
                allAscii = true) by (vm_compute; reflexivity).
  rewrite forallb_forall in K. specialize (K c (allAscii_complete c)).
  intros E. rewrite E in K. simpl in K. now apply Nat.eqb_eq.
Qed.

Lemma ser_tag v c t : ser v = c :: t -> charTag c = tag v.
Proof.
  destruct v as [|[|]|n|s|l|l]; intros H;
    try (injection H as <- _; reflexivity).
  apply ser_num_head in H. now apply numChar_tag.
Qed.

Lemma ser_same_tag v1 v2 r1 r2 :
  ser v1 ++ r1 = ser v2 ++ r2 -> tag v1 = tag v2.
Proof.
  destruct (ser_head v1) as (c1 & t1 & E1 & _).
  destruct (ser_head v2) as (c2 & t2 & E2 & _).
  rewrite E1, E2. intros [= -> _].
  now rewrite <- (ser_tag _ _ _ E1), <- (ser_tag _ _ _ E2).
Qed.

Lemma no_value_at c r v x :
  valueStart c = false -> c :: r = ser v ++ x -> False.
Proof.
  intros V H. destruct (ser_head v) as (c' & t & E & V').
  rewrite E in H. injection H as -> _. congruence.
Qed.

Lemma elems_inj l1 :
  Forall inj_at l1 ->
  forall l2 r1 r2,
    elems l1 ++ "]"%char :: r1 = elems l2 ++ "]"%char :: r2 ->
    l1 = l2 /\ r1 = r2.
Proof.
  induction 1 as [|x t1 Hx _ IH]; intros [|y t2] r1 r2 H.
  - simpl in H. injection H as ->. auto.
  - exfalso. simpl in H. rewrite <- app_assoc in H.
    eapply no_value_at; [|exact H]. reflexivity.
  - exfalso. simpl in H. rewrite <- app_assoc in H. symmetry in H.
    eapply no_value_at; [|exact H]. reflexivity.
  - simpl in H. rewrite <- !app_assoc in H.
    apply Hx in H as [-> H];
      [| destruct t1; reflexivity | destruct t2; reflexivity].
    destruct t1 as [|x1 t1], t2 as [|y2 t2]; simpl in H.
    + injection H as ->. auto.
    + discriminate.
    + discriminate.
    + injection H as H. destruct (IH (y2 :: t2) r1 r2 H) as [E ->].
      rewrite E. auto.
Qed.

Lemma members_inj l1 :
  Forall (fun kv => inj_at (snd kv)) l1 ->
  forall l2 r1 r2,
    members l1 ++ "}"%char :: r1 = members l2 ++ "}"%char :: r2 ->
    l1 = l2 /\ r1 = r2.
Proof.
  induction 1 as [|[k x] t1 Hx _ IH]; intros [|[k' y] t2] r1 r2 H.
  - simpl in H. injection H as ->. auto.
  - exfalso. simpl in H. unfold quote in H. simpl in H. discriminate.
  - exfalso. simpl in H. unfold quote in H. simpl in H. discriminate.
  - simpl in H, Hx. unfold quote in H. simpl in H. injection H as H.
    rewrite <- !app_assoc in H. simpl in H.
    apply escape_inj in H as [-> H]. injection H as H.
    rewrite <- !app_assoc in H.
    apply Hx in H as [-> H];
      [| destruct t1; reflexivity | destruct t2; reflexivity].
    destruct t1 as [|x1 t1], t2 as [|y2 t2]; simpl in H.
    + injection H as ->. auto.
    + discriminate.
    + discriminate.
    + injection H as H. destruct (IH (y2 :: t2) r1 r2 H) as [E ->].
      rewrite E. auto.
Qed.

Lemma ser_inj_rest v1 : inj_at v1.
Proof.
  induction v1 as [|b|n|s|l IHl|l IHl] using json_nested_ind;
    intros v2 r1 r2 O1 O2 H;
    pose proof (ser_same_tag _ _ _ _ H) as T;
    destruct v2 as [|[|]|n2|s2|l2|l2]; try discriminate T;
    try (destruct b; discriminate T).
  - simpl in H. injection H as ->. auto.
  - destruct b; [|discriminate T]. simpl in H. injection H as ->. auto.
  - destruct b; [discriminate T|]. simpl in H. injection H as ->. auto.
  - simpl in H.
    apply numeric_prefix in H as [E ->];
      auto using numToString_chars.
    apply numToString_inj in E. subst. auto.
  - simpl in H. apply quote_inj in H as [-> ->]. auto.
  - rewrite !ser_arr in H. injection H as H.
    rewrite <- !app_assoc in H. simpl in H.
    apply elems_inj in H as [-> ->]; auto.
  - rewrite !ser_obj in H. injection H as H.
    rewrite <- !app_assoc in H. simpl in H.
    apply members_inj in H as [-> ->]; auto.
Qed.

Theorem ser_inj v1 v2 : ser v1 = ser v2 -> v1 = v2.
Proof.
  intros H. apply (ser_inj_rest v1 v2 [] []); auto.
  now rewrite !app_nil_r.
Qed.

Theorem stringify_inj a b : stringify a = stringify b -> a = b.
Proof.
  destruct a, b; simpl; intros H; try discriminate; auto.
  injection H as H. apply (f_equal list_ascii_of_string) in H.
  rewrite !list_ascii_of_string_of_list_ascii in H.
  f_equal. now apply ser_inj.
Qed.

End JSONFacts.

(* ================================================================== *)
(** ** Maps and the change plan *)

Module JsMapFacts.
Import JS JsMap JsMapAux.

Lemma svz_eq a b : sameValueZero a b = true -> a = b.
Proof.
  destruct a as [[| x | x | x | |]|], b as [[| y | y | y | |]|];
    simpl; try discriminate; auto.
  - intros H. apply Bool.eqb_prop in H. now subst.
  - intros H. apply Z.eqb_eq in H. now subst.
  - intros H. apply String.eqb_eq in H. now subst.
Qed.

Lemma svz_sym a b : sameValueZero a b = sameValueZero b a.
Proof.
  destruct a as [[| x | x | x | |]|], b as [[| y | y | y | |]|];
    simpl; auto.
  - now destruct x, y.
  - apply Z.eqb_sym.
  - apply String.eqb_sym.
Qed.

Lemma svz_left a b : sameValueZero a b = true -> sameValueZero a a = true.
Proof. intros H. pose proof (svz_eq _ _ H). now subst. Qed.

Lemma get_findEntry m k : get m k = option_map snd (findEntry m k).
Proof.
  induction m as [|[k' v] r IH]; simpl; [reflexivity|].
  destruct (sameValueZero k' k); auto.
Qed.

Lemma get_set m k v k' :
  get (set m k v) k' = if sameValueZero k k' then Some v else get m k'.
Proof.
  induction m as [|[k0 v0] r IH]; simpl; [reflexivity|].
  destruct (sameValueZero k0 k) eqn:E0; simpl.
  - apply svz_eq in E0. subst k0. now destruct (sameValueZero k k').
  - rewrite IH. destruct (sameValueZero k0 k') eqn:E1; [|reflexivity].
    destruct (sameValueZero k k') eqn:E2; [|reflexivity].
    pose proof (svz_eq _ _ E1). pose proof (svz_eq _ _ E2). subst.
    congruence.
Qed.

Lemma set_keys_absent m k v k0 :
  sameValueZero k0 k = false ->
  (forall e, In e m -> sameValueZero k0 (fst e) = false) ->
  forall e, In e (set m k v) -> sameValueZero k0 (fst e) = false.
Proof.
  intros Hk. induction m as [|[k1 v1] r IH]; simpl; intros Hm e He.
  - destruct He as [<-|[]]. exact Hk.
  - destruct (sameValueZero k1 k).
    + destruct He as [<-|He]; simpl.
      * apply (Hm (k1, v1)). now left.
      * apply Hm. now right.
    + destruct He as [<-|He]; simpl.
      * apply (Hm (k1, v1)). now left.
      * apply IH; auto.
Qed.

Lemma set_distinct m k v : distinctKeys m -> distinctKeys (set m k v).
Proof.
  induction m as [|[k0 v0] r IH]; simpl; intros D.
  - split; [intros e []|exact I].
  - destruct D as [D1 D2]. destruct (sameValueZero k0 k) eqn:E; simpl.
    + split; assumption.
    + split; [|auto]. now apply set_keys_absent.
Qed.

Lemma set_keyed m p : keyed m -> keyed (set m (idOf p) p).
Proof.
  unfold keyed. induction m as [|[k0 v0] r IH]; simpl; intros K.
  - constructor; auto.
  - destruct (sameValueZero k0 (idOf p)) eqn:E.
    + constructor; [|now apply Forall_inv_tail in K].
      simpl. now apply svz_eq.
    + constructor; [now apply Forall_inv in K|].
      apply IH. now apply Forall_inv_tail in K.
Qed.

Lemma fold_set_inv (P : t -> Prop) :
  (forall m p, P m -> P (set m (idOf p) p)) ->
  forall ps m, P m ->
    P (fold_left (fun m e => set m (fst e) (snd e))
         (map (fun p => (prop p "id", p)) ps) m).
Proof.
  intros step ps. induction ps as [|p r IH]; simpl; intros m Hm; auto.
  apply IH. now apply step.
Qed.

Lemma mapOfProjects_distinct ps : distinctKeys (mapOfProjects ps).
Proof.
  unfold mapOfProjects, ofEntries.
  apply (fold_set_inv distinctKeys); simpl; auto.
  intros. now apply set_distinct.
Qed.

Lemma mapOfProjects_keyed ps : keyed (mapOfProjects ps).
Proof.
  unfold mapOfProjects, ofEntries.
  apply (fold_set_inv keyed); [|constructor].
  intros. now apply set_keyed.
Qed.

Lemma find_snoc {A} (f : A -> bool) l x :
  find f (l ++ [x]) =
  match find f l with
  | Some y => Some y
  | None => if f x then Some x else None
  end.
Proof.
  induction l as [|a l IH]; simpl; [reflexivity|].
  destruct (f a); auto.
Qed.

Lemma get_fold ps : forall m k,
  get (fold_left (fun m e => set m (fst e) (snd e))
         (map (fun p => (prop p "id", p)) ps) m) k =
  match recordOf k ps with
  | Some p => Some p
  | None => get m k
  end.
Proof.
  unfold recordOf.
  induction ps as [|p r IH]; simpl; intros m k; [reflexivity|].
  rewrite IH, find_snoc, get_set.
  destruct (find _ (rev r)); [reflexivity|]. unfold idOf.
  now destruct (sameValueZero (prop p "id") k).
Qed.

(** A lookup in the map of a collection gives the record the collection
    holds under the key. *)
Lemma get_mapOfProjects ps k : get (mapOfProjects ps) k = recordOf k ps.
Proof.
  unfold mapOfProjects, ofEntries. rewrite get_fold.
  now destruct (recordOf k ps).
Qed.

Lemma recordOf_present k ps :
  present k ps = match recordOf k ps with Some _ => true | None => false end.
Proof.
  unfold present, recordOf.
  induction ps as [|p r IH]; simpl; [reflexivity|].
  rewrite find_snoc, IH.
  destruct (find _ (rev r)); [apply orb_true_r|].
  rewrite orb_false_r. now destruct (sameValueZero (idOf p) k).
Qed.

(** In a map with distinct keys, the entries that pass a test and are
    filed under [k] are the entry of [k], if it passes, and no other. *)
Lemma countId_filter m (P : jsval * record -> bool) k :
  distinctKeys m ->
  countId k (map fst (filter P m)) =
  match findEntry m k with
  | Some e => if P e then 1 else 0
  | None => 0
  end.
Proof.
  unfold countId, findEntry.
  induction m as [|[k0 v0] r IH]; simpl; intros D; [reflexivity|].
  destruct D as [D1 D2]. specialize (IH D2).
  destruct (sameValueZero k0 k) eqn:E.
  - assert (Z : List.length (filter (sameValueZero k)
                               (map fst (filter P r))) = 0).
    { rewrite IH.
      destruct (find (fun e => sameValueZero (fst e) k) r) as [e|] eqn:F;
        [|reflexivity].
      apply find_some in F as [Hin He].
      pose proof (D1 _ Hin) as X. rewrite (svz_eq _ _ He) in X.
      congruence. }
    destruct (P (k0, v0)); simpl; [|exact Z].
    rewrite svz_sym, E. simpl. now rewrite Z.
  - destruct (P (k0, v0)); simpl; [|exact IH].
    rewrite svz_sym, E. exact IH.
Qed.

End JsMapFacts.

Module PlanFacts.
Import JS JsMap JSONFacts JsMapAux JsMapFacts PlanAux.

Lemma option_string_eqb_eq a b : option_string_eqb a b = true <-> a = b.
Proof.
  destruct a, b; simpl; split; intros H; try discriminate; auto.
  - apply String.eqb_eq in H. now subst.
  - injection H as ->. apply String.eqb_refl.
Qed.

(** [deepEqual] decides equality of values, the order of the properties
    of an object included. *)
Lemma deepEqual_eq a b : deepEqual a b = true <-> a = b.
Proof.
  unfold deepEqual. rewrite option_string_eqb_eq. split.
  - apply stringify_inj.
  - now intros ->.
Qed.

Lemma deepEqual_refl a : deepEqual a a = true.
Proof. now apply deepEqual_eq. Qed.

Lemma deepEqual_records l p :
  deepEqual (Some (JObj l)) (Some (JObj p)) = true <-> l = p.
Proof.
  rewrite deepEqual_eq. split; [now intros [= ->]|now intros ->].
Qed.

Lemma findCreatesAndUpdates_filter prodMap entries : forall c u,
  findCreatesAndUpdates prodMap entries c u =
  (c ++ map snd (filter (isCreate prodMap) entries),
   u ++ map (pairOf prodMap) (filter (isUpdate prodMap) entries)).
Proof.
  induction entries as [|[k v] r IH]; intros c u.
  - simpl. now rewrite !app_nil_r.
  - assert (Ec : isCreate prodMap (k, v) =
                 match get prodMap k with None => true | Some _ => false end)
      by reflexivity.
    assert (Eu : isUpdate prodMap (k, v) =
                 match get prodMap k with
                 | Some p => negb (deepEqual (Some (JObj v)) (Some (JObj p)))
                 | None => false
                 end) by reflexivity.
    cbn [findCreatesAndUpdates filter]. rewrite Ec, Eu.
    destruct (get prodMap k) as [p|] eqn:G.
    + assert (Ep : pairOf prodMap (k, v) = {| local := v; prod := p |})
        by (unfold pairOf; simpl; now rewrite G).
      destruct (deepEqual _ _); cbn [negb]; rewrite IH; cbn [map].
      * reflexivity.
      * now rewrite Ep, <- app_assoc.
    + rewrite IH. cbn [map snd]. now rewrite <- app_assoc.
Qed.

Lemma findDeletes_filter localMap entries : forall d,
  findDeletes localMap entries d =
  d ++ map snd (filter (isDelete localMap) entries).
Proof.
  induction entries as [|[k v] r IH]; intros d.
  - simpl. now rewrite app_nil_r.
  - assert (Ed : isDelete localMap (k, v) = negb (has localMap k))
      by reflexivity.
    cbn [findDeletes filter]. rewrite Ed.
    destruct (has localMap k); cbn [negb]; rewrite IH; cbn [map snd].
    + reflexivity.
    + now rewrite <- app_assoc.
Qed.

Lemma toCreate_filter src tgt :
  toCreate (computePlan src tgt) =
  map snd (filter (isCreate (mapOfProjects (projects tgt)))
             (mapOfProjects (projects src))).
Proof.
  unfold computePlan. rewrite findCreatesAndUpdates_filter. reflexivity.
Qed.

Lemma toUpdate_filter src tgt :
  toUpdate (computePlan src tgt) =
  map (pairOf (mapOfProjects (projects tgt)))
    (filter (isUpdate (mapOfProjects (projects tgt)))
       (mapOfProjects (projects src))).
Proof.
  unfold computePlan. rewrite findCreatesAndUpdates_filter. reflexivity.
Qed.

Lemma toDelete_filter src tgt :
  toDelete (computePlan src tgt) =
  map snd (filter (isDelete (mapOfProjects (projects src)))
             (mapOfProjects (projects tgt))).
Proof.
  unfold computePlan. rewrite findCreatesAndUpdates_filter.
  rewrite findDeletes_filter. reflexivity.
Qed.

Lemma keyed_ids m (P : jsval * record -> bool) :
  keyed m -> map idOf (map snd (filter P m)) = map fst (filter P m).
Proof.
  unfold keyed. induction 1 as [|e r He _ IH]; simpl; [reflexivity|].
  destruct (P e); simpl; [|exact IH]. now rewrite IH, He.
Qed.

Lemma findEntry_key m k e : findEntry m k = Some e -> fst e = k.
Proof.
  unfold findEntry. intros F. apply find_some in F as [_ F].
  now apply svz_eq.
Qed.

(** The entry found under [k] in the map of a collection is [k] with the
    record of [k]. *)
Lemma findEntry_mapOfProjects ps k :
  findEntry (mapOfProjects ps) k =
  option_map (fun p => (k, p)) (recordOf k ps).
Proof.
  rewrite <- get_mapOfProjects, get_findEntry.
  destruct (findEntry (mapOfProjects ps) k) as [[k' v]|] eqn:F; simpl;
    [|reflexivity].
  apply findEntry_key in F. simpl in F. now subst.
Qed.



Lemma count_update src tgt k :
  countId k (updateIds (computePlan src tgt)) =
  match recordOf k (projects src), recordOf k (projects tgt) with
  | Some l, Some p =>
      if deepEqual (Some (JObj l)) (Some (JObj p)) then 0 else 1
  | _, _ => 0
  end.
Proof.
  unfold updateIds. rewrite toUpdate_filter, map_map.
  change (fun x => idOf (local (pairOf (mapOfProjects (projects tgt)) x)))
    with (fun x : jsval * record => idOf (snd x)).
  rewrite <- (map_map snd idOf), keyed_ids by apply mapOfProjects_keyed.
  rewrite countId_filter by apply mapOfProjects_distinct.
  rewrite findEntry_mapOfProjects.
  destruct (recordOf k (projects src)); simpl; [|reflexivity].
  unfold isUpdate. simpl. rewrite get_mapOfProjects.
  destruct (recordOf k (projects tgt)); [|reflexivity].
  now destruct (deepEqual _ _).
Qed.

Lemma listed_count k ids : listed k ids = negb (countId k ids =? 0)%nat.
Proof.
  unfold listed, countId. induction ids as [|a r IH]; simpl; [reflexivity|].
  destruct (sameValueZero k a); simpl; auto.
Qed.

End PlanFacts.

Module PlanFacts2.
Import JS JsMap JsMapAux JsMapFacts PlanAux PlanFacts.

Lemma filter_none {A} (P : A -> bool) l :
  (forall x, In x l -> P x = false) -> filter P l = [].
Proof.
  induction l as [|a r IH]; simpl; intros H; [reflexivity|].
  rewrite (H a) by now left. apply IH. intros x Hx. apply H. now right.
Qed.

Lemma get_own_entry m k v :
  distinctKeys m -> In (k, v) m -> sameValueZero k k = true ->
  get m k = Some v.
Proof.
  induction m as [|[k0 v0] r IH]; simpl; intros D Hin Hk; [easy|].
  destruct D as [D1 D2]. destruct Hin as [[= -> ->]|Hin].
  - now rewrite Hk.
  - pose proof (D1 _ Hin) as X. simpl in X. rewrite X. auto.
Qed.

Lemma fold_set_primitive ps : forall m,
  Forall (fun p => primitive (idOf p) = true) ps ->
  Forall (fun e => primitive (fst e) = true) m ->
  Forall (fun e => primitive (fst e) = true)
    (fold_left (fun m e => set m (fst e) (snd e))
       (map (fun p => (prop p "id", p)) ps) m).
Proof.
  induction ps as [|p r IH]; simpl; intros m Hps Hm; [exact Hm|].
  apply IH; [now apply Forall_inv_tail in Hps|].
  apply Forall_inv in Hps. clear IH.
  induction m as [|[k0 v0] m IHm]; simpl.
  - constructor; auto.
  - destruct (sameValueZero k0 (prop p "id")).
    + constructor; [now apply Forall_inv in Hm|now apply Forall_inv_tail in Hm].
    + constructor; [now apply Forall_inv in Hm|].
      apply IHm. now apply Forall_inv_tail in Hm.
Qed.

Lemma mapOfProjects_primitive ps :
  Forall (fun p => primitive (idOf p) = true) ps ->
  Forall (fun e => primitive (fst e) = true) (mapOfProjects ps).
Proof.
  intros H. unfold mapOfProjects, ofEntries.
  now apply fold_set_primitive.
Qed.

(** Reconciling a collection with itself: no creates, updates, deletes. *)
Lemma computePlan_self s :
  Forall (fun p => primitive (idOf p) = true) (projects s) ->
  computePlan s s = emptyPlan.
Proof.
  intros H.
  pose proof (mapOfProjects_primitive _ H) as Hp.
  pose proof (mapOfProjects_distinct (projects s)) as Hd.
  rewrite Forall_forall in Hp.
  assert (own : forall e, In e (mapOfProjects (projects s)) ->
                 get (mapOfProjects (projects s)) (fst e) = Some (snd e)).
  { intros [k v] He. apply get_own_entry; auto. apply (Hp _ He). }
  assert (C : toCreate (computePlan s s) = []).
  { rewrite toCreate_filter, filter_none; [reflexivity|].
    intros e He. unfold isCreate. now rewrite own. }
  assert (U : toUpdate (computePlan s s) = []).
  { rewrite toUpdate_filter, filter_none; [reflexivity|].
    intros e He. unfold isUpdate. rewrite own by assumption.
    now rewrite deepEqual_refl. }
  assert (D : toDelete (computePlan s s) = []).
  { rewrite toDelete_filter, filter_none; [reflexivity|].
    intros e He. unfold isDelete, has. now rewrite own. }
  assert (S : settingsChanged (computePlan s s) = false).
  { unfold computePlan.
    destruct (findCreatesAndUpdates _ _ _ _). simpl.
    now rewrite deepEqual_refl. }
  destruct (computePlan s s). simpl in *. subst. reflexivity.
Qed.

Lemma in_toUpdate src tgt l p :
  In {| local := l; prod := p |} (toUpdate (computePlan src tgt)) ->
  l <> p.
Proof.
  rewrite toUpdate_filter, in_map_iff. intros ([k v] & E & Hin).
  apply filter_In in Hin as [_ Hu]. unfold isUpdate in Hu.
  unfold pairOf in E. simpl in *.
  destruct (get _ k) as [p'|]; [|discriminate].
  injection E as -> ->. intros ->.
  now rewrite deepEqual_refl in Hu.
Qed.

Lemma toUpdate_in src tgt k l p :
  recordOf k (projects src) = Some l ->
  recordOf k (projects tgt) = Some p ->
  l <> p ->
  In {| local := l; prod := p |} (toUpdate (computePlan src tgt)).
Proof.
  intros Hl Hp Hne. rewrite toUpdate_filter, in_map_iff.
  exists (k, l).
  assert (G : get (mapOfProjects (projects tgt)) k = Some p)
    by now rewrite get_mapOfProjects.
  split.
  - unfold pairOf. simpl. now rewrite G.
  - apply filter_In. split.
    + pose proof (findEntry_mapOfProjects (projects src) k) as F.
      rewrite Hl in F. simpl in F. unfold findEntry in F.
      now apply find_some in F.
    + unfold isUpdate. simpl. rewrite G.
      destruct (deepEqual _ _) eqn:E; [|reflexivity].
      apply deepEqual_records in E. contradiction.
Qed.
End PlanFacts2.

(* ================================================================== *)
(** ** Runs of the two workflows *)

Section RunFacts.
Context {W : Type}.
Variable env : Env W.

Lemma requestsOf_app t1 t2 :
  requestsOf (t1 ++ t2) = requestsOf t1 ++ requestsOf t2.
Proof. unfold requestsOf. now rewrite flat_map_app. Qed.

Lemma mutationsOf_app t1 t2 :
  mutationsOf (t1 ++ t2) = mutationsOf t1 ++ mutationsOf t2.
Proof. unfold mutationsOf. now rewrite requestsOf_app, filter_app. Qed.

Lemma replies_app reqs1 : forall w reqs2,
  replies env w (reqs1 ++ reqs2) =
  (fst (replies env w reqs1)
     ++ fst (replies env (snd (replies env w reqs1)) reqs2),
   snd (replies env (snd (replies env w reqs1)) reqs2)).
Proof.
  induction reqs1 as [|r rest IH]; intros w reqs2; simpl.
  - now destruct (replies env w reqs2).
  - destruct (send env w r) as [o w1]. rewrite IH.
    destruct (replies env w1 rest) as [os w2]. simpl.
    reflexivity.
Qed.



Lemma successes_app a b : successes (a ++ b) = successes a + successes b.
Proof. unfold successes. now rewrite filter_app, length_app. Qed.

Lemma failures_app a b : failures (a ++ b) = failures a + failures b.
Proof. unfold failures. now rewrite filter_app, length_app. Qed.

(** One iteration: the call is made, one line is written, one of the two
    counters goes up, and nothing is thrown. *)
Lemma attempt_run readsError k r name s f sys :
  exists line,
    attempt env readsError k r name (s, f) sys =
    (Val (if succeeded (fst (send env (world sys) r))
          then (S s, f) else (s, S f)),
     {| world := snd (send env (world sys) r); stdin := stdin sys |},
     [EvRequest r; EvLog line]).
Proof.
  unfold attempt, tryCatch, bind, fetch, log, emit, ret.
  destruct (send env (world sys) r) as [[|readable|] w1]; simpl.
  - eauto.
  - destruct (readsError && negb readable); simpl; eauto.
  - eauto.
Qed.

(** A loop over projects makes every call of the batch, whatever the
    gateway answers, and counts each answer once. *)
Lemma batch_run {A} readsError k (mk : A -> request) (nm : A -> jsval) l :
  forall s f sys,
  exists t,
    forEach l (fun x => attempt env readsError k (mk x) (nm x)) (s, f) sys =
    (Val (s + successes (fst (replies env (world sys) (map mk l))),
          f + failures (fst (replies env (world sys) (map mk l)))),
     {| world := snd (replies env (world sys) (map mk l));
        stdin := stdin sys |},
     t)
    /\ requestsOf t = map mk l.
Proof.
  induction l as [|x r IH]; intros s f sys.
  - exists []. simpl. unfold ret. destruct sys. simpl.
    now rewrite !Nat.add_0_r.
  - cbn [forEach map replies]. unfold bind.
    destruct (attempt_run readsError k (mk x) (nm x) s f sys) as [line ->].
    destruct (send env (world sys) (mk x)) as [o w1]. cbn [fst snd].
    destruct (succeeded o) eqn:So.
    + destruct (IH (S s) f {| world := w1; stdin := stdin sys |})
        as (t & -> & Ht). cbn [world stdin].
      destruct (replies env w1 (map mk r)) as [os w2]. cbn [fst snd].
      eexists. split.
      * unfold successes, failures. cbn [filter]. rewrite So.
        cbn [negb List.length].
        rewrite Nat.add_succ_r. reflexivity.
      * cbn [app requestsOf flat_map]. fold (requestsOf t). now rewrite Ht.
    + destruct (IH s (S f) {| world := w1; stdin := stdin sys |})
        as (t & -> & Ht). cbn [world stdin].
      destruct (replies env w1 (map mk r)) as [os w2]. cbn [fst snd].
      eexists. split.
      * unfold successes, failures. cbn [filter]. rewrite So.
        cbn [negb List.length].
        rewrite Nat.add_succ_r. reflexivity.
      * cbn [app requestsOf flat_map]. fold (requestsOf t). now rewrite Ht.
Qed.

End RunFacts.

Section SummaryFacts.
Context {W : Type}.
Variable env : Env W.

Lemma deref_run v (sys : Sys W) :
  deref v sys =
  (match v with
   | Some j => if nullish v then Throw else Val j
   | None => Throw
   end, sys, []).
Proof. now destruct v as [[| | | | |]|]. Qed.

Lemma objectKeys_run v (sys : Sys W) :
  objectKeys v sys = (if nullish v then Throw else Val tt, sys, []).
Proof. now destruct v as [[| | | | |]|]. Qed.

Lemma wellFormed_not_nullish s :
  wellFormedSettings s ->
  exists fields colorMap,
    s = Some (JObj fields)
    /\ JS.member (JObj fields) "colorMap" = Some (JObj colorMap).
Proof. intros (f & c & -> & G). now exists f, c. Qed.

(** The summary makes no call and reads no answer; it ends normally or
    throws. *)
Lemma showSummary_run localData prodData plan (sys : Sys W) :
  exists r t,
    showSummary localData prodData plan sys = (r, sys, t)
    /\ requestsOf t = []
    /\ (r = Val tt \/ r = Throw)
    /\ (wellFormedSettings (settings localData) ->
        wellFormedSettings (settings prodData) -> r = Val tt).
Proof.
  unfold showSummary, bind, log, emit.
  destruct (settingsChanged plan);
    [|eexists _, _; repeat split; auto].
  rewrite deref_run.
  destruct (settings localData) as [jl|] eqn:EL;
    [destruct (nullish (Some jl)) eqn:NL|].
  2: { rewrite deref_run.
       destruct (settings prodData) as [jp|] eqn:EP;
         [destruct (nullish (Some jp)) eqn:NP|].
       2: { destruct (deepEqual _ _); cbn [negb].
            - unfold ret. eexists _, _; repeat split; auto.
            - rewrite objectKeys_run.
              destruct (nullish (JS.member jp "colorMap")) eqn:N1.
              + eexists _, _; repeat split; auto.
                intros _ H. apply wellFormed_not_nullish in H
                  as (f & c & [= ->] & G). now rewrite G in N1.
              + rewrite objectKeys_run.
                destruct (nullish (JS.member jl "colorMap")) eqn:N2.
                * eexists _, _; repeat split; auto.
                  intros H _. apply wellFormed_not_nullish in H
                    as (f & c & [= ->] & G). now rewrite G in N2.
                * eexists _, _; repeat split; auto. }
       - eexists _, _; repeat split; auto.
         intros _ (f & c & [= ->] & _). discriminate.
       - eexists _, _; repeat split; auto.
         intros _ (f & c & [=] & _). }
  - eexists _, _; repeat split; auto.
    intros (f & c & [= ->] & _). discriminate.
  - eexists _, _; repeat split; auto.
    intros (f & c & [=] & _).
Qed.


End SummaryFacts.

Section StepFacts.
Context {W : Type}.
Variable env : Env W.
Variable toLowerCase toUpperCase : string -> string.

Lemma confirmSync_run autoConfirm (sys : Sys W) :
  confirmSync toLowerCase autoConfirm sys =
  if autoConfirm then (Val true, sys, [])
  else match stdin sys with
       | [] => (Stall, sys, [EvAsk])
       | answer :: rest =>
           if affirmative toLowerCase answer
           then (Val true, {| world := world sys; stdin := rest |}, [EvAsk])
           else (Val false, {| world := world sys; stdin := rest |},
                 [EvAsk; EvLog MsgCancelled])
       end.
Proof.
  unfold confirmSync, affirmative, bind, askQuestion, log, emit, ret.
  destruct autoConfirm; simpl; [reflexivity|].
  destruct (stdin sys) as [|a rest]; [reflexivity|].
  destruct (String.eqb (toLowerCase a) "yes"),
           (String.eqb (toLowerCase a) "y"); reflexivity.
Qed.

Lemma confirmReplace_run autoConfirm (sys : Sys W) :
  confirmReplace toUpperCase autoConfirm sys =
  if autoConfirm then (Val true, sys, [])
  else match stdin sys with
       | [] => (Stall, sys, [EvAsk])
       | answer1 :: rest =>
           if negb (String.eqb answer1 "REPLACE")
           then (Val false, {| world := world sys; stdin := rest |},
                 [EvAsk; EvLog MsgCancelled])
           else match rest with
                | [] => (Stall, {| world := world sys; stdin := [] |},
                         [EvAsk; EvAsk])
                | answer2 :: rest' =>
                    if String.eqb (toUpperCase answer2) "YES"
                    then (Val true, {| world := world sys; stdin := rest' |},
                          [EvAsk; EvAsk])
                    else (Val false,
                          {| world := world sys; stdin := rest' |},
                          [EvAsk; EvAsk; EvLog MsgCancelled])
                end
       end.
Proof.
  unfold confirmReplace, bind, askQuestion, log, emit, ret.
  destruct autoConfirm; simpl; [reflexivity|].
  destruct (stdin sys) as [|a rest]; [reflexivity|].
  destruct (String.eqb a "REPLACE"); simpl; [|reflexivity].
  destruct rest as [|b rest']; [reflexivity|].
  destruct (String.eqb (toUpperCase b) "YES"); reflexivity.
Qed.


(** Carrying out a plan: every call of the plan is made, creates, updates,
    deletes in that order; nothing is thrown; the two counters add up to
    the number of calls. *)
Lemma executePlan_run plan (sys : Sys W) :
  let os := fst (replies env (world sys) (planRequests plan)) in
  exists t,
    executePlan env plan sys =
    (Val tt,
     {| world := snd (replies env (world sys) (planRequests plan));
        stdin := stdin sys |},
     t)
    /\ requestsOf t = planRequests plan
    /\ logged (MsgSyncComplete (successes os) (failures os)) t
    /\ (settingsChanged plan = true -> logged MsgSettingsNotImplemented t).
Proof.
  cbv zeta. unfold executePlan, planRequests.
  unfold bind at 1. unfold log at 1, emit at 1. unfold bind at 1.
  destruct (batch_run env true OpCreate createRequest
              (fun p => prop p "name") (toCreate plan) 0 0 sys)
    as (t1 & -> & R1).
  unfold bind at 1.
  match goal with
  | |- context [forEach (toUpdate plan) _ (?a, ?b) ?s] =>
      destruct (batch_run env true OpUpdate
                  (fun u => updateRequest (local u))
                  (fun u => prop (local u) "name") (toUpdate plan) a b s)
        as (t2 & -> & R2)
  end.
  unfold bind at 1.
  match goal with
  | |- context [forEach (toDelete plan) _ (?a, ?b) ?s] =>
      destruct (batch_run env true OpDelete deleteRequest
                  (fun p => prop p "name") (toDelete plan) a b s)
        as (t3 & -> & R3)
  end.
  cbn [world stdin fst snd].
  rewrite !replies_app. cbn [fst snd].
  rewrite !successes_app, !failures_app, !Nat.add_0_l, !Nat.add_assoc.
  unfold bind, log, emit, ret.
  destruct (settingsChanged plan); cbn [fst snd];
    eexists; (split; [reflexivity|]); (split; [|split]).
  - rewrite !requestsOf_app, R1, R2, R3. simpl. now rewrite app_nil_r.
  - unfold logged. rewrite !in_app_iff. simpl. tauto.
  - intros _. unfold logged. rewrite !in_app_iff. simpl. tauto.
  - rewrite !requestsOf_app, R1, R2, R3. simpl. now rewrite app_nil_r.
  - unfold logged. rewrite !in_app_iff. simpl. tauto.
  - discriminate.
Qed.

End StepFacts.

Section ConfirmedSyncRun.
Context {W : Type}.
Variable env : Env W.
Variable toLowerCase : string -> string.



End ConfirmedSyncRun.

Section AnySyncRun.
Context {W : Type}.
Variable env : Env W.
Variable toLowerCase : string -> string.

(** Two snapshots without difference: one line, no call but the fetch. *)
Lemma syncData_in_sync localData prodData w1 autoConfirm (sys : Sys W) :
  getData env (world sys) = (Some prodData, w1) ->
  planIsEmpty (computePlan localData prodData) = true ->
  syncData env toLowerCase (FileLoaded localData) autoConfirm sys =
  (Val tt, {| world := w1; stdin := stdin sys |},
   [EvRequest getDataRequest; EvLog MsgAlreadyInSync]).
Proof.
  intros G PE. unfold syncData, tryCatch, bind, fetchProductionData.
  rewrite G, PE. reflexivity.
Qed.

(** The calls of any run of [syncData]: none, the fetch alone, or the
    fetch and then the whole plan, the latter only when the run is not
    held back. *)
Lemma syncData_requests file autoConfirm (sys : Sys W) :
  let t := traceOf (syncData env toLowerCase file autoConfirm sys) in
  requestsOf t = []
  \/ requestsOf t = [getDataRequest]
  \/ exists localData prodData w1,
       file = FileLoaded localData
       /\ getData env (world sys) = (Some prodData, w1)
       /\ planIsEmpty (computePlan localData prodData) = false
       /\ syncConfirmed toLowerCase autoConfirm (stdin sys) = true
       /\ requestsOf t =
          getDataRequest :: planRequests (computePlan localData prodData).
Proof.
  cbv zeta. destruct file as [| |localData].
  - left. reflexivity.
  - left. reflexivity.
  - destruct (getData env (world sys)) as [[prodData|] w1] eqn:G.
    2: { right. left. unfold syncData, tryCatch, bind, fetchProductionData.
         rewrite G. reflexivity. }
    destruct (planIsEmpty (computePlan localData prodData)) eqn:PE.
    { right. left. now rewrite (syncData_in_sync _ _ _ _ _ G PE). }
    unfold syncData, tryCatch, bind, fetchProductionData, log, emit, exit, ret.
    rewrite G, PE.
    destruct (showSummary_run localData prodData
                (computePlan localData prodData)
                {| world := w1; stdin := stdin sys |})
      as (r & ts & -> & Rs & [-> | ->] & _).
    2: { right. left. unfold traceOf. cbn [fst snd].
         rewrite !requestsOf_app, Rs. reflexivity. }
    rewrite confirmSync_run. cbn [world stdin].
    unfold syncConfirmed.
    destruct autoConfirm; cbn [orb].
    + destruct (executePlan_run env (computePlan localData prodData)
                  {| world := w1; stdin := stdin sys |})
        as (tx & -> & Rx & _).
      right. right. exists localData, prodData, w1.
      repeat split; auto. unfold traceOf. cbn [fst snd].
      rewrite !requestsOf_app, Rs, Rx. reflexivity.
    + destruct (stdin sys) as [|a rest].
      { right. left. unfold traceOf. cbn [fst snd].
        rewrite !requestsOf_app, Rs. reflexivity. }
      destruct (affirmative toLowerCase a) eqn:Af.
      * destruct (executePlan_run env (computePlan localData prodData)
                    {| world := w1; stdin := rest |})
          as (tx & -> & Rx & _).
        right. right. exists localData, prodData, w1.
        repeat split; auto. unfold traceOf. cbn [fst snd].
        rewrite !requestsOf_app, Rs, Rx. reflexivity.
      * right. left. unfold traceOf. cbn [fst snd].
        rewrite !requestsOf_app, Rs. reflexivity.
Qed.

Lemma planRequests_mutations plan :
  filter isMutation (planRequests plan) = planRequests plan.
Proof.
  unfold planRequests. rewrite !filter_app.
  f_equal; [|f_equal];
    match goal with
    | |- filter _ (map _ ?l) = _ =>
        induction l as [|x r IH]; simpl; [reflexivity|now rewrite IH]
    end.
Qed.




(** The mutations of any run of [syncData]: none, or the whole plan. *)
Lemma syncData_mutations file autoConfirm (sys : Sys W) :
  let t := traceOf (syncData env toLowerCase file autoConfirm sys) in
  mutationsOf t = []
  \/ exists localData prodData w1,
       file = FileLoaded localData
       /\ getData env (world sys) = (Some prodData, w1)
       /\ syncConfirmed toLowerCase autoConfirm (stdin sys) = true
       /\ mutationsOf t = planRequests (computePlan localData prodData).
Proof.
  cbv zeta. unfold mutationsOf.
  destruct (syncData_requests file autoConfirm sys)
    as [-> | [-> | (l & p & w1 & -> & G & _ & C & ->)]].
  - now left.
  - now left.
  - right. exists l, p, w1. repeat split; auto.
    simpl. apply planRequests_mutations.
Qed.
End AnySyncRun.

Section ReplaceFacts.
Context {W : Type}.
Variable env : Env W.
Variable toUpperCase : string -> string.
Variable iso : string.


Lemma deleteAllProjects_run ps (sys : Sys W) :
  let os := fst (replies env (world sys) (map deleteRequest ps)) in
  exists t,
    deleteAllProjects env ps sys =
    (Val (successes os, failures os),
     {| world := snd (replies env (world sys) (map deleteRequest ps));
        stdin := stdin sys |}, t)
    /\ requestsOf t = map deleteRequest ps.
Proof.
  cbv zeta. unfold deleteAllProjects.
  destruct (batch_run env false OpDelete deleteRequest
              (fun p => prop p "name") ps 0 0 sys) as (t & E & R).
  exists t. split; [exact E|exact R].
Qed.

Lemma createProjects_run ps (sys : Sys W) :
  let os := fst (replies env (world sys) (map createRequest ps)) in
  exists t,
    createProjects env ps sys =
    (Val (successes os, failures os),
     {| world := snd (replies env (world sys) (map createRequest ps));
        stdin := stdin sys |}, t)
    /\ requestsOf t = map createRequest ps.
Proof.
  cbv zeta. unfold createProjects.
  destruct (batch_run env true OpCreate createRequest
              (fun p => prop p "name") ps 0 0 sys) as (t & E & R).
  exists t. split; [exact E|exact R].
Qed.

Lemma replace_fetch_fails localData w1 autoConfirm (sys : Sys W) :
  getData env (world sys) = (None, w1) ->
  replaceProduction env toUpperCase iso (FileLoaded localData) autoConfirm sys
  = (Exit 1, {| world := w1; stdin := stdin sys |},
     [EvRequest getDataRequest; EvLog (MsgReplaceFailed (BACKUP_FILE iso))]).
Proof.
  intros G. unfold replaceProduction, tryCatch, bind, fetchProductionData.
  rewrite G. reflexivity.
Qed.

Lemma replace_write_fails localData prodData w1 w2 autoConfirm (sys : Sys W) :
  getData env (world sys) = (Some prodData, w1) ->
  writeFile env w1 (BACKUP_FILE iso) prodData = (false, w2) ->
  replaceProduction env toUpperCase iso (FileLoaded localData) autoConfirm sys
  = (Exit 1, {| world := w2; stdin := stdin sys |},
     [EvRequest getDataRequest;
      EvWriteFile (BACKUP_FILE iso) prodData false;
      EvLog (MsgReplaceFailed (BACKUP_FILE iso))]).
Proof.
  intros G Wr.
  unfold replaceProduction, tryCatch, bind, fetchProductionData,
    writeFileSync.
  rewrite G. cbn [world stdin]. rewrite Wr. reflexivity.
Qed.


(** Any other run of [replaceProduction] makes no create, update or
    delete call. *)
Lemma replace_held_back file autoConfirm (sys : Sys W) :
  let t := traceOf (replaceProduction env toUpperCase iso file
                      autoConfirm sys) in
  (requestsOf t = [] \/ requestsOf t = [getDataRequest])
  \/ exists localData prodData w1 w2 w3,
       file = FileLoaded localData
       /\ getData env (world sys) = (Some prodData, w1)
       /\ writeFile env w1 (BACKUP_FILE iso) prodData = (true, w2)
       /\ statFile env w2 (BACKUP_FILE iso) = (true, w3)
       /\ replaceConfirmed toUpperCase autoConfirm (stdin sys) = true.
Proof.
  cbv zeta. destruct file as [| |localData].
  - left. left. reflexivity.
  - left. left. reflexivity.
  - destruct (getData env (world sys)) as [[prodData|] w1] eqn:G.
    2: { left. right. now rewrite (replace_fetch_fails _ _ _ _ G). }
    destruct (writeFile env w1 (BACKUP_FILE iso) prodData) as [[|] w2] eqn:Wr.
    2: { left. right. now rewrite (replace_write_fails _ _ _ _ _ _ G Wr). }
    destruct (statFile env w2 (BACKUP_FILE iso)) as [[|] w3] eqn:St.
    2: { left. right.
         unfold replaceProduction, tryCatch, bind, fetchProductionData,
           writeFileSync, statSync.
         rewrite G. cbn [world stdin]. rewrite Wr. cbn [world stdin].
         rewrite St. reflexivity. }
    destruct (replaceConfirmed toUpperCase autoConfirm (stdin sys)) eqn:C.
    { right. exists localData, prodData, w1, w2, w3. auto. }
    left. right.
    unfold replaceProduction, tryCatch, bind, fetchProductionData,
      writeFileSync, statSync, log, emit, exit, ret.
    rewrite G. cbn [world stdin]. rewrite Wr. cbn [world stdin].
    rewrite St. cbn [world stdin].
    rewrite confirmReplace_run. cbn [world stdin].
    unfold replaceConfirmed in C. destruct autoConfirm; [discriminate|].
    cbn [orb] in C.
    destruct (stdin sys) as [|a1 rest]; [reflexivity|].
    destruct (String.eqb a1 "REPLACE"); cbn [negb andb] in *;
      [|reflexivity].
    destruct rest as [|a2 rest']; [reflexivity|].
    rewrite C. reflexivity.
Qed.


End ReplaceFacts.

(* ================================================================== *)
(** ** The order of the properties of an object *)

Module OrderFacts.
Import JS OrderAux.

Lemma getField_app k a b :
  getField k (a ++ b)
  = match getField k a with Some v => Some v | None => getField k b end.
Proof.
  induction a as [|[k' v] a IH]; simpl; [reflexivity|].
  destruct (String.eqb k' k); [reflexivity|exact IH].
Qed.

Lemma getField_absent k o :
  ~ In k (map fst o) -> getField k o = None.
Proof.
  induction o as [|[k' v] o IH]; simpl; intros H; [reflexivity|].
  destruct (String.eqb k' k) eqn:E.
  - apply String.eqb_eq in E. tauto.
  - apply IH. tauto.
Qed.

Lemma arrayIndex_numeral k n :
  arrayIndex k = Some n -> k = string_of_list_ascii (JSON.numToString n).
Proof.
  unfold arrayIndex. destruct (NilZero.uint_of_string k); [|discriminate].
  destruct (_ && _) eqn:E; [|discriminate].
  intros [= <-]. apply andb_true_iff in E as [_ E].
  apply String.eqb_eq in E. now symmetry.
Qed.

Lemma arrayIndex_inj k1 k2 n :
  arrayIndex k1 = Some n -> arrayIndex k2 = Some n -> k1 = k2.
Proof.
  intros A B. apply arrayIndex_numeral in A, B. congruence.
Qed.

(** Keys that are no array indices stay in the order of their creation. *)
Lemma fold_setField_plain m : forall acc,
  Forall (fun kv => arrayIndex (fst kv) = None) m ->
  NoDup (map fst m) ->
  (forall k, In k (map fst m) -> ~ In k (map fst acc)) ->
  fold_left (fun o kv => setField o (fst kv) (snd kv)) m acc = acc ++ m.
Proof.
  induction m as [|[k v] m IH]; intros acc F N D; simpl.
  - now rewrite app_nil_r.
  - inversion F as [|? ? Fk Fm]; subst. inversion N as [|? ? Nk Nm]; subst.
    simpl in Fk. unfold setField at 2.
    rewrite (getField_absent k acc) by (apply D; now left).
    rewrite Fk. rewrite IH; auto.
    + now rewrite <- app_assoc.
    + intros k' Hk'. rewrite map_app, in_app_iff. simpl.
      intros [I | [<- | []]]; [|contradiction].
      apply (D k'); [now right|exact I].
Qed.

Lemma objectOf_plain m :
  Forall (fun kv => arrayIndex (fst kv) = None) m ->
  NoDup (map fst m) ->
  objectOf m = m.
Proof.
  intros F N. unfold objectOf. rewrite fold_setField_plain; auto.
Qed.

Lemma placeIndex_perm i k v o : Permutation ((k, v) :: o) (placeIndex i k v o).
Proof.
  induction o as [|[k' v'] o IH]; simpl; [reflexivity|].
  destruct (arrayIndex k') as [j|]; [|reflexivity].
  destruct (j <? i)%Z; [|reflexivity].
  rewrite perm_swap. now apply perm_skip.
Qed.

Lemma placeIndex_sorted i k v o :
  arrayIndex k = Some i ->
  indexed o ->
  StronglySorted byIndex o ->
  ~ In k (map fst o) ->
  StronglySorted byIndex (placeIndex i k v o).
Proof.
  intros Hk. induction o as [|[k' v'] o IH]; intros Ix So Nk; simpl.
  - repeat constructor.
  - inversion Ix as [|? ? Hk' Ix']; subst. simpl in Hk'.
    apply StronglySorted_inv in So as [So Lo].
    destruct (arrayIndex k') as [j|] eqn:Ej; [|contradiction].
    destruct (j <? i)%Z eqn:Lt.
    + constructor.
      * apply IH; auto. simpl in Nk. tauto.
      * apply (Permutation_Forall (placeIndex_perm i k v o)).
        constructor; [|exact Lo].
        unfold byIndex, indexOf. simpl. rewrite Ej, Hk.
        now apply Z.ltb_lt.
    + assert (i < j)%Z.
      { apply Z.ltb_ge in Lt.
        assert (i <> j).
        { intros ->. apply Nk. left. simpl.
          now apply (arrayIndex_inj _ _ j). }
        lia. }
      constructor; [now constructor|].
      constructor.
      * unfold byIndex, indexOf. simpl. now rewrite Ej, Hk.
      * eapply Forall_impl; [|exact Lo].
        intros a. unfold byIndex, indexOf. simpl. rewrite Ej, Hk. lia.
Qed.

Lemma fold_setField_indexed m : forall acc,
  indexed m ->
  NoDup (map fst m) ->
  (forall k, In k (map fst m) -> ~ In k (map fst acc)) ->
  indexed acc ->
  StronglySorted byIndex acc ->
  Permutation (acc ++ m)
    (fold_left (fun o kv => setField o (fst kv) (snd kv)) m acc)
  /\ StronglySorted byIndex
       (fold_left (fun o kv => setField o (fst kv) (snd kv)) m acc).
Proof.
  induction m as [|[k v] m IH]; intros acc Im N D Ia Sa; simpl.
  - now rewrite app_nil_r.
  - inversion Im as [|? ? Hk Im']; subst. inversion N as [|? ? Nk Nm]; subst.
    simpl in Hk. destruct (arrayIndex k) as [i|] eqn:Ei; [|contradiction].
    assert (Ak : ~ In k (map fst acc)) by (apply D; now left).
    assert (E : setField acc k v = placeIndex i k v acc).
    { unfold setField. now rewrite (getField_absent k acc Ak), Ei. }
    rewrite E.
    assert (P : Permutation ((k, v) :: acc) (placeIndex i k v acc))
      by apply placeIndex_perm.
    destruct (IH (placeIndex i k v acc)) as [Pm Sm]; auto.
    + intros k' Hk' I.
      apply (Permutation_in _ (Permutation_sym
               (Permutation_map fst P))) in I.
      destruct I as [<- | I]; [contradiction|].
      apply (D k'); [now right|exact I].
    + apply (Permutation_Forall P). constructor; [|exact Ia].
      simpl. now rewrite Ei.
    + now apply placeIndex_sorted.
    + split; [|exact Sm].
      rewrite <- Pm. rewrite <- P.
      rewrite <- Permutation_middle. reflexivity.
Qed.

Lemma sorted_perm_eq a : forall b,
  StronglySorted byIndex a -> StronglySorted byIndex b ->
  Permutation a b -> a = b.
Proof.
  induction a as [|x a IH]; intros b Sa Sb P.
  - apply Permutation_nil in P. now subst.
  - destruct b as [|y b].
    + apply Permutation_sym, Permutation_nil in P. discriminate.
    + apply StronglySorted_inv in Sa as [Sa La].
      apply StronglySorted_inv in Sb as [Sb Lb].
      assert (x = y).
      { assert (Ix : In x (y :: b))
          by (apply (Permutation_in _ P); now left).
        assert (Iy : In y (x :: a))
          by (apply (Permutation_in _ (Permutation_sym P)); now left).
        destruct Ix as [<- | Ix]; [reflexivity|].
        destruct Iy as [<- | Iy]; [reflexivity|].
        rewrite Forall_forall in La, Lb.
        specialize (La y Iy). specialize (Lb x Ix).
        unfold byIndex in *. lia. }
      subst y. f_equal. apply IH; auto.
      now apply Permutation_cons_inv in P.
Qed.

Lemma objectOf_indexed m1 m2 :
  indexed m1 ->
  NoDup (map fst m1) ->
  Permutation m1 m2 ->
  objectOf m1 = objectOf m2.
Proof.
  intros I1 N1 P.
  assert (I2 : indexed m2) by exact (Permutation_Forall P I1).
  assert (N2 : NoDup (map fst m2))
    by exact (Permutation_NoDup (Permutation_map fst P) N1).
  destruct (fold_setField_indexed m1 [] I1 N1) as [P1 S1];
    [intros ? _ [] | constructor | constructor |].
  destruct (fold_setField_indexed m2 [] I2 N2) as [P2 S2];
    [intros ? _ [] | constructor | constructor |].
  apply sorted_perm_eq; auto.
  unfold objectOf. rewrite <- P1, <- P2. exact P.
Qed.

End OrderFacts.

(* ================================================================== *)
(** ** The claims *)

Import JSONFacts JsMapAux PlanAux JsMapFacts PlanFacts PlanFacts2.




(** C2 as stated fails: with objects compared as mappings, the two records
    of the samples [sourceOrder] and [targetOrder] are structurally equal
    (they differ in the insertion order of the two stages only), and yet
    the pair is classified as an update. *)
Lemma update_iff_structurally_unequal_fails :
  ~ (forall (src tgt : Snapshot) (k : jsval) (l p : record),
       recordOf k (projects src) = Some l ->
       recordOf k (projects tgt) = Some p ->
       (listed k (updateIds (computePlan src tgt)) = true
        <-> structurallyEqual (JObj l) (JObj p) = false)).
Proof.
  intros H.
  specialize (H Samples.sourceOrder Samples.targetOrder (Some (JStr "2"))
                Samples.p2 Samples.p2swapped eq_refl eq_refl).
  destruct H as [H _].
  assert (L : listed (Some (JStr "2"))
                (updateIds (computePlan Samples.sourceOrder
                              Samples.targetOrder)) = true)
    by (vm_compute; reflexivity).
  apply H in L. vm_compute in L. discriminate.
Qed.

(** C2, amended.  For an identifier present on both sides, the pair is an
    update exactly when the two records differ as ordered structures, the
    order in which every nested object enumerates its keys included; this
    is the same as their serialisations by [JSON.stringify] being
    different.  So, of two records that differ only in the order in which
    the members of a nested mapping were inserted (distinct keys, the
    mapping standing anywhere in the record): when no key is an array
    index, the pair is an update as soon as the two orders differ; when
    every key is an array index, the two mappings enumerate alike and the
    pair is no update. *)
Theorem update_iff_serialisations_differ
    (src tgt : Snapshot) (k : jsval) (l p : record) :
  recordOf k (projects src) = Some l ->
  recordOf k (projects tgt) = Some p ->
  let isUpdate :=
    In {| local := l; prod := p |} (toUpdate (computePlan src tgt)) in
  (listed k (updateIds (computePlan src tgt)) = true <-> l <> p)
  /\ (isUpdate <-> l <> p)
  /\ (l <> p <->
      JSON.stringify (Some (JObj l)) <> JSON.stringify (Some (JObj p)))
  /\ (forall (within : json -> record) m1 m2,
        (forall x y, within x = within y -> x = y) ->
        l = within (JObj (JS.objectOf m1)) ->
        p = within (JObj (JS.objectOf m2)) ->
        Permutation m1 m2 ->
        NoDup (map fst m1) ->
        (Forall (fun kv => JS.arrayIndex (fst kv) = None) m1 ->
         (isUpdate <-> m1 <> m2))
        /\ (Forall (fun kv => JS.arrayIndex (fst kv) <> None) m1 ->
            ~ isUpdate)).
Proof.
  intros Hl Hp. cbv zeta.
  assert (U : In {| local := l; prod := p |}
                (toUpdate (computePlan src tgt)) <-> l <> p).
  { split; [apply in_toUpdate|]. now apply (toUpdate_in _ _ k). }
  split; [|split; [exact U|split]].
  - rewrite listed_count, count_update, Hl, Hp.
    destruct (deepEqual _ _) eqn:E; simpl.
    + apply deepEqual_records in E. split; [discriminate|congruence].
    + split; [|reflexivity]. intros _ ->.
      now rewrite deepEqual_refl in E.
  - split.
    + intros Hne E. apply stringify_inj in E. congruence.
    + intros Hne ->. now apply Hne.
  - intros within m1 m2 Inj -> -> P N. split.
    + intros F.
      assert (F2 : Forall (fun kv => JS.arrayIndex (fst kv) = None) m2)
        by exact (Permutation_Forall P F).
      assert (N2 : NoDup (map fst m2))
        by exact (Permutation_NoDup (Permutation_map fst P) N).
      rewrite U, !OrderFacts.objectOf_plain by assumption.
      split.
      * intros Hne ->. now apply Hne.
      * intros Hne E. apply Inj in E. congruence.
    + intros F. rewrite U.
      rewrite (OrderFacts.objectOf_indexed m1 m2 F N P). tauto.
Qed.

(** The stages of record 2 under the keys [concept] and [design], in the
    two orders, make an update; under the keys 1 and 2 they make none. *)
Lemma update_iff_serialisations_differ_witness :
  In {| local := Samples.p2; prod := Samples.p2swapped |}
     (toUpdate (computePlan Samples.sourceOrder Samples.targetOrder))
  /\ ~ In {| local := Samples.p2numbered; prod := Samples.p2renumbered |}
         (toUpdate
            (computePlan
               {| projects := [Samples.p2numbered]; settings := None |}
               {| projects := [Samples.p2renumbered]; settings := None |})).
Proof.
  pose proof (update_iff_serialisations_differ
                Samples.sourceOrder Samples.targetOrder
                (Some (JStr "2")) Samples.p2 Samples.p2swapped
                eq_refl eq_refl) as (_ & A & _).
  pose proof (update_iff_serialisations_differ
                {| projects := [Samples.p2numbered]; settings := None |}
                {| projects := [Samples.p2renumbered]; settings := None |}
                (Some (JStr "2")) Samples.p2numbered Samples.p2renumbered
                eq_refl eq_refl) as (_ & _ & _ & B).
  split.
  - apply A. discriminate.
  - apply (B (fun stages => firstn 13 Samples.p2numbered
                             ++ [("stages", stages); ("pauses", JArr [])])
             Samples.numbered (rev Samples.numbered)).
    + intros x y E. apply app_inv_head in E. congruence.
    + reflexivity.
    + reflexivity.
    + apply Permutation_rev.
    + repeat constructor; simpl; intuition discriminate.
    + repeat constructor; discriminate.
Defined.





(** C4 as stated fails: not every snapshot gives the empty plan against a
    copy of itself.  The record of [Samples.oddId] has an array for
    identifier; the [Map] compares arrays by reference and the two copies
    come out of two parses, so the record is both created and deleted. *)
Lemma no_op_idempotence_fails_on_array_id :
  ~ (forall s : Snapshot, computePlan s s = emptyPlan).
Proof.
  intros H. specialize (H Samples.oddId). vm_compute in H. discriminate.
Qed.

(** C4, amended (no-op idempotence).  Reconciling a snapshot, whose
    identifiers are primitive values, with itself gives the empty plan: no
    create, no update, no delete, [settingsChanged] false.  And whenever
    the plan is empty, [syncData] reports that the two sides are in sync
    and makes no call but the initial fetch: no create, update or delete
    call. *)
Theorem no_op_idempotence {W} (env : Env W) (toLowerCase : string -> string)
    (localData prodData : Snapshot) (w1 : W) (autoConfirm : bool)
    (sys : Sys W) :
  (Forall (fun p => primitive (idOf p) = true) (projects localData) ->
   computePlan localData localData = emptyPlan)
  /\ (getData env (world sys) = (Some prodData, w1) ->
      planIsEmpty (computePlan localData prodData) = true ->
      let run := syncData env toLowerCase (FileLoaded localData)
                   autoConfirm sys in
      resultOf run = Val tt
      /\ traceOf run = [EvRequest getDataRequest; EvLog MsgAlreadyInSync]
      /\ mutationsOf (traceOf run) = []).
Proof.
  split.
  - apply computePlan_self.
  - intros G PE. cbv zeta.
    rewrite (syncData_in_sync env toLowerCase _ _ _ autoConfirm _ G PE).
    repeat split.
Qed.

(** Scenario B: a snapshot against itself. *)
Lemma no_op_idempotence_witness :
  computePlan Samples.sourceA Samples.sourceA = emptyPlan
  /\ let run := syncData (Scripted.env (Some Samples.sourceA) true)
                  Scripted.toLowerCase (FileLoaded Samples.sourceA) false
                  (Scripted.start [] []) in
     resultOf run = Val tt
     /\ traceOf run = [EvRequest getDataRequest; EvLog MsgAlreadyInSync]
     /\ mutationsOf (traceOf run) = [].
Proof.
  pose proof (no_op_idempotence (Scripted.env (Some Samples.sourceA) true)
                Scripted.toLowerCase Samples.sourceA Samples.sourceA []
                false (Scripted.start [] [])) as [A B].
  split.
  - apply A. repeat constructor.
  - apply B; [reflexivity | vm_compute; reflexivity].
Defined.

(** C5 as stated fails: the second prompt of the replace workflow is not an
    exact match.  On Scenario C, it is not so that every input other than
    [REPLACE] followed by [YES] leaves production untouched: answering
    [REPLACE] and then [yes] lets the replacement run, every production
    record is deleted and every local record created. *)
Lemma replace_accepts_lowercase_yes :
  ~ (forall answers : list string,
       (forall rest, answers <> "REPLACE" :: "YES" :: rest) ->
       mutationsOf
         (traceOf (replaceProduction (Scripted.env (Some Samples.prodC) true)
                     Scripted.toUpperCase Samples.iso
                     (FileLoaded Samples.localC) false
                     (Scripted.start [] answers))) = []).
Proof.
  intros H. specialize (H ["REPLACE"; "yes"]).
  assert (E : mutationsOf
                (traceOf (replaceProduction
                            (Scripted.env (Some Samples.prodC) true)
                            Scripted.toUpperCase Samples.iso
                            (FileLoaded Samples.localC) false
                            (Scripted.start [] ["REPLACE"; "yes"])))
              = map deleteRequest (projects Samples.prodC)
                ++ map createRequest (projects Samples.localC))
    by (vm_compute; reflexivity).
  rewrite E in H. discriminate H. intros rest. discriminate.
Qed.

(** C5, amended (cancellation purity).  Without the flag, [syncData] makes no
    create, update or delete call unless the first answer, put in lower
    case, is [yes] or [y]; [replaceProduction] makes none unless the first
    answer is exactly [REPLACE] and the second, put in upper case, is
    [YES]. *)
Theorem cancellation_purity {W} (env : Env W)
    (toLowerCase toUpperCase : string -> string) (iso : string)
    (file : localFile) (sys : Sys W) :
  (syncConfirmed toLowerCase false (stdin sys) = false ->
   mutationsOf (traceOf (syncData env toLowerCase file false sys)) = [])
  /\ (replaceConfirmed toUpperCase false (stdin sys) = false ->
      mutationsOf (traceOf (replaceProduction env toUpperCase iso file
                              false sys)) = []).
Proof.
  split; intros C.
  - destruct (syncData_mutations env toLowerCase file false sys)
      as [E | (l & p & w1 & _ & _ & C' & _)]; [exact E|congruence].
  - destruct (replace_held_back env toUpperCase iso file false sys)
      as [[E | E] | (l & p & w1 & w2 & w3 & _ & _ & _ & _ & C')];
      [| |congruence]; unfold mutationsOf; now rewrite E.
Qed.

(** A plain no, and Scenario C: the first phrase mistyped. *)
Lemma cancellation_purity_witness :
  mutationsOf (traceOf (syncData (Scripted.env (Some Samples.targetA) true)
                          Scripted.toLowerCase (FileLoaded Samples.sourceA)
                          false (Scripted.start [] ["no"]))) = []
  /\ mutationsOf
       (traceOf (replaceProduction (Scripted.env (Some Samples.prodC) true)
                   Scripted.toUpperCase Samples.iso
                   (FileLoaded Samples.localC) false
                   (Scripted.start [] ["REPLACE "; "YES"]))) = [].
Proof.
  split.
  - apply (proj1 (cancellation_purity
                    (Scripted.env (Some Samples.targetA) true)
                    Scripted.toLowerCase Scripted.toUpperCase Samples.iso
                    (FileLoaded Samples.sourceA)
                    (Scripted.start [] ["no"]))).
    vm_compute. reflexivity.
  - apply (proj2 (cancellation_purity
                    (Scripted.env (Some Samples.prodC) true)
                    Scripted.toLowerCase Scripted.toUpperCase Samples.iso
                    (FileLoaded Samples.localC)
                    (Scripted.start [] ["REPLACE "; "YES"]))).
    vm_compute. reflexivity.
Defined.












(** C9 (delete answers success without a record).  The delete handler
    runs the DELETE whatever the table holds.  Whenever the statement does
    not fail, the handler answers success and the table is left without
    the rows of the identifier, the other rows in their order: when no row
    has the identifier the table is as it was, and the answer is the one
    that a deletion of a record that is there gets.  A statement that
    fails leaves the table as it was; it is answered with 500 in
    production and, [db.run] not being waited for, with success
    otherwise. *)
Theorem delete_succeeds_without_record
    (reads : Server.sqlType -> string -> bool) (isProduction : bool)
    (db : Server.database) (projectId : string) :
  let success := Server.json200 (JObj [("success", JBool true)]) in
  let deleted := Server.deleteProject reads isProduction db projectId in
  (Server.deleteWhereId reads db projectId <> None
   <-> Server.online db = true /\ reads Server.TEXT projectId = true)
  /\ (Server.deleteWhereId reads db projectId <> None ->
      fst deleted = success
      /\ Server.ok (fst deleted) = true
      /\ Server.deleteWhereId reads db projectId = Some (snd deleted)
      /\ Server.rows (snd deleted)
         = filter (fun r => negb (Server.hasId projectId r)) (Server.rows db)
      /\ (hasRow db projectId = false -> snd deleted = db)
      /\ (forall other otherId,
            Server.deleteWhereId reads other otherId <> None ->
            fst (Server.deleteProject reads isProduction other otherId)
            = fst deleted))
  /\ (Server.deleteWhereId reads db projectId = None ->
      deleted
      = (if isProduction then Server.json500 "Failed to delete project"
         else success, db)).
Proof.
  cbv zeta.
  assert (D : forall d i,
            Server.deleteWhereId reads d i
            = if Server.online d && reads Server.TEXT i
              then Some {| Server.online := Server.online d;
                           Server.rows :=
                             filter (fun r => negb (Server.hasId i r))
                                    (Server.rows d) |}
              else None).
  { intros d i. unfold Server.deleteWhereId.
    destruct (Server.online d), (reads Server.TEXT i); reflexivity. }
  split; [|split].
  - rewrite D.
    destruct (Server.online db), (reads Server.TEXT projectId); simpl;
      split; try discriminate; try tauto; intros [? ?]; discriminate.
  - intros Hd. unfold Server.deleteProject.
    destruct (Server.deleteWhereId reads db projectId) as [db'|] eqn:E;
      [|contradiction].
    assert (R : Server.rows db'
                = filter (fun r => negb (Server.hasId projectId r))
                         (Server.rows db)
                /\ Server.online db' = Server.online db).
    { rewrite D in E. destruct (_ && _); [|discriminate].
      injection E as <-. split; reflexivity. }
    destruct R as [R On].
    assert (F : forall other otherId,
              Server.deleteWhereId reads other otherId <> None ->
              fst (Server.deleteProject reads isProduction other otherId)
              = Server.json200 (JObj [("success", JBool true)])).
    { intros other otherId Ho. unfold Server.deleteProject.
      destruct (Server.deleteWhereId reads other otherId);
        [|contradiction]. now destruct isProduction. }
    assert (S : snd (if isProduction
                     then (Server.json200 (JObj [("success", JBool true)]),
                           db')
                     else (Server.json200 (JObj [("success", JBool true)]),
                           db')) = db') by now destruct isProduction.
    destruct isProduction; cbn [fst snd];
      (split; [reflexivity|]); (split; [reflexivity|]);
      (split; [reflexivity|]); (split; [exact R|]);
      (split; [|exact F]).
    all: intros Absent; destruct db as [o table], db' as [o' table'];
      simpl in *; subst o'; f_equal; rewrite R;
      clear - Absent; unfold hasRow in Absent; simpl in Absent;
      induction table as [|r table IH]; simpl in *; [reflexivity|];
      apply orb_false_iff in Absent as [A1 A2]; rewrite A1; simpl;
      f_equal; now apply IH.
  - intros E. unfold Server.deleteProject. rewrite E.
    now destruct isProduction.
Qed.

(** Record 1 deleted from the table that holds it, and an identifier that
    no row has deleted from the same table: the same answer, and the
    second table as it was. *)
Lemma delete_succeeds_without_record_witness :
  let success := Server.json200 (JObj [("success", JBool true)]) in
  Server.deleteProject Samples.reads true Samples.oneRowDb "1"
  = (success, Samples.emptyDb)
  /\ Server.deleteProject Samples.reads true Samples.oneRowDb "no-such-id"
     = (success, Samples.oneRowDb).
Proof.
  assert (Q : forall i,
            i = "1" \/ i = "no-such-id" ->
            Server.deleteWhereId Samples.reads Samples.oneRowDb i <> None).
  { intros i [-> | ->]; discriminate. }
  pose proof (delete_succeeds_without_record Samples.reads true
                Samples.oneRowDb "1") as (_ & A & _).
  pose proof (delete_succeeds_without_record Samples.reads true
                Samples.oneRowDb "no-such-id") as (_ & B & _).
  cbv zeta in *.
  destruct (A (Q _ (or_introl eq_refl))) as (A1 & _ & A2 & _).
  destruct (B (Q _ (or_intror eq_refl))) as (B1 & _ & _ & _ & B2 & _).
  split.
  - destruct (Server.deleteProject Samples.reads true Samples.oneRowDb "1")
      as [answer d].
    simpl in A1, A2. vm_compute in A2. injection A2 as <-.
    now subst answer.
  - specialize (B2 eq_refl).
    destruct (Server.deleteProject Samples.reads true Samples.oneRowDb
                "no-such-id") as [answer d].
    simpl in B1, B2. now subst.
Defined.

Lemma or_default v d : v = None -> JS.logicalOr v d = d.
Proof. now intros ->. Qed.

(** C10 (create is neither verbatim nor deterministic).  The row the create
    handler stores takes defaults for the attributes the submitted record
    lacks: the empty string, [null], the colour [#5a8a99], the empty
    collection [[]].  When [number] is missing (or falsy) the stored number
    is the random draw.  On the same record and the same table, two draws
    store different rows. *)
Theorem create_defaults_and_random_number
    (reads : Server.sqlType -> string -> bool) (isProduction : bool)
    (project : record) (random : Z) (db db' : Server.database) :
  let row := Server.buildProjectData project random in
  let absent k := prop project k = None in
  (absent "client" -> Server.client row = Some (JStr EmptyString))
  /\ (absent "value" -> Server.value row = Some (JStr EmptyString))
  /\ (absent "area" -> Server.area row = Some (JStr EmptyString))
  /\ (absent "location" -> Server.location row = Some (JStr EmptyString))
  /\ (absent "thumbnail" -> Server.thumbnail row = Some (JStr EmptyString))
  /\ (absent "notes" -> Server.notes row = Some (JStr EmptyString))
  /\ (absent "practiceName" -> Server.practiceName row = Some JNull)
  /\ (absent "briefDescription" -> Server.briefDescription row = Some JNull)
  /\ (absent "typeColor" -> Server.typeColor row = Some (JStr "#5a8a99"))
  /\ (absent "projectTypes" -> Server.projectTypes row = Some (JStr "[]"))
  /\ (absent "pauses" -> Server.pauses row = Some (JStr "[]"))
  /\ (JS.truthy (prop project "number") = false ->
      Server.number row = Some (JNum random))
  /\ (Server.insertProject reads db row = Some db' ->
      Server.postProject reads isProduction random db project
      = (Server.json200 (Server.successWithId (prop project "id")), db')
      /\ Server.rows db' = Server.rows db ++ [row])
  /\ (let stored r := snd (Server.postProject Samples.reads true r
                             Samples.emptyDb Samples.bare) in
      (0 <= 3 < 1000)%Z /\ (0 <= 4 < 1000)%Z /\ stored 3%Z <> stored 4%Z).
Proof.
  cbv zeta. unfold Server.buildProjectData. simpl.
  repeat (split; [intros H; now rewrite (or_default _ _ H)|]).
  split; [|split].
  - unfold JS.logicalOr. now intros ->.
  - intros I. unfold Server.postProject.
    split.
    + unfold Server.buildProjectData. simpl.
      unfold Server.buildProjectData in I. simpl in I. rewrite I.
      now destruct isProduction.
    + unfold Server.insertProject in I.
      destruct (negb (Server.online db)); [discriminate|].
      destruct (negb (Server.allBound reads _)); [discriminate|].
      destruct (_ || _); [discriminate|].
      destruct (Server.prepareValue _); [|discriminate].
      destruct (existsb _ _); [discriminate|].
      now injection I as <-.
  - split; [lia|]. split; [lia|]. vm_compute. discriminate.
Qed.

(** The bare record and the draw 7. *)
Lemma create_defaults_and_random_number_witness :
  let row := Server.buildProjectData Samples.bare 7 in
  (Server.client row = Some (JStr EmptyString)
   /\ Server.value row = Some (JStr EmptyString)
   /\ Server.area row = Some (JStr EmptyString)
   /\ Server.location row = Some (JStr EmptyString)
   /\ Server.thumbnail row = Some (JStr EmptyString)
   /\ Server.notes row = Some (JStr EmptyString))
  /\ (Server.practiceName row = Some JNull
      /\ Server.briefDescription row = Some JNull
      /\ Server.typeColor row = Some (JStr "#5a8a99")
      /\ Server.projectTypes row = Some (JStr "[]")
      /\ Server.pauses row = Some (JStr "[]"))
  /\ Server.number row = Some (JNum 7)
  /\ Server.rows (snd (Server.postProject Samples.reads true 7
                         Samples.emptyDb Samples.bare)) = [row].
Proof.
  pose proof (create_defaults_and_random_number Samples.reads true
                Samples.bare 7
                Samples.emptyDb
                {| Server.online := true;
                   Server.rows := [Server.buildProjectData Samples.bare 7] |})
    as (A1 & A2 & A3 & A4 & A5 & A6 & B1 & B2 & B3 & B4 & B5 & N & I & _).
  cbv zeta. split; [|split; [|split]].
  - exact (conj (A1 eq_refl) (conj (A2 eq_refl) (conj (A3 eq_refl)
             (conj (A4 eq_refl) (conj (A5 eq_refl) (A6 eq_refl)))))).
  - exact (conj (B1 eq_refl) (conj (B2 eq_refl) (conj (B3 eq_refl)
             (conj (B4 eq_refl) (B5 eq_refl))))).
  - apply N. reflexivity.
  - destruct I as [I _]; [reflexivity|]. rewrite I. reflexivity.
Defined.

(* ================================================================== *)
(** * Further properties *)

(* ================================================================== *)
(** ** The comparison and the change plan *)

Lemma deepEqual_sym a b : deepEqual a b = deepEqual b a.
Proof.
  destruct (deepEqual a b) eqn:E1, (deepEqual b a) eqn:E2; try reflexivity.
  - apply deepEqual_eq in E1. subst. now rewrite deepEqual_refl in E2.
  - apply deepEqual_eq in E2. subst. now rewrite deepEqual_refl in E1.
Qed.

Lemma deepEqual_false a b : deepEqual a b = false <-> a <> b.
Proof.
  split.
  - intros H ->. now rewrite deepEqual_refl in H.
  - intros Hne. destruct (deepEqual a b) eqn:E; [|reflexivity].
    apply deepEqual_eq in E. contradiction.
Qed.

Lemma settingsChanged_computePlan src tgt :
  settingsChanged (computePlan src tgt)
  = negb (deepEqual (settings src) (settings tgt)).
Proof.
  unfold computePlan. now destruct (findCreatesAndUpdates _ _ _ _).
Qed.

(** X1 (the comparison decides equality).  [deepEqual] answers true on two
    values, [undefined] included, exactly when they are the same value,
    the order of the properties of every object taken into account; so
    the plan reports changed settings exactly when the settings of the two
    snapshots are not the same value. *)
Theorem deepEqual_decides_equality (a b : jsval)
    (localData prodData : Snapshot) :
  (deepEqual a b = true <-> a = b)
  /\ (settingsChanged (computePlan localData prodData) = false
      <-> settings localData = settings prodData).
Proof.
  split; [apply deepEqual_eq|].
  rewrite settingsChanged_computePlan, negb_false_iff.
  apply deepEqual_eq.
Qed.

(** An entry filed under a key that a map compares by value is what the
    map returns for the key. *)
Lemma in_mapOfProjects k p ps :
  primitive k = true ->
  (In (k, p) (mapOfProjects ps) <-> recordOf k ps = Some p).
Proof.
  intros Hk. rewrite <- get_mapOfProjects. split.
  - intros Hin. apply get_own_entry; auto. apply mapOfProjects_distinct.
  - intros G. rewrite get_findEntry in G.
    destruct (findEntry (mapOfProjects ps) k) as [[k' v]|] eqn:F;
      [|discriminate].
    simpl in G. injection G as ->.
    pose proof (findEntry_key _ _ _ F) as K. simpl in K. subst k'.
    unfold findEntry in F. now apply find_some in F.
Qed.

(** The pairs of the plan are the pairs of unequal records that the two
    collections hold under one identifier. *)
Lemma toUpdate_records src tgt l p :
  In {| local := l; prod := p |} (toUpdate (computePlan src tgt))
  <-> exists k, recordOf k (projects src) = Some l
                /\ recordOf k (projects tgt) = Some p /\ l <> p.
Proof.
  split.
  - intros Hin. pose proof (in_toUpdate _ _ _ _ Hin) as Hne.
    rewrite toUpdate_filter, in_map_iff in Hin.
    destruct Hin as ([k v] & E & Hin).
    apply filter_In in Hin as [Hin Hu]. unfold isUpdate in Hu.
    unfold pairOf in E. simpl in *.
    destruct (JsMap.get (mapOfProjects (projects tgt)) k) as [p'|] eqn:G;
      [|discriminate].
    injection E as -> ->. exists k.
    assert (Hk : primitive k = true).
    { rewrite get_findEntry in G.
      destruct (findEntry (mapOfProjects (projects tgt)) k)
        as [[k' v']|] eqn:F; [|discriminate].
      pose proof (findEntry_key _ _ _ F) as K. simpl in K. subst k'.
      unfold findEntry in F. apply find_some in F as [_ F]. exact F. }
    split; [|split; [|exact Hne]].
    + now apply in_mapOfProjects.
    + now rewrite <- get_mapOfProjects.
  - intros (k & Hl & Hp & Hne). now apply (toUpdate_in src tgt k).
Qed.

Lemma isCreate_isDelete m e : isCreate m e = isDelete m e.
Proof.
  unfold isCreate, isDelete, JsMap.has. now destruct (JsMap.get m (fst e)).
Qed.

(** X2 (the plan of the swapped snapshots).  Exchanging the two snapshots
    exchanges creates and deletes, list for list, keeps the settings flag,
    and turns every update pair around. *)
Theorem plan_of_swapped_snapshots (a b : Snapshot) :
  toCreate (computePlan a b) = toDelete (computePlan b a)
  /\ toDelete (computePlan a b) = toCreate (computePlan b a)
  /\ settingsChanged (computePlan a b) = settingsChanged (computePlan b a)
  /\ (forall l p,
        In {| local := l; prod := p |} (toUpdate (computePlan a b))
        <-> In {| local := p; prod := l |} (toUpdate (computePlan b a))).
Proof.
  split; [|split; [|split]].
  - rewrite toCreate_filter, toDelete_filter. f_equal.
    apply filter_ext. intros e. apply isCreate_isDelete.
  - rewrite toCreate_filter, toDelete_filter. f_equal.
    apply filter_ext. intros e. symmetry. apply isCreate_isDelete.
  - rewrite !settingsChanged_computePlan. f_equal. apply deepEqual_sym.
  - intros l p. rewrite !toUpdate_records.
    split; intros (k & H1 & H2 & Hne); exists k; repeat split; auto.
Qed.

Lemma set_fresh m k v :
  (forall e, In e m -> JS.sameValueZero (fst e) k = false) ->
  JsMap.set m k v = m ++ [(k, v)].
Proof.
  induction m as [|[k0 v0] r IH]; simpl; intros H; [reflexivity|].
  pose proof (H (k0, v0) (or_introl eq_refl)) as X. simpl in X.
  rewrite X. f_equal. apply IH.
  intros e He. apply H. now right.
Qed.

Lemma present_false k ps :
  present k ps = false ->
  forall p, In p ps -> JS.sameValueZero (idOf p) k = false.
Proof.
  unfold present. intros H p Hp.
  destruct (JS.sameValueZero (idOf p) k) eqn:E; [|reflexivity].
  rewrite <- H. symmetry. apply existsb_exists. eauto.
Qed.

Lemma fold_set_distinctIds ps : forall m,
  distinctIds ps = true ->
  (forall e p, In e m -> In p ps ->
               JS.sameValueZero (fst e) (idOf p) = false) ->
  fold_left (fun m e => JsMap.set m (fst e) (snd e))
    (map (fun p => (prop p "id", p)) ps) m
  = m ++ map (fun p => (idOf p, p)) ps.
Proof.
  induction ps as [|p r IH]; intros m D Hm.
  - simpl. now rewrite app_nil_r.
  - simpl in D. apply andb_true_iff in D as [Dp Dr].
    apply negb_true_iff in Dp.
    cbn [map fold_left fst snd].
    rewrite set_fresh by (intros e He; apply Hm; [exact He|now left]).
    rewrite IH; [now rewrite <- app_assoc|exact Dr|].
    intros e q He Hq. apply in_app_iff in He as [He|[<-|[]]].
    + apply Hm; [exact He|now right].
    + simpl. rewrite svz_sym. now apply (present_false _ _ Dp).
Qed.

(** A collection without repeated identifier makes a map with one entry
    for each record, in the order of the collection. *)
Lemma mapOfProjects_distinctIds ps :
  distinctIds ps = true ->
  mapOfProjects ps = map (fun p => (idOf p, p)) ps.
Proof.
  intros D. unfold mapOfProjects, JsMap.ofEntries.
  now rewrite fold_set_distinctIds.
Qed.

Lemma filter_entries (P : jsval * record -> bool) ps :
  map snd (filter P (map (fun p => (idOf p, p)) ps))
  = filter (fun p => P (idOf p, p)) ps.
Proof.
  induction ps as [|p r IH]; simpl; [reflexivity|].
  destruct (P (idOf p, p)); simpl; now rewrite IH.
Qed.

Lemma isCreate_present ps k p :
  isCreate (mapOfProjects ps) (k, p) = negb (present k ps).
Proof.
  unfold isCreate. simpl. rewrite get_mapOfProjects, recordOf_present.
  now destruct (recordOf k ps).
Qed.

Lemma toCreate_distinct src tgt :
  distinctIds (projects src) = true ->
  toCreate (computePlan src tgt)
  = filter (fun p => negb (present (idOf p) (projects tgt))) (projects src).
Proof.
  intros D. rewrite toCreate_filter, (mapOfProjects_distinctIds _ D).
  rewrite filter_entries. apply filter_ext. intros p.
  apply isCreate_present.
Qed.

Lemma toDelete_distinct src tgt :
  distinctIds (projects tgt) = true ->
  toDelete (computePlan src tgt)
  = filter (fun p => negb (present (idOf p) (projects src))) (projects tgt).
Proof.
  intros D. rewrite toDelete_filter, (mapOfProjects_distinctIds _ D).
  rewrite filter_entries. apply filter_ext. intros p.
  rewrite <- isCreate_isDelete. apply isCreate_present.
Qed.

Lemma toUpdate_distinct src tgt :
  distinctIds (projects src) = true ->
  map local (toUpdate (computePlan src tgt))
  = filter (differsIn (projects tgt)) (projects src).
Proof.
  intros D. rewrite toUpdate_filter, (mapOfProjects_distinctIds _ D).
  rewrite map_map.
  change (fun x => local (pairOf (mapOfProjects (projects tgt)) x))
    with (fun x : jsval * record => snd x).
  rewrite filter_entries. apply filter_ext. intros p.
  unfold isUpdate, differsIn. simpl. now rewrite get_mapOfProjects.
Qed.

(** X3 (the plan keeps the order of the snapshots).  When no identifier
    is repeated within a snapshot, the creates are the local records whose
    identifier production does not have, the updates the local records
    that production holds in another state, the deletes the production
    records whose identifier the local snapshot does not have, each list in
    the order of the snapshot it is taken from. *)
Theorem plan_keeps_snapshot_order (src tgt : Snapshot) :
  distinctIds (projects src) = true ->
  distinctIds (projects tgt) = true ->
  let plan := computePlan src tgt in
  toCreate plan
  = filter (fun p => negb (present (idOf p) (projects tgt))) (projects src)
  /\ map local (toUpdate plan)
     = filter (differsIn (projects tgt)) (projects src)
  /\ toDelete plan
     = filter (fun p => negb (present (idOf p) (projects src))) (projects tgt).
Proof.
  intros Ds Dt. cbv zeta. split; [|split].
  - now apply toCreate_distinct.
  - now apply toUpdate_distinct.
  - now apply toDelete_distinct.
Qed.

(** Scenario A. *)
Lemma plan_keeps_snapshot_order_witness :
  let plan := computePlan Samples.sourceA Samples.targetA in
  toCreate plan = [Samples.p1]
  /\ map local (toUpdate plan) = [Samples.p2]
  /\ toDelete plan = [Samples.p4].
Proof.
  apply (plan_keeps_snapshot_order Samples.sourceA Samples.targetA);
    reflexivity.
Defined.





(** In a map, an entry under a key that is compared by reference stays
    where it was put. *)
Lemma in_set_reference m k v k' v' :
  primitive k = false ->
  (In (k, v) (JsMap.set m k' v') <-> In (k, v) m \/ (k, v) = (k', v')).
Proof.
  intros Hk. induction m as [|[k0 v0] r IH]; simpl.
  - split; [intros [E|[]]; right; now symmetry|intros [[]|E]; left;
            now symmetry].
  - destruct (JS.sameValueZero k0 k') eqn:E0; simpl.
    + pose proof (svz_eq _ _ E0) as K. subst k'.
      assert (P0 : primitive k0 = true) by exact (svz_left _ _ E0).
      split.
      * intros [E|Hin]; [|tauto].
        injection E as -> _. congruence.
      * intros [[E|Hin]|E]; [| tauto |].
        -- injection E as -> _. congruence.
        -- injection E as -> _. congruence.
    + rewrite IH. tauto.
Qed.

Lemma in_fold_reference k v ps : forall m,
  primitive k = false ->
  (In (k, v) (fold_left (fun m e => JsMap.set m (fst e) (snd e))
                (map (fun p => (prop p "id", p)) ps) m)
   <-> In (k, v) m \/ (In v ps /\ idOf v = k)).
Proof.
  induction ps as [|p r IH]; intros m Hk; simpl.
  - tauto.
  - rewrite IH by exact Hk. rewrite in_set_reference by exact Hk.
    split.
    + intros [[H|E]|[H1 H2]]; auto.
      injection E as -> ->. right. split; [now left|reflexivity].
    + intros [H|[[->|H1] H2]]; auto.
      left. right. subst k. reflexivity.
Qed.

Lemma get_reference m k : primitive k = false -> JsMap.get m k = None.
Proof.
  intros Hk. induction m as [|[k0 v0] r IH]; simpl; [reflexivity|].
  destruct (JS.sameValueZero k0 k) eqn:E; [|exact IH].
  pose proof (svz_eq _ _ E). subst.
  pose proof (svz_left _ _ E). unfold primitive in Hk. congruence.
Qed.

(** A record is created when the local map files it under its identifier
    and the production map has nothing there; it is deleted in the mirrored
    case. *)
Lemma toCreate_member src tgt p :
  In p (toCreate (computePlan src tgt))
  <-> In (idOf p, p) (mapOfProjects (projects src))
      /\ JsMap.get (mapOfProjects (projects tgt)) (idOf p) = None.
Proof.
  rewrite toCreate_filter, in_map_iff. split.
  - intros ([k v] & E & Hin). simpl in E. subst v.
    apply filter_In in Hin as [Hin Hc].
    pose proof (mapOfProjects_keyed (projects src)) as K.
    unfold keyed in K. rewrite Forall_forall in K.
    pose proof (K _ Hin) as Kk. simpl in Kk. subst k.
    split; [exact Hin|]. unfold isCreate in Hc. simpl in Hc.
    now destruct (JsMap.get _ (idOf p)).
  - intros [Hin G]. exists (idOf p, p). split; [reflexivity|].
    apply filter_In. split; [exact Hin|].
    unfold isCreate. simpl. now rewrite G.
Qed.

Lemma toDelete_toCreate src tgt :
  toDelete (computePlan src tgt) = toCreate (computePlan tgt src).
Proof.
  rewrite toCreate_filter, toDelete_filter. f_equal.
  apply filter_ext. intros e. symmetry. apply isCreate_isDelete.
Qed.

Lemma entry_reference p ps :
  primitive (idOf p) = false ->
  (In (idOf p, p) (mapOfProjects ps) <-> In p ps).
Proof.
  intros Hp. unfold mapOfProjects, JsMap.ofEntries.
  rewrite in_fold_reference by exact Hp. simpl. tauto.
Qed.

(** Membership in the creates, by the kind of the identifier. *)
Lemma toCreate_value src tgt p :
  primitive (idOf p) = true ->
  (In p (toCreate (computePlan src tgt))
   <-> recordOf (idOf p) (projects src) = Some p
       /\ recordOf (idOf p) (projects tgt) = None).
Proof.
  intros Hp. rewrite toCreate_member, in_mapOfProjects by exact Hp.
  now rewrite get_mapOfProjects.
Qed.

Lemma toCreate_reference src tgt p :
  primitive (idOf p) = false ->
  (In p (toCreate (computePlan src tgt)) <-> In p (projects src)).
Proof.
  intros Hp. rewrite toCreate_member, entry_reference by exact Hp.
  rewrite get_reference by exact Hp. tauto.
Qed.

(** X5 (what the plan carries).  A record is created exactly when it is the
    record the local snapshot holds under its identifier (the last one,
    when several carry it) and production holds none under it; it is
    deleted exactly when it is the record production holds and the local
    snapshot holds none; a pair is updated exactly when its two records
    are what the two snapshots hold under one identifier and they differ.
    A record whose identifier is an object or an array is never matched:
    every such local record is created, every such production record
    deleted. *)
Theorem plan_carries_the_held_records (src tgt : Snapshot) (p : record) :
  let plan := computePlan src tgt in
  (primitive (idOf p) = true ->
   (In p (toCreate plan)
    <-> recordOf (idOf p) (projects src) = Some p
        /\ recordOf (idOf p) (projects tgt) = None)
   /\ (In p (toDelete plan)
       <-> recordOf (idOf p) (projects tgt) = Some p
           /\ recordOf (idOf p) (projects src) = None))
  /\ (forall l q,
        In {| local := l; prod := q |} (toUpdate plan)
        <-> exists k, recordOf k (projects src) = Some l
                      /\ recordOf k (projects tgt) = Some q /\ l <> q)
  /\ (primitive (idOf p) = false ->
      (In p (toCreate plan) <-> In p (projects src))
      /\ (In p (toDelete plan) <-> In p (projects tgt))).
Proof.
  cbv zeta. rewrite toDelete_toCreate. split; [|split].
  - intros Hp. split; now apply toCreate_value.
  - intros l q. apply toUpdate_records.
  - intros Hp. split; now apply toCreate_reference.
Qed.

(** Scenario A: the record 1, and a record whose identifier is an array. *)
Lemma plan_carries_the_held_records_witness :
  let odd : record := [("id", JArr []); ("name", JStr "Odd")] in
  let src := {| projects := [Samples.p1; odd]; settings := None |} in
  let tgt := {| projects := [odd]; settings := None |} in
  (In Samples.p1
      (toCreate (computePlan Samples.sourceA Samples.targetA))
   <-> recordOf (idOf Samples.p1) (projects Samples.sourceA)
       = Some Samples.p1
       /\ recordOf (idOf Samples.p1) (projects Samples.targetA) = None)
  /\ (In odd (toCreate (computePlan src tgt)) <-> In odd (projects src))
  /\ (In odd (toDelete (computePlan src tgt)) <-> In odd (projects tgt)).
Proof.
  pose proof (plan_carries_the_held_records Samples.sourceA Samples.targetA
                Samples.p1) as (A & _ & _).
  pose proof (plan_carries_the_held_records
                {| projects := [Samples.p1; [("id", JArr []);
                                             ("name", JStr "Odd")]];
                   settings := None |}
                {| projects := [[("id", JArr []); ("name", JStr "Odd")]];
                   settings := None |}
                [("id", JArr []); ("name", JStr "Odd")]) as (_ & _ & B).
  cbv zeta. split; [|split].
  - exact (proj1 (A eq_refl)).
  - exact (proj1 (B eq_refl)).
  - exact (proj2 (B eq_refl)).
Defined.

Lemma recordOf_held k ps r :
  recordOf k ps = Some r -> primitive k = true /\ In r ps /\ idOf r = k.
Proof.
  unfold recordOf. intros F. apply find_some in F as [Hin E].
  pose proof (svz_eq _ _ E) as K. subst k. split; [|split; auto].
  - unfold primitive. exact E.
  - now apply in_rev.
Qed.

Lemma no_member {A} (l : list A) : (forall x, ~ In x l) -> l = [].
Proof.
  destruct l as [|a r]; [reflexivity|]. intros H.
  now contradiction (H a (or_introl eq_refl)).
Qed.

Lemma planIsEmpty_lists plan :
  planIsEmpty plan = true
  <-> toCreate plan = [] /\ toUpdate plan = [] /\ toDelete plan = []
      /\ settingsChanged plan = false.
Proof.
  unfold planIsEmpty. rewrite !andb_true_iff, negb_true_iff.
  rewrite !Nat.eqb_eq, !length_zero_iff_nil. tauto.
Qed.

(** X6 (when the snapshots are reported to be in sync).  The plan is
    empty, so that the script reports that nothing is to be done, exactly
    when the two snapshots have the same settings, hold the same record
    under every identifier, in whatever order their projects are listed,
    and no project has an object or an array for identifier. *)
Theorem in_sync_exactly_when_equivalent (localData prodData : Snapshot) :
  planIsEmpty (computePlan localData prodData) = true
  <-> settings localData = settings prodData
      /\ (forall k, recordOf k (projects localData)
                    = recordOf k (projects prodData))
      /\ (forall p, In p (projects localData ++ projects prodData) ->
                    primitive (idOf p) = true).
Proof.
  rewrite planIsEmpty_lists, settingsChanged_computePlan, negb_false_iff.
  rewrite deepEqual_eq, toDelete_toCreate. split.
  - intros (C & U & D & S). split; [exact S|]. split.
    + intros k.
      destruct (recordOf k (projects localData)) as [a|] eqn:Ra;
        destruct (recordOf k (projects prodData)) as [b|] eqn:Rb;
        try reflexivity.
      * destruct (deepEqual (Some (JObj a)) (Some (JObj b))) eqn:E.
        -- apply deepEqual_records in E. now subst.
        -- exfalso. apply deepEqual_false in E.
           assert (Hin : In {| local := a; prod := b |}
                           (toUpdate (computePlan localData prodData))).
           { apply toUpdate_records. exists k. repeat split; auto.
             intros ->. now apply E. }
           now rewrite U in Hin.
      * exfalso. destruct (recordOf_held _ _ _ Ra) as (Pk & _ & <-).
        assert (Hin : In a (toCreate (computePlan localData prodData)))
          by now apply toCreate_value.
        now rewrite C in Hin.
      * exfalso. destruct (recordOf_held _ _ _ Rb) as (Pk & _ & <-).
        assert (Hin : In b (toCreate (computePlan prodData localData)))
          by now apply toCreate_value.
        now rewrite D in Hin.
    + intros p Hin.
      destruct (primitive (idOf p)) eqn:Pp; [reflexivity|exfalso].
      apply in_app_iff in Hin as [Hin|Hin].
      * apply (toCreate_reference localData prodData p Pp) in Hin.
        now rewrite C in Hin.
      * apply (toCreate_reference prodData localData p Pp) in Hin.
        now rewrite D in Hin.
  - intros (S & R & P). split; [|split; [|split; [|exact S]]].
    + apply no_member. intros p Hin.
      destruct (primitive (idOf p)) eqn:Pp.
      * apply (toCreate_value localData prodData p Pp) in Hin as [H1 H2].
        rewrite R in H1. congruence.
      * apply (toCreate_reference localData prodData p Pp) in Hin.
        rewrite P in Pp; [discriminate|]. apply in_app_iff. now left.
    + apply no_member. intros [a b] Hin.
      apply toUpdate_records in Hin as (k & H1 & H2 & Hne).
      rewrite R in H1. congruence.
    + apply no_member. intros p Hin.
      destruct (primitive (idOf p)) eqn:Pp.
      * apply (toCreate_value prodData localData p Pp) in Hin as [H1 H2].
        rewrite R in H2. congruence.
      * apply (toCreate_reference prodData localData p Pp) in Hin.
        rewrite P in Pp; [discriminate|]. apply in_app_iff. now right.
Qed.

(* ================================================================== *)
(** ** The detail of an update in the summary *)

Lemma changedFields_in local prod k :
  In k (changedFields local prod)
  <-> (k = "number"
       /\ JS.strictEquals (prop local "number") (prop prod "number") = false)
      \/ (k = "name"
          /\ JS.strictEquals (prop local "name") (prop prod "name") = false)
      \/ (k = "client"
          /\ JS.strictEquals (prop local "client") (prop prod "client")
             = false)
      \/ (k = "stages"
          /\ deepEqual (prop local "stages") (prop prod "stages") = false)
      \/ (k = "projectTypes"
          /\ deepEqual (prop local "projectTypes") (prop prod "projectTypes")
             = false).
Proof.
  unfold changedFields.
  destruct (JS.strictEquals (prop local "number") (prop prod "number")),
           (JS.strictEquals (prop local "name") (prop prod "name")),
           (JS.strictEquals (prop local "client") (prop prod "client")),
           (deepEqual (prop local "stages") (prop prod "stages")),
           (deepEqual (prop local "projectTypes") (prop prod "projectTypes"));
    simpl; intuition (subst; congruence).
Qed.

Lemma strictEquals_false a b :
  primitive a = true -> (JS.strictEquals a b = false <-> a <> b).
Proof.
  unfold JS.strictEquals, primitive. intros Ha. split.
  - intros H ->. congruence.
  - intros Hne. destruct (JS.sameValueZero a b) eqn:E; [|reflexivity].
    apply svz_eq in E. contradiction.
Qed.

Lemma strictEquals_reference a b :
  primitive a = false -> JS.strictEquals a b = false.
Proof.
  unfold JS.strictEquals, primitive. intros Ha.
  destruct (JS.sameValueZero a b) eqn:E; [|reflexivity].
  apply svz_left in E. congruence.
Qed.

(** X7 (the attributes the summary names under an update).  The list
    holds names among number, name, client, stages and projectTypes only.
    It holds [stages], and likewise [projectTypes], exactly when the two
    records differ there; it holds one of the other three exactly when
    the two records differ there, provided the local value is not an
    object or an array, and in any case when it is one.  Two records that
    agree on the five attributes, the first three not being objects or
    arrays, get no list and no line, whatever else tells them apart. *)
Theorem changed_fields_named (local prod : record) (k : string) :
  let changes := changedFields local prod in
  let scalar := ["number"; "name"; "client"] in
  let nested := ["stages"; "projectTypes"] in
  (In k changes -> In k (scalar ++ nested))
  /\ (In k nested -> (In k changes <-> prop local k <> prop prod k))
  /\ (In k scalar -> primitive (prop local k) = true ->
      (In k changes <-> prop local k <> prop prod k))
  /\ (In k scalar -> primitive (prop local k) = false -> In k changes)
  /\ ((forall a, In a scalar -> primitive (prop local a) = true) ->
      (forall a, In a (scalar ++ nested) -> prop local a = prop prod a) ->
      changes = [] /\ changesLine local prod = None).
Proof.
  cbv zeta. split; [|split; [|split; [|split]]].
  - rewrite changedFields_in. simpl. intuition.
  - intros Hk. rewrite changedFields_in.
    destruct Hk as [<-|[<-|[]]]; rewrite <- deepEqual_false;
      intuition discriminate.
  - intros Hk Hp. rewrite changedFields_in.
    destruct Hk as [<-|[<-|[<-|[]]]];
      rewrite <- (strictEquals_false _ _ Hp); intuition discriminate.
  - intros Hk Hp. rewrite changedFields_in.
    destruct Hk as [<-|[<-|[<-|[]]]];
      match type of Hp with
      | primitive (prop local ?a) = false =>
          pose proof (strictEquals_reference _ (prop prod a) Hp)
      end; tauto.
  - intros Hp Heq.
    assert (E : changedFields local prod = []).
    { destruct (changedFields local prod) as [|a r] eqn:C; [reflexivity|].
      exfalso.
      assert (Hin : In a (changedFields local prod))
        by (rewrite C; now left).
      apply changedFields_in in Hin.
      destruct Hin as [[-> H]|[[-> H]|[[-> H]|[[-> H]|[-> H]]]]].
      + apply strictEquals_false in H; [|apply Hp; simpl; tauto].
        apply H, Heq. simpl. tauto.
      + apply strictEquals_false in H; [|apply Hp; simpl; tauto].
        apply H, Heq. simpl. tauto.
      + apply strictEquals_false in H; [|apply Hp; simpl; tauto].
        apply H, Heq. simpl. tauto.
      + apply deepEqual_false in H. apply H, Heq. simpl. tauto.
      + apply deepEqual_false in H. apply H, Heq. simpl. tauto. }
    split; [exact E|]. unfold changesLine. now rewrite E.
Qed.

(** The renamed record of Scenario A, and a record that only moved. *)
Lemma changed_fields_named_witness :
  (In "name" (changedFields Samples.p2 Samples.p2')
   <-> prop Samples.p2 "name" <> prop Samples.p2' "name")
  /\ (changedFields Samples.p3moved Samples.p3 = []
      /\ changesLine Samples.p3moved Samples.p3 = None).
Proof.
  pose proof (changed_fields_named Samples.p2 Samples.p2' "name")
    as (_ & _ & A & _).
  pose proof (changed_fields_named Samples.p3moved Samples.p3 "name")
    as (_ & _ & _ & _ & B).
  cbv zeta in A, B. split.
  - apply A; [simpl; tauto|reflexivity].
  - apply B.
    + intros a [<-|[<-|[<-|[]]]]; reflexivity.
    + intros a [<-|[<-|[<-|[<-|[<-|[]]]]]]; reflexivity.
Defined.

(* ================================================================== *)
(** ** How the sync script ends *)

(** X8 (how a run of the sync script ends).  A run ends normally, or with
    the exit status 1, or waiting for an answer when the flag is not given
    and no input is left; no exception leaves the script and no other
    status is used.  Without a readable local file the run exits with
    status 1 before any call is made and leaves the world as it was; when
    the fetch fails it exits with status 1 after that one call. *)
Theorem syncData_exit_status {W} (env : Env W)
    (toLowerCase : string -> string) (file : localFile)
    (autoConfirm : bool) (sys : Sys W) :
  let run := syncData env toLowerCase file autoConfirm sys in
  (resultOf run = Val tt \/ resultOf run = Exit 1
   \/ (resultOf run = Stall /\ autoConfirm = false /\ stdin sys = []))
  /\ ((forall localData, file <> FileLoaded localData) ->
      resultOf run = Exit 1 /\ requestsOf (traceOf run) = []
      /\ sysOf run = sys)
  /\ (forall localData w1,
        file = FileLoaded localData ->
        getData env (world sys) = (None, w1) ->
        resultOf run = Exit 1
        /\ requestsOf (traceOf run) = [getDataRequest]).
Proof.
  cbv zeta. split; [|split].
  - destruct file as [| |localData].
    + right. left. reflexivity.
    + right. left. reflexivity.
    + destruct (getData env (world sys)) as [[prodData|] w1] eqn:G.
      2: { right. left.
           unfold syncData, tryCatch, bind, fetchProductionData.
           rewrite G. reflexivity. }
      destruct (planIsEmpty (computePlan localData prodData)) eqn:PE.
      { left. now rewrite (syncData_in_sync _ _ _ _ _ _ _ G PE). }
      unfold syncData, tryCatch, bind, fetchProductionData, log, emit,
        exit, ret.
      rewrite G, PE.
      destruct (showSummary_run localData prodData
                  (computePlan localData prodData)
                  {| world := w1; stdin := stdin sys |})
        as (r & ts & -> & _ & [-> | ->] & _).
      2: { right. left. reflexivity. }
      rewrite confirmSync_run. cbn [world stdin].
      destruct autoConfirm.
      * destruct (executePlan_run env (computePlan localData prodData)
                    {| world := w1; stdin := stdin sys |})
          as (tx & -> & _).
        left. reflexivity.
      * destruct (stdin sys) as [|a rest].
        { right. right. auto. }
        destruct (affirmative toLowerCase a).
        -- destruct (executePlan_run env (computePlan localData prodData)
                       {| world := w1; stdin := rest |})
             as (tx & -> & _).
           left. reflexivity.
        -- left. reflexivity.
  - intros H. destruct file as [| |localData].
    + destruct sys. repeat split.
    + destruct sys. repeat split.
    + now contradiction (H localData).
  - intros localData w1 -> G.
    unfold syncData, tryCatch, bind, fetchProductionData.
    rewrite G. split; reflexivity.
Qed.

(** A run without the local file, and a run whose fetch fails. *)
Lemma syncData_exit_status_witness :
  let env := Scripted.env None true in
  let missing := syncData env Scripted.toLowerCase FileMissing true
                   (Scripted.start [] []) in
  let unfetched := syncData env Scripted.toLowerCase
                     (FileLoaded Samples.sourceA) true
                     (Scripted.start [] []) in
  (resultOf missing = Exit 1 /\ requestsOf (traceOf missing) = []
   /\ sysOf missing = Scripted.start [] [])
  /\ (resultOf unfetched = Exit 1
      /\ requestsOf (traceOf unfetched) = [getDataRequest]).
Proof.
  pose proof (syncData_exit_status (Scripted.env None true)
                Scripted.toLowerCase FileMissing true
                (Scripted.start [] [])) as (_ & A & _).
  pose proof (syncData_exit_status (Scripted.env None true)
                Scripted.toLowerCase (FileLoaded Samples.sourceA) true
                (Scripted.start [] [])) as (_ & _ & B).
  cbv zeta in *. split.
  - apply A. discriminate.
  - apply (B Samples.sourceA []); reflexivity.
Defined.

(** The summary throws where it reads the settings of a side that has
    none, or counts the colours of a side that has no colour map. *)
Lemma showSummary_throws {W} localData prodData plan (sys : Sys W) :
  settingsChanged plan = true ->
  (nullish (settings localData) = true \/ nullish (settings prodData) = true
   \/ exists fl fp,
        settings localData = Some (JObj fl)
        /\ settings prodData = Some (JObj fp)
        /\ JS.getField "colorMap" fl <> JS.getField "colorMap" fp
        /\ (nullish (JS.getField "colorMap" fl) = true
            \/ nullish (JS.getField "colorMap" fp) = true)) ->
  showSummary localData prodData plan sys
  = (Throw, sys,
     [EvLog (MsgSummary (List.length (toCreate plan))
               (List.length (toUpdate plan)) (List.length (toDelete plan))
               true);
      EvLog MsgSettingsWillBeUpdated]).
Proof.
  intros S H. unfold showSummary, bind, log, emit. rewrite S.
  rewrite deref_run.
  destruct (settings localData) as [jl|] eqn:EL; [|reflexivity].
  destruct (nullish (Some jl)) eqn:NL; [reflexivity|].
  rewrite deref_run.
  destruct (settings prodData) as [jp|] eqn:EP; [|reflexivity].
  destruct (nullish (Some jp)) eqn:NP; [reflexivity|].
  destruct H as [H|[H|(fl & fp & [= ->] & [= ->] & Hne & Hn)]];
    try congruence.
  unfold JS.member. apply deepEqual_false in Hne. rewrite Hne. cbn [negb].
  rewrite objectKeys_run.
  destruct (nullish (JS.getField "colorMap" fp)) eqn:N1; [reflexivity|].
  rewrite objectKeys_run.
  destruct Hn as [Hn|Hn]; [|congruence]. now rewrite Hn.
Qed.

(** X9 (a run over incomplete settings fails before it changes anything).
    When the settings of the two snapshots differ and one snapshot has no
    settings, or the colour maps differ and one side has none, the summary
    throws: the run exits with status 1 after the fetch, without having put
    a question or made a create, update or delete call, with or without the
    flag. *)
Theorem sync_fails_on_incomplete_settings {W} (env : Env W)
    (toLowerCase : string -> string) (localData prodData : Snapshot)
    (w1 : W) (autoConfirm : bool) (sys : Sys W) :
  let run := syncData env toLowerCase (FileLoaded localData) autoConfirm sys in
  getData env (world sys) = (Some prodData, w1) ->
  settings localData <> settings prodData ->
  (nullish (settings localData) = true \/ nullish (settings prodData) = true
   \/ exists fl fp,
        settings localData = Some (JObj fl)
        /\ settings prodData = Some (JObj fp)
        /\ JS.getField "colorMap" fl <> JS.getField "colorMap" fp
        /\ (nullish (JS.getField "colorMap" fl) = true
            \/ nullish (JS.getField "colorMap" fp) = true)) ->
  resultOf run = Exit 1
  /\ requestsOf (traceOf run) = [getDataRequest]
  /\ asksOf (traceOf run) = 0
  /\ logged MsgSyncFailed (traceOf run).
Proof.
  cbv zeta. intros G Hne H.
  assert (S : settingsChanged (computePlan localData prodData) = true).
  { rewrite settingsChanged_computePlan. apply negb_true_iff.
    now apply deepEqual_false. }
  assert (PE : planIsEmpty (computePlan localData prodData) = false).
  { unfold planIsEmpty. rewrite S. apply andb_false_r. }
  unfold syncData, tryCatch, bind, fetchProductionData.
  rewrite G, PE.
  rewrite (showSummary_throws localData prodData _ _ S H).
  unfold resultOf, traceOf, logged. simpl. tauto.
Qed.

(** Scenario A with the flag, the local file without settings; and the
    production settings without colour map. *)
Lemma sync_fails_on_incomplete_settings_witness :
  let bare := {| projects := projects Samples.sourceA; settings := None |} in
  let plain := {| projects := projects Samples.targetA;
                  settings := Some (JObj [("startYear", JNum 2011)]) |} in
  let run1 := syncData (Scripted.env (Some Samples.targetA) true)
                Scripted.toLowerCase (FileLoaded bare) true
                (Scripted.start [] []) in
  let run2 := syncData (Scripted.env (Some plain) true)
                Scripted.toLowerCase (FileLoaded Samples.sourceA) true
                (Scripted.start [] []) in
  (resultOf run1 = Exit 1
   /\ requestsOf (traceOf run1) = [getDataRequest]
   /\ asksOf (traceOf run1) = 0
   /\ logged MsgSyncFailed (traceOf run1))
  /\ (resultOf run2 = Exit 1
      /\ requestsOf (traceOf run2) = [getDataRequest]
      /\ asksOf (traceOf run2) = 0
      /\ logged MsgSyncFailed (traceOf run2)).
Proof.
  cbv zeta. split.
  - apply (sync_fails_on_incomplete_settings
             (Scripted.env (Some Samples.targetA) true) Scripted.toLowerCase
             {| projects := projects Samples.sourceA; settings := None |}
             Samples.targetA [] true (Scripted.start [] [])).
    + reflexivity.
    + discriminate.
    + left. reflexivity.
  - apply (sync_fails_on_incomplete_settings
             (Scripted.env
                (Some {| projects := projects Samples.targetA;
                         settings := Some (JObj [("startYear", JNum 2011)])
                      |}) true)
             Scripted.toLowerCase Samples.sourceA
             {| projects := projects Samples.targetA;
                settings := Some (JObj [("startYear", JNum 2011)]) |}
             [] true (Scripted.start [] [])).
    + reflexivity.
    + discriminate.
    + right. right. eexists _, _. split; [reflexivity|].
      split; [reflexivity|]. split; [discriminate|]. right. reflexivity.
Defined.

(* ================================================================== *)
(** ** The questions put to the operator *)

Section QuietFacts.
Context {W : Type}.
Variable env : Env W.

Lemma asksOf_app t1 t2 : asksOf (t1 ++ t2) = asksOf t1 + asksOf t2.
Proof. unfold asksOf. now rewrite filter_app, length_app. Qed.

Lemma quiet_ret {A} (a : A) : quiet (@ret W A a).
Proof. intros sys. split; reflexivity. Qed.

Lemma quiet_throw {A} : quiet (@throw W A).
Proof. intros sys. split; reflexivity. Qed.

Lemma quiet_exit {A} c : quiet (@exit W A c).
Proof. intros sys. split; reflexivity. Qed.

Lemma quiet_log m : quiet (@log W m).
Proof. intros sys. split; reflexivity. Qed.

Lemma quiet_bind {A B} (m : M W A) (f : A -> M W B) :
  quiet m -> (forall a, quiet (f a)) -> quiet (bind m f).
Proof.
  intros Hm Hf sys. unfold bind. destruct (Hm sys) as [A1 A2].
  destruct (m sys) as [[[a| |c|] s1] t1]; unfold traceOf, sysOf in *;
    cbn [fst snd] in *; auto.
  destruct (Hf a s1) as [B1 B2].
  destruct (f a s1) as [[r s2] t2]. unfold traceOf, sysOf in *.
  cbn [fst snd] in *. rewrite asksOf_app. split; [lia|congruence].
Qed.

Lemma quiet_tryCatch {A} (body handler : M W A) :
  quiet body -> quiet handler -> quiet (tryCatch body handler).
Proof.
  intros Hb Hh sys. unfold tryCatch. destruct (Hb sys) as [A1 A2].
  destruct (body sys) as [[[a| |c|] s1] t1]; unfold traceOf, sysOf in *;
    cbn [fst snd] in *; auto.
  destruct (Hh s1) as [B1 B2].
  destruct (handler s1) as [[r s2] t2]. unfold traceOf, sysOf in *.
  cbn [fst snd] in *. rewrite asksOf_app. split; [lia|congruence].
Qed.

Lemma quiet_forEach {A S} (l : list A) (body : A -> S -> M W S) :
  (forall x acc, quiet (body x acc)) -> forall acc, quiet (forEach l body acc).
Proof.
  intros Hb. induction l as [|x r IH]; intros acc; simpl.
  - apply quiet_ret.
  - apply quiet_bind; auto.
Qed.

Lemma quiet_fetch readsError r : quiet (fetch env readsError r).
Proof.
  intros sys. unfold fetch.
  destruct (send env (world sys) r) as [[|readable|] w1];
    [| destruct (readsError && negb readable) |]; split; reflexivity.
Qed.

Lemma quiet_fetchProductionData : quiet (fetchProductionData env).
Proof.
  intros sys. unfold fetchProductionData.
  destruct (getData env (world sys)) as [[d|] w1]; split; reflexivity.
Qed.

Lemma quiet_writeFileSync path data : quiet (writeFileSync env path data).
Proof.
  intros sys. unfold writeFileSync.
  destruct (writeFile env (world sys) path data) as [[|] w1];
    split; reflexivity.
Qed.

Lemma quiet_statSync path : quiet (statSync env path).
Proof.
  intros sys. unfold statSync.
  destruct (statFile env (world sys) path) as [[|] w1]; split; reflexivity.
Qed.

Lemma quiet_deref v : quiet (@deref W v).
Proof. intros sys. rewrite deref_run. split; reflexivity. Qed.

Lemma quiet_objectKeys v : quiet (@objectKeys W v).
Proof. intros sys. rewrite objectKeys_run. split; reflexivity. Qed.

Lemma quiet_attempt readsError k r name counts :
  quiet (attempt env readsError k r name counts).
Proof.
  destruct counts as [s f]. unfold attempt.
  apply quiet_tryCatch.
  - apply quiet_bind; [apply quiet_fetch|].
    intros [|]; (apply quiet_bind; [apply quiet_log|]);
      intros _; apply quiet_ret.
  - apply quiet_bind; [apply quiet_log|]. intros _. apply quiet_ret.
Qed.

Lemma quiet_showSummary localData prodData plan :
  quiet (@showSummary W localData prodData plan).
Proof.
  unfold showSummary. apply quiet_bind; [apply quiet_log|]. intros _.
  destruct (settingsChanged plan); [|apply quiet_ret].
  apply quiet_bind; [apply quiet_log|]. intros _.
  apply quiet_bind; [apply quiet_deref|]. intros jl.
  apply quiet_bind; [apply quiet_deref|]. intros jp.
  destruct (negb _); [|apply quiet_ret].
  apply quiet_bind; [apply quiet_objectKeys|]. intros _.
  apply quiet_objectKeys.
Qed.

Lemma quiet_executePlan plan : quiet (executePlan env plan).
Proof.
  unfold executePlan. apply quiet_bind; [apply quiet_log|]. intros _.
  apply quiet_bind;
    [apply quiet_forEach; intros; apply quiet_attempt|]. intros c1.
  apply quiet_bind;
    [apply quiet_forEach; intros; apply quiet_attempt|]. intros c2.
  apply quiet_bind;
    [apply quiet_forEach; intros; apply quiet_attempt|]. intros c3.
  apply quiet_bind; [|intros _; apply quiet_log].
  destruct (settingsChanged plan); [apply quiet_log|apply quiet_ret].
Qed.

Lemma quiet_asksAtMost {A} (m : M W A) n : quiet m -> asksAtMost n m.
Proof. intros H sys. destruct (H sys) as [-> _]. lia. Qed.

Lemma asksAtMost_bind {A B} a b (m : M W A) (f : A -> M W B) :
  asksAtMost a m -> (forall x, asksAtMost b (f x)) ->
  asksAtMost (a + b) (bind m f).
Proof.
  intros Hm Hf sys. unfold bind. pose proof (Hm sys) as A1.
  destruct (m sys) as [[[x| |c|] s1] t1]; unfold traceOf in *;
    cbn [fst snd] in *; try lia.
  pose proof (Hf x s1) as B1.
  destruct (f x s1) as [[r s2] t2]. unfold traceOf in *.
  cbn [fst snd] in *. rewrite asksOf_app. lia.
Qed.

Lemma asksAtMost_tryCatch {A} a b (body handler : M W A) :
  asksAtMost a body -> asksAtMost b handler ->
  asksAtMost (a + b) (tryCatch body handler).
Proof.
  intros Hb Hh sys. unfold tryCatch. pose proof (Hb sys) as A1.
  destruct (body sys) as [[[x| |c|] s1] t1]; unfold traceOf in *;
    cbn [fst snd] in *; try lia.
  pose proof (Hh s1) as B1.
  destruct (handler s1) as [[r s2] t2]. unfold traceOf in *.
  cbn [fst snd] in *. rewrite asksOf_app. lia.
Qed.

Section Confirmations.
Variable toLowerCase toUpperCase : string -> string.

Lemma confirmSync_asks autoConfirm :
  asksAtMost 1 (@confirmSync W toLowerCase autoConfirm).
Proof.
  intros sys. rewrite confirmSync_run.
  destruct autoConfirm; [unfold asksOf; simpl; lia|].
  destruct (stdin sys) as [|a rest]; [unfold asksOf; simpl; lia|].
  destruct (affirmative toLowerCase a); unfold asksOf; simpl; lia.
Qed.

Lemma confirmReplace_asks autoConfirm :
  asksAtMost 2 (@confirmReplace W toUpperCase autoConfirm).
Proof.
  intros sys. rewrite confirmReplace_run.
  destruct autoConfirm; [unfold asksOf; simpl; lia|].
  destruct (stdin sys) as [|a rest]; [unfold asksOf; simpl; lia|].
  destruct (negb (String.eqb a "REPLACE")); [unfold asksOf; simpl; lia|].
  destruct rest as [|b rest']; [unfold asksOf; simpl; lia|].
  destruct (String.eqb (toUpperCase b) "YES"); unfold asksOf; simpl; lia.
Qed.

Lemma syncData_asks file autoConfirm :
  asksAtMost 1 (syncData env toLowerCase file autoConfirm).
Proof.
  unfold syncData.
  apply (asksAtMost_tryCatch 1 0);
    [|apply quiet_asksAtMost, quiet_bind;
      [apply quiet_log|intros _; apply quiet_exit]].
  destruct file as [| |localData].
  - apply quiet_asksAtMost, quiet_bind;
      [apply quiet_log|intros _; apply quiet_exit].
  - apply quiet_asksAtMost, quiet_throw.
  - apply (asksAtMost_bind 0 1);
      [apply quiet_asksAtMost, quiet_fetchProductionData|].
    intros prodData.
    destruct (planIsEmpty _); [apply quiet_asksAtMost, quiet_log|].
    apply (asksAtMost_bind 0 1);
      [apply quiet_asksAtMost, quiet_showSummary|]. intros _.
    apply (asksAtMost_bind 1 0); [apply confirmSync_asks|].
    intros [|]; apply quiet_asksAtMost;
      [apply quiet_executePlan|apply quiet_ret].
Qed.

Lemma quiet_batch readsError k (mk : record -> request) ps acc :
  quiet (forEach ps
           (fun project => attempt env readsError k (mk project)
                             (prop project "name")) acc).
Proof. apply quiet_forEach. intros. apply quiet_attempt. Qed.

Lemma replaceProduction_asks iso file autoConfirm :
  asksAtMost 2 (replaceProduction env toUpperCase iso file autoConfirm).
Proof.
  unfold replaceProduction.
  apply (asksAtMost_tryCatch 2 0);
    [|apply quiet_asksAtMost, quiet_bind;
      [apply quiet_log|intros _; apply quiet_exit]].
  destruct file as [| |localData].
  - apply quiet_asksAtMost, quiet_bind;
      [apply quiet_log|intros _; apply quiet_exit].
  - apply quiet_asksAtMost, quiet_throw.
  - apply (asksAtMost_bind 0 2);
      [apply quiet_asksAtMost, quiet_fetchProductionData|].
    intros prodData.
    apply (asksAtMost_bind 0 2);
      [apply quiet_asksAtMost, quiet_writeFileSync|]. intros _.
    apply (asksAtMost_bind 0 2);
      [apply quiet_asksAtMost, quiet_statSync|]. intros _.
    apply (asksAtMost_bind 0 2);
      [apply quiet_asksAtMost, quiet_log|]. intros _.
    apply (asksAtMost_bind 0 2);
      [apply quiet_asksAtMost, quiet_log|]. intros _.
    apply (asksAtMost_bind 2 0); [apply confirmReplace_asks|].
    intros [|]; apply quiet_asksAtMost; [|apply quiet_ret].
    apply quiet_bind; [apply quiet_log|]. intros _.
    apply quiet_bind; [apply quiet_batch|]. intros d.
    apply quiet_bind; [apply quiet_log|]. intros _.
    apply quiet_bind; [apply quiet_batch|]. intros c.
    apply quiet_bind; [apply quiet_log|]. intros _.
    apply quiet_bind; [apply quiet_log|]. intros _.
    apply quiet_bind; [apply quiet_log|]. intros _.
    apply quiet_bind; [apply quiet_fetchProductionData|]. intros f.
    apply quiet_log.
Qed.

Lemma syncData_quiet file : quiet (syncData env toLowerCase file true).
Proof.
  unfold syncData.
  apply quiet_tryCatch;
    [|apply quiet_bind; [apply quiet_log|intros _; apply quiet_exit]].
  destruct file as [| |localData].
  - apply quiet_bind; [apply quiet_log|intros _; apply quiet_exit].
  - apply quiet_throw.
  - apply quiet_bind; [apply quiet_fetchProductionData|].
    intros prodData.
    destruct (planIsEmpty _); [apply quiet_log|].
    apply quiet_bind; [apply quiet_showSummary|]. intros _.
    apply quiet_bind; [apply quiet_ret|].
    intros [|]; [apply quiet_executePlan|apply quiet_ret].
Qed.

Lemma replaceProduction_quiet iso file :
  quiet (replaceProduction env toUpperCase iso file true).
Proof.
  unfold replaceProduction.
  apply quiet_tryCatch;
    [|apply quiet_bind; [apply quiet_log|intros _; apply quiet_exit]].
  destruct file as [| |localData].
  - apply quiet_bind; [apply quiet_log|intros _; apply quiet_exit].
  - apply quiet_throw.
  - apply quiet_bind; [apply quiet_fetchProductionData|].
    intros prodData.
    apply quiet_bind; [apply quiet_writeFileSync|]. intros _.
    apply quiet_bind; [apply quiet_statSync|]. intros _.
    apply quiet_bind; [apply quiet_log|]. intros _.
    apply quiet_bind; [apply quiet_log|]. intros _.
    apply quiet_bind; [apply quiet_ret|].
    intros [|]; [|apply quiet_ret].
    apply quiet_bind; [apply quiet_log|]. intros _.
    apply quiet_bind; [apply quiet_batch|]. intros d.
    apply quiet_bind; [apply quiet_log|]. intros _.
    apply quiet_bind; [apply quiet_batch|]. intros c.
    apply quiet_bind; [apply quiet_log|]. intros _.
    apply quiet_bind; [apply quiet_log|]. intros _.
    apply quiet_bind; [apply quiet_log|]. intros _.
    apply quiet_bind; [apply quiet_fetchProductionData|]. intros f.
    apply quiet_log.
Qed.

End Confirmations.
End QuietFacts.

(** X10 (the questions of a run).  A run of the sync script puts at most
    one question to the operator, a run of the replace script at most two.
    With the flag neither puts any. *)
Theorem questions_of_a_run {W} (env : Env W)
    (toLowerCase toUpperCase : string -> string) (iso : string)
    (file : localFile) (autoConfirm : bool) (sys : Sys W) :
  let sync := syncData env toLowerCase file autoConfirm sys in
  let replace := replaceProduction env toUpperCase iso file autoConfirm sys in
  asksOf (traceOf sync) <= 1
  /\ asksOf (traceOf replace) <= 2
  /\ (autoConfirm = true ->
      asksOf (traceOf sync) = 0 /\ asksOf (traceOf replace) = 0).
Proof.
  cbv zeta. split; [|split].
  - apply syncData_asks.
  - apply replaceProduction_asks.
  - intros ->. split.
    + apply (syncData_quiet env toLowerCase file sys).
    + apply (replaceProduction_quiet env toUpperCase iso file sys).
Qed.

(** Scenario C with the flag. *)
Lemma questions_of_a_run_witness :
  let env := Scripted.env (Some Samples.prodC) true in
  let sys := Scripted.start [] [] in
  let sync := syncData env Scripted.toLowerCase (FileLoaded Samples.localC)
                true sys in
  let replace := replaceProduction env Scripted.toUpperCase Samples.iso
                   (FileLoaded Samples.localC) true sys in
  asksOf (traceOf sync) = 0 /\ asksOf (traceOf replace) = 0.
Proof.
  apply (questions_of_a_run (Scripted.env (Some Samples.prodC) true)
           Scripted.toLowerCase Scripted.toUpperCase Samples.iso
           (FileLoaded Samples.localC) true
           (Scripted.start [] [])).
  reflexivity.
Defined.

(* ================================================================== *)
(** ** Runs of the replace script *)

Section ReplaceRuns.
Context {W : Type}.
Variable env : Env W.
Variable toUpperCase : string -> string.
Variable iso : string.

(** What the two questions give when the run is not held back. *)
Lemma confirmReplace_confirmed autoConfirm (sys : Sys W) :
  replaceConfirmed toUpperCase autoConfirm (stdin sys) = true ->
  exists input,
    confirmReplace toUpperCase autoConfirm sys
    = (Val true, {| world := world sys; stdin := input |},
       if autoConfirm then [] else [EvAsk; EvAsk]).
Proof.
  intros C. rewrite confirmReplace_run. unfold replaceConfirmed in C.
  destruct autoConfirm.
  - exists (stdin sys). now destruct sys.
  - cbn [orb] in C. destruct (stdin sys) as [|a1 [|a2 rest']];
      try discriminate.
    apply andb_true_iff in C as [-> ->]. cbn [negb]. eauto.
Qed.

(** A replacement that is not held back, in full. *)
Lemma replace_complete localData prodData w1 w2 w3 autoConfirm
    (sys : Sys W) :
  let dels := replies env w3 (map deleteRequest (projects prodData)) in
  let adds := replies env (snd dels)
                (map createRequest (projects localData)) in
  let final := getData env (snd adds) in
  let run := replaceProduction env toUpperCase iso (FileLoaded localData)
               autoConfirm sys in
  getData env (world sys) = (Some prodData, w1) ->
  writeFile env w1 (BACKUP_FILE iso) prodData = (true, w2) ->
  statFile env w2 (BACKUP_FILE iso) = (true, w3) ->
  replaceConfirmed toUpperCase autoConfirm (stdin sys) = true ->
  requestsOf (traceOf run)
  = getDataRequest :: replaceRequests localData prodData ++ [getDataRequest]
  /\ logged (MsgDeletionComplete (successes (fst dels)) (failures (fst dels)))
       (traceOf run)
  /\ logged (MsgCreationComplete (successes (fst adds)) (failures (fst adds)))
       (traceOf run)
  /\ logged (MsgReplaceComplete (successes (fst dels)) (successes (fst adds))
               (failures (fst dels) + failures (fst adds)) (BACKUP_FILE iso))
       (traceOf run)
  /\ resultOf run = match fst final with Some _ => Val tt | None => Exit 1 end
  /\ match fst final with
     | Some finalData =>
         logged (MsgVerified (List.length (projects finalData))) (traceOf run)
     | None => logged (MsgReplaceFailed (BACKUP_FILE iso)) (traceOf run)
     end.
Proof.
  cbv zeta. intros G Wr St C.
  unfold replaceProduction, tryCatch, bind, fetchProductionData,
    writeFileSync, statSync, log, emit, exit, ret.
  rewrite G. cbn [world stdin]. rewrite Wr. cbn [world stdin].
  rewrite St. cbn [world stdin].
  destruct (confirmReplace_confirmed autoConfirm
              {| world := w3; stdin := stdin sys |} C) as [input ->].
  cbn [world stdin].
  destruct (deleteAllProjects_run env (projects prodData)
              {| world := w3; stdin := input |})
    as (td & -> & Rd).
  cbn [world stdin fst snd].
  match goal with
  | |- context [createProjects env _ ?s] =>
      destruct (createProjects_run env (projects localData) s)
        as (tc & -> & Rc)
  end.
  cbn [world stdin fst snd].
  destruct (getData env
              (snd (replies env
                      (snd (replies env w3
                              (map deleteRequest (projects prodData))))
                      (map createRequest (projects localData)))))
    as [[finalData|] w4]; unfold traceOf, resultOf, logged; cbn [fst snd].
  - split; [|repeat split;
             repeat (simpl; rewrite ?in_app_iff); tauto].
    rewrite !requestsOf_app, Rd, Rc. unfold replaceRequests.
    destruct autoConfirm; simpl; rewrite <- ?app_assoc, ?app_nil_r;
      reflexivity.
  - split; [|repeat split;
             repeat (simpl; rewrite ?in_app_iff); tauto].
    rewrite !requestsOf_app, Rd, Rc. unfold replaceRequests.
    destruct autoConfirm; simpl; rewrite <- ?app_assoc, ?app_nil_r;
      reflexivity.
Qed.

End ReplaceRuns.





(** X13 (how a run of the replace script ends).  A run ends normally, or
    with the exit status 1, or waiting for an answer that the input does
    not hold; no exception leaves the script.  Without a readable local
    file the run exits with status 1 before any call is made and leaves
    the world as it was.  When the backup is written but cannot be
    measured, the run exits with status 1 without a question and without a
    delete or create call. *)
Theorem replaceProduction_exit_status {W} (env : Env W)
    (toUpperCase : string -> string) (iso : string) (file : localFile)
    (autoConfirm : bool) (sys : Sys W) :
  let run := replaceProduction env toUpperCase iso file autoConfirm sys in
  (resultOf run = Val tt \/ resultOf run = Exit 1
   \/ (resultOf run = Stall /\ autoConfirm = false
       /\ (stdin sys = [] \/ stdin sys = ["REPLACE"])))
  /\ ((forall localData, file <> FileLoaded localData) ->
      resultOf run = Exit 1 /\ requestsOf (traceOf run) = []
      /\ sysOf run = sys)
  /\ (forall localData prodData w1 w2 w3,
        file = FileLoaded localData ->
        getData env (world sys) = (Some prodData, w1) ->
        writeFile env w1 (BACKUP_FILE iso) prodData = (true, w2) ->
        statFile env w2 (BACKUP_FILE iso) = (false, w3) ->
        resultOf run = Exit 1
        /\ In (EvWriteFile (BACKUP_FILE iso) prodData true) (traceOf run)
        /\ mutationsOf (traceOf run) = []
        /\ asksOf (traceOf run) = 0).
Proof.
  cbv zeta. split; [|split].
  - destruct file as [| |localData].
    + right. left. reflexivity.
    + right. left. reflexivity.
    + destruct (getData env (world sys)) as [[prodData|] w1] eqn:G.
      2: { right. left.
           now rewrite (replace_fetch_fails env toUpperCase iso _ _ _ _ G). }
      destruct (writeFile env w1 (BACKUP_FILE iso) prodData)
        as [[|] w2] eqn:Wr.
      2: { right. left.
           now rewrite (replace_write_fails env toUpperCase iso
                          _ _ _ _ _ _ G Wr). }
      destruct (statFile env w2 (BACKUP_FILE iso)) as [[|] w3] eqn:St.
      2: { right. left.
           unfold replaceProduction, tryCatch, bind, fetchProductionData,
             writeFileSync, statSync.
           rewrite G. cbn [world stdin]. rewrite Wr. cbn [world stdin].
           rewrite St. reflexivity. }
      destruct (replaceConfirmed toUpperCase autoConfirm (stdin sys)) eqn:C.
      { destruct (replace_complete env toUpperCase iso localData prodData
                    w1 w2 w3 autoConfirm sys G Wr St C)
          as (_ & _ & _ & _ & Res & _).
        cbv zeta in Res. rewrite Res.
        destruct (fst (getData env _)); auto. }
      unfold replaceProduction, tryCatch, bind, fetchProductionData,
        writeFileSync, statSync, log, emit, exit, ret.
      rewrite G. cbn [world stdin]. rewrite Wr. cbn [world stdin].
      rewrite St. cbn [world stdin].
      rewrite confirmReplace_run. cbn [world stdin].
      unfold replaceConfirmed in C. destruct autoConfirm; [discriminate|].
      cbn [orb] in C.
      destruct (stdin sys) as [|a1 rest]; [right; right; auto|].
      destruct (String.eqb a1 "REPLACE") eqn:E1; cbn [negb andb] in *;
        [|left; reflexivity].
      apply String.eqb_eq in E1. subst a1.
      destruct rest as [|a2 rest']; [right; right; auto|].
      rewrite C. left. reflexivity.
  - intros H. destruct file as [| |localData].
    + destruct sys. repeat split.
    + destruct sys. repeat split.
    + now contradiction (H localData).
  - intros localData prodData w1 w2 w3 -> G Wr St.
    unfold replaceProduction, tryCatch, bind, fetchProductionData,
      writeFileSync, statSync.
    rewrite G. cbn [world stdin]. rewrite Wr. cbn [world stdin].
    rewrite St. unfold resultOf, traceOf. simpl. tauto.
Qed.

(** A run without the local file, and a run on a disk that writes but
    does not measure. *)
Lemma replaceProduction_exit_status_witness :
  let missing := replaceProduction (Scripted.env None true)
                   Scripted.toUpperCase Samples.iso FileMissing true
                   (Scripted.start [] []) in
  let unmeasured := replaceProduction (Flaky.env Samples.prodC true false)
                      Scripted.toUpperCase Samples.iso
                      (FileLoaded Samples.localC) true
                      (Flaky.start 2 [] []) in
  (resultOf missing = Exit 1 /\ requestsOf (traceOf missing) = []
   /\ sysOf missing = Scripted.start [] [])
  /\ (resultOf unmeasured = Exit 1
      /\ In (EvWriteFile (BACKUP_FILE Samples.iso) Samples.prodC true)
           (traceOf unmeasured)
      /\ mutationsOf (traceOf unmeasured) = []
      /\ asksOf (traceOf unmeasured) = 0).
Proof.
  pose proof (replaceProduction_exit_status (Scripted.env None true)
                Scripted.toUpperCase Samples.iso FileMissing true
                (Scripted.start [] [])) as (_ & A & _).
  pose proof (replaceProduction_exit_status
                (Flaky.env Samples.prodC true false)
                Scripted.toUpperCase Samples.iso
                (FileLoaded Samples.localC) true
                (Flaky.start 2 [] [])) as (_ & _ & B).
  cbv zeta in *. split.
  - apply A. discriminate.
  - apply (B Samples.localC Samples.prodC
             {| Flaky.fetches := 1; Flaky.script := [] |}
             {| Flaky.fetches := 1; Flaky.script := [] |}
             {| Flaky.fetches := 1; Flaky.script := [] |}); reflexivity.
Defined.

(** X14 (a cancelled replacement leaves a backup).  Once production is
    fetched, the first thing a run of the replace script does is to write
    the backup file, before any question is put.  So a replacement that
    the operator declines, at the first question or at the second, ends
    normally without a delete or create call, but with the backup file
    written. *)
Theorem cancelled_replacement_leaves_a_backup {W} (env : Env W)
    (toUpperCase : string -> string) (iso : string)
    (localData prodData : Snapshot) (w1 : W) (autoConfirm : bool)
    (sys : Sys W) :
  let run := replaceProduction env toUpperCase iso (FileLoaded localData)
               autoConfirm sys in
  getData env (world sys) = (Some prodData, w1) ->
  (exists rest,
     traceOf run
     = EvRequest getDataRequest
         :: EvWriteFile (BACKUP_FILE iso) prodData
              (fst (writeFile env w1 (BACKUP_FILE iso) prodData))
         :: rest)
  /\ (forall w2 w3 answer1 answers,
        writeFile env w1 (BACKUP_FILE iso) prodData = (true, w2) ->
        statFile env w2 (BACKUP_FILE iso) = (true, w3) ->
        autoConfirm = false ->
        stdin sys = answer1 :: answers ->
        (answer1 <> "REPLACE"
         \/ exists answer2 rest,
              answers = answer2 :: rest
              /\ String.eqb (toUpperCase answer2) "YES" = false) ->
        resultOf run = Val tt
        /\ logged MsgCancelled (traceOf run)
        /\ mutationsOf (traceOf run) = []
        /\ In (EvWriteFile (BACKUP_FILE iso) prodData true) (traceOf run)).
Proof.
  cbv zeta. intros G. split.
  - unfold replaceProduction, tryCatch. unfold bind at 1.
    unfold fetchProductionData. rewrite G. unfold bind at 1.
    unfold writeFileSync. cbn [world stdin].
    destruct (writeFile env w1 (BACKUP_FILE iso) prodData) as [[|] w2].
    + match goal with
      | |- context [bind ?m ?f ?s] => destruct (bind m f s) as [[r s3] t3]
      end.
      destruct r as [u| |c|]; unfold traceOf; cbn [fst snd app];
        eexists; reflexivity.
    + cbn [fst snd]. eexists. reflexivity.
  - intros w2 w3 answer1 answers Wr St -> In1 Declined.
    unfold replaceProduction, tryCatch, bind, fetchProductionData,
      writeFileSync, statSync, log, emit, exit, ret.
    rewrite G. cbn [world stdin]. rewrite Wr. cbn [world stdin].
    rewrite St. cbn [world stdin].
    rewrite confirmReplace_run. cbn [world stdin]. rewrite In1.
    destruct (String.eqb answer1 "REPLACE") eqn:E1; cbn [negb].
    + destruct Declined as [Hne|(answer2 & rest & -> & E2)].
      * apply String.eqb_eq in E1. contradiction.
      * rewrite E2. unfold resultOf, traceOf, logged, mutationsOf.
        simpl. tauto.
    + unfold resultOf, traceOf, logged, mutationsOf. simpl. tauto.
Qed.

(** Scenario C, the second question answered with a no. *)
Lemma cancelled_replacement_leaves_a_backup_witness :
  let run := replaceProduction (Scripted.env (Some Samples.prodC) true)
               Scripted.toUpperCase Samples.iso (FileLoaded Samples.localC)
               false (Scripted.start [] ["REPLACE"; "no"]) in
  resultOf run = Val tt
  /\ logged MsgCancelled (traceOf run)
  /\ mutationsOf (traceOf run) = []
  /\ In (EvWriteFile (BACKUP_FILE Samples.iso) Samples.prodC true)
       (traceOf run).
Proof.
  pose proof (cancelled_replacement_leaves_a_backup
                (Scripted.env (Some Samples.prodC) true)
                Scripted.toUpperCase Samples.iso Samples.localC
                Samples.prodC [] false
                (Scripted.start [] ["REPLACE"; "no"]) eq_refl) as (_ & A).
  apply (A [] [] "REPLACE" ["no"]); try reflexivity.
  right. exists "no", []. split; reflexivity.
Defined.

(* ================================================================== *)
(** ** The two migration scripts *)

Section MigrationFacts.
Context {W : Type}.
Variable env : Env W.






End MigrationFacts.


Lemma upsertRequest_method prod p :
  reqMethod (upsertRequest prod p) <> DELETE.
Proof.
  unfold upsertRequest. destruct (present (idOf p) prod); discriminate.
Qed.



Lemma upsert_creations prod l :
  filter isCreation (map (upsertRequest prod) l)
  = map createRequest (filter (fun p => negb (present (idOf p) prod)) l).
Proof.
  induction l as [|p r IH]; [reflexivity|]. cbn [map filter].
  assert (E : upsertRequest prod p
              = if present (idOf p) prod then updateRequest p
                else createRequest p) by reflexivity.
  rewrite E. destruct (present (idOf p) prod); cbn [negb].
  - exact IH.
  - cbn [isCreation reqMethod createRequest map]. now rewrite IH.
Qed.

(** X17 (the smart migration beside the sync).  On a backup without
    repeated identifier, the creations the smart migration asks for are
    those of the plan that the sync computes from the same two snapshots,
    in the same order, and every update of that plan is among its calls;
    the deletions of the plan are not. *)
Theorem smart_migration_beside_sync (data prod : Snapshot) :
  distinctIds (projects data) = true ->
  let reqs := map (upsertRequest (projects prod)) (projects data) in
  let plan := computePlan data prod in
  filter isCreation reqs = map createRequest (toCreate plan)
  /\ (forall u, In u (toUpdate plan) -> In (updateRequest (local u)) reqs)
  /\ (forall p, In p (toDelete plan) -> ~ In (deleteRequest p) reqs).
Proof.
  intros D. cbv zeta. split; [|split].
  - rewrite toCreate_distinct by exact D. apply upsert_creations.
  - intros u Hu.
    assert (Hl : In (local u) (map local (toUpdate (computePlan data prod))))
      by now apply in_map.
    rewrite toUpdate_distinct in Hl by exact D.
    apply filter_In in Hl as [Hin Hd].
    apply in_map_iff. exists (local u). split; [|exact Hin].
    unfold upsertRequest, differsIn in *. rewrite recordOf_present.
    now destruct (recordOf (idOf (local u)) (projects prod)).
  - intros p _ Hin. apply in_map_iff in Hin as (q & E & _).
    apply (f_equal reqMethod) in E.
    now apply (upsertRequest_method (projects prod) q).
Qed.

(** Scenario A. *)
Lemma smart_migration_beside_sync_witness :
  let reqs := map (upsertRequest (projects Samples.targetA))
                (projects Samples.sourceA) in
  filter isCreation reqs = [createRequest Samples.p1]
  /\ In (updateRequest Samples.p2) reqs
  /\ ~ In (deleteRequest Samples.p4) reqs.
Proof.
  pose proof (smart_migration_beside_sync Samples.sourceA Samples.targetA
                eq_refl) as (A & B & C).
  cbv zeta in *. split; [exact A|]. split.
  - apply (B {| local := Samples.p2; prod := Samples.p2' |}).
    left. reflexivity.
  - apply C. left. reflexivity.
Defined.

(* ================================================================== *)
(** ** The handlers of the projects *)

Module ServerFacts.
Import Server.

Lemma truthy_not_null a : JS.truthy a = true -> isNull a = false.
Proof. now destruct a as [[| | | | |]|]. Qed.

Lemma isNull_logicalOr a d :
  isNull (Some d) = false -> isNull (JS.logicalOr a (Some d)) = false.
Proof.
  intros H. unfold JS.logicalOr.
  destruct (JS.truthy a) eqn:T; [now apply truthy_not_null|exact H].
Qed.

Lemma isNull_stringified v :
  isNull (stringified v) = match v with Some _ => false | None => true end.
Proof. now destruct v. Qed.

Lemma stringified_logicalOr a d :
  isNull (stringified (JS.logicalOr a (Some d))) = false.
Proof.
  rewrite isNull_stringified. unfold JS.logicalOr.
  destruct (JS.truthy a) eqn:T; [|reflexivity].
  destruct a; [reflexivity|discriminate].
Qed.

Lemma hasId_key project random key k :
  prepareValue (prop project "id") = Some key ->
  hasId k (buildProjectData project random) = String.eqb key k.
Proof. unfold hasId. simpl. now intros ->. Qed.

(** What the INSERT of the create handler checks, on the submitted
    record. *)
Lemma insertProject_creatable reads random db project :
  insertProject reads db (buildProjectData project random)
  = if creatable reads random db project
    then Some {| online := true;
                 rows := rows db ++ [buildProjectData project random] |}
    else None.
Proof.
  unfold insertProject, creatable, freshId, hasRow.
  destruct (allBound reads (buildProjectData project random));
    cbn [negb andb]; [|now rewrite andb_false_r; destruct (online db)].
  cbn [id number name projectTypes typeColor stages buildProjectData].
  rewrite !isNull_logicalOr by reflexivity.
  rewrite stringified_logicalOr, isNull_stringified.
  destruct (online db); cbn [negb andb orb]; [|reflexivity].
  destruct (isNull (prop project "name")); cbn [negb andb orb].
  { now destruct (prepareValue (prop project "id")) as [key|];
      [destruct (existsb _ _)|]. }
  destruct (prop project "stages"); cbn [negb andb orb].
  - destruct (prepareValue (prop project "id")) as [key|]; [|reflexivity].
    now destruct (existsb _ (rows db)).
  - now destruct (prepareValue (prop project "id")) as [key|];
      [destruct (existsb _ _)|].
Qed.

Lemma postProject_production reads random db project :
  postProject reads true random db project
  = if creatable reads random db project
    then (json200 (successWithId (prop project "id")),
          {| online := true;
             rows := rows db ++ [buildProjectData project random] |})
    else (json500 "Failed to create project", db).
Proof.
  unfold postProject. rewrite insertProject_creatable.
  now destruct (creatable reads random db project).
Qed.

Lemma rows_unchanged (f : projectData -> projectData) table :
  (forall r, In r table -> f r = r) -> map f table = table.
Proof.
  intros H. rewrite <- (map_id table) at 2. now apply map_ext_in.
Qed.

(** What the UPDATE of the update handler does, on the submitted
    record. *)
Lemma updateWhereId_updatable reads db project projectId :
  updateWhereId reads db (buildUpdateData project projectId) projectId
  = if negb (online db) then None
    else if negb (bindable reads project projectId) then None
    else if hasRow db projectId && negb (updatable project) then None
    else Some {| online := online db;
                 rows := map (fun r =>
                                if hasId projectId r
                                then withId (id r)
                                       (buildUpdateData project projectId)
                                else r) (rows db) |}.
Proof.
  unfold updateWhereId, hasRow, updatable, bindable.
  destruct (online db); cbn [negb]; [|reflexivity].
  destruct (allBound reads _); cbn [negb]; [|reflexivity].
  cbn [id number name projectTypes typeColor stages buildUpdateData].
  rewrite stringified_logicalOr, isNull_stringified.
  assert (C : existsb (hasId projectId) (rows db)
              && (isNull (prop project "number")
                  || isNull (prop project "name") || false
                  || isNull (prop project "typeColor")
                  || match prop project "stages" with
                     | Some _ => false
                     | None => true
                     end)
              = existsb (hasId projectId) (rows db)
                && negb (negb (isNull (prop project "number"))
                         && negb (isNull (prop project "name"))
                         && negb (isNull (prop project "typeColor"))
                         && match prop project "stages" with
                            | Some _ => true
                            | None => false
                            end)).
  { destruct (existsb _ _), (isNull (prop project "number")),
      (isNull (prop project "name")), (isNull (prop project "typeColor")),
      (prop project "stages"); reflexivity. }
  rewrite C.
  match goal with
  | |- (if ?c then _ else _) = _ => destruct c
  end; reflexivity.
Qed.

Lemma filter_all_rows (P : projectData -> bool) l :
  (forall r, In r l -> P r = true) -> filter P l = l.
Proof.
  induction l as [|a r IH]; simpl; intros H; [reflexivity|].
  rewrite (H a) by now left. f_equal. apply IH. intros x Hx. apply H.
  now right.
Qed.

Lemma hasRow_false db projectId :
  hasRow db projectId = false ->
  forall r, In r (rows db) -> hasId projectId r = false.
Proof.
  unfold hasRow. intros H r Hr.
  destruct (hasId projectId r) eqn:E; [|reflexivity].
  rewrite <- H. symmetry. apply existsb_exists. eauto.
Qed.


(** A deletion on a table that answers, with an identifier that the
    server reads. *)
Lemma deleteProject_online reads isProduction db projectId :
  online db = true ->
  reads TEXT projectId = true ->
  deleteProject reads isProduction db projectId
  = (json200 (JObj [("success", JBool true)]),
     {| online := true;
        rows := filter (fun r => negb (hasId projectId r)) (rows db) |}).
Proof.
  intros On Rd. unfold deleteProject, deleteWhereId.
  rewrite On, Rd. cbn [negb]. now destruct isProduction.
Qed.

End ServerFacts.

(** X18 (what a creation needs).  In production the create handler stores
    the submitted record, completed by the defaults, and answers success
    with its identifier exactly when the server answers and reads the
    parameters of the INSERT, and the record has an identifier whose text
    no row has, a name and stages.  Otherwise it answers 500 and the table
    is left as it was.  The identifier is compared as text: after the
    record with the number 5 for identifier, the record with the text 5 is
    refused. *)
Theorem create_needs_id_name_and_stages
    (reads : Server.sqlType -> string -> bool) (random : Z)
    (db : Server.database) (project : record) :
  let row := Server.buildProjectData project random in
  (creatable reads random db project = true ->
   Server.postProject reads true random db project
   = (Server.json200 (Server.successWithId (prop project "id")),
      {| Server.online := true; Server.rows := Server.rows db ++ [row] |}))
  /\ (creatable reads random db project = false ->
      Server.postProject reads true random db project
      = (Server.json500 "Failed to create project", db))
  /\ (forall other random',
        creatable reads random db project = true ->
        Server.prepareValue (prop other "id")
        = Server.prepareValue (prop project "id") ->
        Server.postProject reads true random'
          (snd (Server.postProject reads true random db project)) other
        = (Server.json500 "Failed to create project",
           snd (Server.postProject reads true random db project))).
Proof.
  cbv zeta. rewrite !ServerFacts.postProject_production.
  split; [|split].
  - intros ->. reflexivity.
  - intros ->. reflexivity.
  - intros other random' Cr Same. rewrite Cr. cbn [snd].
    rewrite ServerFacts.postProject_production.
    assert (N : creatable reads random'
                  {| Server.online := true;
                     Server.rows :=
                       Server.rows db
                       ++ [Server.buildProjectData project random] |}
                  other = false).
    { unfold creatable, freshId, hasRow. cbn [Server.online Server.rows].
      rewrite Same.
      unfold creatable, freshId in Cr.
      destruct (Server.prepareValue (prop project "id")) as [key|] eqn:K.
      - rewrite existsb_app. cbn [existsb].
        rewrite (ServerFacts.hasId_key _ _ _ _ K), String.eqb_refl.
        rewrite !orb_true_r. cbn [negb].
        now rewrite !andb_false_r.
      - now rewrite !andb_false_r. }
    now rewrite N.
Qed.

(** The bare record on the empty table; the same record without its
    stages; the number 9 for identifier, after the bare record. *)
Lemma create_needs_id_name_and_stages_witness :
  let unstaged : record := [("id", JStr "9"); ("name", JStr "Kiosk")] in
  let nine : record :=
    [("id", JNum 9); ("name", JStr "Stall"); ("stages", JObj [])] in
  let created := Server.postProject Samples.reads true 7 Samples.emptyDb
                   Samples.bare in
  created
  = (Server.json200 (Server.successWithId (Some (JStr "9"))),
     {| Server.online := true;
        Server.rows := [Server.buildProjectData Samples.bare 7] |})
  /\ Server.postProject Samples.reads true 7 Samples.emptyDb unstaged
     = (Server.json500 "Failed to create project", Samples.emptyDb)
  /\ Server.postProject Samples.reads true 8 (snd created) nine
     = (Server.json500 "Failed to create project", snd created).
Proof.
  pose proof (create_needs_id_name_and_stages Samples.reads 7
                Samples.emptyDb Samples.bare) as (A & _ & C).
  pose proof (create_needs_id_name_and_stages Samples.reads 7
                Samples.emptyDb
                [("id", JStr "9"); ("name", JStr "Kiosk")]) as (_ & B & _).
  cbv zeta in *. split; [|split].
  - apply A. reflexivity.
  - apply B. reflexivity.
  - apply (C [("id", JNum 9); ("name", JStr "Stall"); ("stages", JObj [])]
             8%Z); reflexivity.
Defined.

(** X19 (an update of a record that is not there).  When no row has the
    identifier and the server reads the parameters, the update handler
    answers success and the table is left as it was, whatever else is
    submitted.  In production, parameters that the server does not read are
    answered with 500, whether a row has the identifier or not.  In any
    case an update leaves the identifiers of the table as they are, row by
    row. *)
Theorem update_of_a_missing_record_succeeds
    (reads : Server.sqlType -> string -> bool) (isProduction : bool)
    (db : Server.database) (project : record) (projectId : string) :
  (Server.online db = true -> hasRow db projectId = false ->
   bindable reads project projectId = true ->
   Server.putProject reads isProduction db project projectId
   = (Server.json200 (JObj [("success", JBool true)]), db))
  /\ (bindable reads project projectId = false ->
      Server.putProject reads true db project projectId
      = (Server.json500 "Failed to update project", db))
  /\ map Server.id
       (Server.rows (snd (Server.putProject reads isProduction db project
                            projectId)))
     = map Server.id (Server.rows db).
Proof.
  unfold Server.putProject. rewrite ServerFacts.updateWhereId_updatable.
  split; [|split].
  - intros On Absent Rd. rewrite On, Absent, Rd. cbn [negb andb].
    rewrite ServerFacts.rows_unchanged.
    + destruct db as [o rows]. simpl in On. subst o.
      now destruct isProduction.
    + intros r Hr.
      now rewrite (ServerFacts.hasRow_false _ _ Absent r Hr).
  - intros ->. cbn [negb]. now destruct (negb (Server.online db)).
  - assert (K : map Server.id
                  (map (fun r => if Server.hasId projectId r
                                 then Server.withId (Server.id r)
                                        (Server.buildUpdateData project
                                           projectId)
                                 else r) (Server.rows db))
                = map Server.id (Server.rows db)).
    { rewrite map_map. apply map_ext_in. intros r _.
      now destruct (Server.hasId projectId r). }
    destruct (negb (Server.online db));
      [now destruct isProduction|].
    destruct (negb (bindable reads project projectId));
      [now destruct isProduction|].
    destruct (hasRow db projectId && negb (updatable project));
      destruct isProduction; simpl; auto.
Qed.

(** Updating an identifier that no row has, with a record and with the
    bare record; updating it with a number that the server does not
    read. *)
Lemma update_of_a_missing_record_succeeds_witness :
  let success := Server.json200 (JObj [("success", JBool true)]) in
  let unread : record := [("number", JStr "abc")] in
  Server.putProject Samples.reads true Samples.oneRowDb Samples.p2 "2"
  = (success, Samples.oneRowDb)
  /\ Server.putProject Samples.reads true Samples.oneRowDb Samples.bare "2"
     = (success, Samples.oneRowDb)
  /\ Server.putProject Samples.reads true Samples.oneRowDb unread "2"
     = (Server.json500 "Failed to update project", Samples.oneRowDb).
Proof.
  pose proof (update_of_a_missing_record_succeeds Samples.reads true
                Samples.oneRowDb Samples.p2 "2") as (A & _).
  pose proof (update_of_a_missing_record_succeeds Samples.reads true
                Samples.oneRowDb Samples.bare "2") as (B & _).
  pose proof (update_of_a_missing_record_succeeds Samples.reads true
                Samples.oneRowDb [("number", JStr "abc")] "2") as (_ & C & _).
  cbv zeta. split; [|split].
  - apply A; reflexivity.
  - apply B; reflexivity.
  - apply C; reflexivity.
Defined.

Lemma hasRow_app db r projectId :
  hasRow {| Server.online := true; Server.rows := Server.rows db ++ [r] |}
    projectId
  = hasRow db projectId || Server.hasId projectId r.
Proof.
  unfold hasRow. simpl. rewrite existsb_app. simpl.
  now rewrite orb_false_r.
Qed.

Lemma updatable_false project :
  Server.isNull (prop project "number") = true
  \/ Server.isNull (prop project "typeColor") = true ->
  updatable project = false.
Proof.
  unfold updatable. intros [-> | ->]; simpl; [reflexivity|].
  now rewrite andb_false_r.
Qed.

(** X20 (an update rejects what a creation accepts).  In production, a
    record that is submitted without number or without colour is created
    when the server reads the parameters, the handler filling in a number
    or the default colour; the same record submitted again as an update of
    its own identifier is answered with 500, and the table is left as the
    creation made it. *)
Theorem update_rejects_what_create_accepts
    (reads : Server.sqlType -> string -> bool) (random : Z)
    (db : Server.database) (project : record) (projectId : string) :
  creatable reads random db project = true ->
  Server.prepareValue (prop project "id") = Some projectId ->
  Server.isNull (prop project "number") = true
  \/ Server.isNull (prop project "typeColor") = true ->
  let created := Server.postProject reads true random db project in
  let updated :=
    Server.putProject reads true (snd created) project projectId in
  Server.ok (fst created) = true
  /\ updated = (Server.json500 "Failed to update project", snd created)
  /\ Server.ok (fst updated) = false.
Proof.
  intros Cr Id Missing. cbv zeta.
  rewrite ServerFacts.postProject_production, Cr.
  cbn [fst snd]. split; [reflexivity|].
  unfold Server.putProject.
  rewrite ServerFacts.updateWhereId_updatable. cbn [Server.online negb].
  rewrite hasRow_app, (updatable_false _ Missing).
  rewrite (ServerFacts.hasId_key _ _ _ _ Id), String.eqb_refl, orb_true_r.
  destruct (bindable reads project projectId); split; reflexivity.
Qed.

(** The bare record, created on the empty table, then submitted again. *)
Lemma update_rejects_what_create_accepts_witness :
  let created := Server.postProject Samples.reads true 7 Samples.emptyDb
                   Samples.bare in
  let updated :=
    Server.putProject Samples.reads true (snd created) Samples.bare "9" in
  Server.ok (fst created) = true
  /\ updated = (Server.json500 "Failed to update project", snd created)
  /\ Server.ok (fst updated) = false.
Proof.
  apply (update_rejects_what_create_accepts Samples.reads 7 Samples.emptyDb
           Samples.bare "9").
  - reflexivity.
  - reflexivity.
  - left. reflexivity.
Defined.



(** X22 (a deletion removes the record, and only it).  On a table that
    answers, with an identifier that the server reads: after the delete
    handler has run no row has the identifier, the rows under other
    identifiers are all there, in their order, and a second deletion
    changes nothing.  In production, deleting a record that was just
    created, under the text of its identifier, gives the table back as it
    was before the creation. *)
Theorem delete_removes_the_record
    (reads : Server.sqlType -> string -> bool) (isProduction : bool)
    (db : Server.database) (projectId : string) :
  Server.online db = true ->
  reads Server.TEXT projectId = true ->
  let success := Server.json200 (JObj [("success", JBool true)]) in
  let deleted := Server.deleteProject reads isProduction db projectId in
  fst deleted = success
  /\ hasRow (snd deleted) projectId = false
  /\ Server.rows (snd deleted)
     = filter (fun r => negb (Server.hasId projectId r)) (Server.rows db)
  /\ Server.deleteProject reads isProduction (snd deleted) projectId
     = (success, snd deleted)
  /\ (forall random project,
        creatable reads random db project = true ->
        Server.prepareValue (prop project "id") = Some projectId ->
        snd (Server.deleteProject reads true
               (snd (Server.postProject reads true random db project))
               projectId)
        = db).
Proof.
  intros On Rd. cbv zeta.
  assert (F : forall l,
            existsb (Server.hasId projectId)
              (filter (fun r => negb (Server.hasId projectId r)) l) = false).
  { induction l as [|r l IH]; simpl; [reflexivity|].
    destruct (Server.hasId projectId r) eqn:H; simpl; [exact IH|].
    now rewrite H, IH. }
  rewrite (ServerFacts.deleteProject_online reads isProduction db projectId
             On Rd).
  cbn [fst snd Server.rows].
  split; [reflexivity|]. split; [apply F|]. split; [reflexivity|].
  split.
  - rewrite ServerFacts.deleteProject_online by (reflexivity || exact Rd).
    cbn [Server.rows]. do 2 f_equal.
    apply ServerFacts.filter_all_rows.
    intros r Hr. apply filter_In in Hr as [_ Hr]. exact Hr.
  - intros random project Cr Id.
    rewrite ServerFacts.postProject_production, Cr.
    cbn [snd].
    rewrite ServerFacts.deleteProject_online by (reflexivity || exact Rd).
    cbn [snd Server.rows].
    rewrite filter_app. cbn [filter].
    rewrite (ServerFacts.hasId_key _ _ _ _ Id), String.eqb_refl.
    cbn [negb]. rewrite app_nil_r.
    unfold creatable, freshId in Cr. rewrite Id in Cr.
    apply andb_true_iff in Cr as [Cr _].
    apply andb_true_iff in Cr as [Cr _].
    apply andb_true_iff in Cr as [_ Fresh].
    apply negb_true_iff in Fresh.
    rewrite ServerFacts.filter_all_rows.
    + destruct db as [o rows]. simpl in On. now subst o.
    + intros r Hr. apply negb_true_iff.
      now apply (ServerFacts.hasRow_false _ _ Fresh).
Qed.

(** The record 1 deleted from the table that holds it; the bare record
    created on that table and deleted again. *)
Lemma delete_removes_the_record_witness :
  let deleted := Server.deleteProject Samples.reads true Samples.oneRowDb
                   "1" in
  fst deleted = Server.json200 (JObj [("success", JBool true)])
  /\ hasRow (snd deleted) "1" = false
  /\ Server.rows (snd deleted) = []
  /\ Server.deleteProject Samples.reads true (snd deleted) "1"
     = (Server.json200 (JObj [("success", JBool true)]), snd deleted)
  /\ snd (Server.deleteProject Samples.reads true
            (snd (Server.postProject Samples.reads true 7 Samples.oneRowDb
                    Samples.bare))
            "9")
     = Samples.oneRowDb.
Proof.
  pose proof (delete_removes_the_record Samples.reads true Samples.oneRowDb
                "1" eq_refl eq_refl) as (A & B & C & D & _).
  pose proof (delete_removes_the_record Samples.reads true Samples.oneRowDb
                "9" eq_refl eq_refl) as (_ & _ & _ & _ & E).
  cbv zeta in *.
  split; [exact A|]. split; [exact B|]. split; [exact C|].
  split; [exact D|].
  apply (E 7%Z Samples.bare); reflexivity.
Defined.

(* ================================================================== *)
(** ** The files the scripts write *)

Section EmitFacts.
Context {W : Type}.
Variable env : Env W.
Variable P : event -> Prop.
Hypothesis others : forall e, isWrite e = false -> P e.

Lemma emitsOnly_ret {A} (a : A) : emitsOnly P (@ret W A a).
Proof. intros sys e []. Qed.

Lemma emitsOnly_throw {A} : emitsOnly P (@throw W A).
Proof. intros sys e []. Qed.

Lemma emitsOnly_exit {A} c : emitsOnly P (@exit W A c).
Proof. intros sys e []. Qed.

Lemma emitsOnly_log m : emitsOnly P (@log W m).
Proof. intros sys e [<-|[]]. now apply others. Qed.

Lemma emitsOnly_bind {A B} (m : M W A) (f : A -> M W B) :
  emitsOnly P m -> (forall a, emitsOnly P (f a)) -> emitsOnly P (bind m f).
Proof.
  intros Hm Hf sys e. unfold bind. pose proof (Hm sys e) as A1.
  destruct (m sys) as [[[a| |c|] s1] t1]; unfold traceOf in *;
    cbn [fst snd] in *; auto.
  pose proof (Hf a s1 e) as B1.
  destruct (f a s1) as [[r s2] t2]. unfold traceOf in *.
  cbn [fst snd] in *. rewrite in_app_iff. tauto.
Qed.

Lemma emitsOnly_tryCatch {A} (body handler : M W A) :
  emitsOnly P body -> emitsOnly P handler ->
  emitsOnly P (tryCatch body handler).
Proof.
  intros Hb Hh sys e. unfold tryCatch. pose proof (Hb sys e) as A1.
  destruct (body sys) as [[[a| |c|] s1] t1]; unfold traceOf in *;
    cbn [fst snd] in *; auto.
  pose proof (Hh s1 e) as B1.
  destruct (handler s1) as [[r s2] t2]. unfold traceOf in *.
  cbn [fst snd] in *. rewrite in_app_iff. tauto.
Qed.

Lemma emitsOnly_forEach {A S} (l : list A) (body : A -> S -> M W S) :
  (forall x acc, emitsOnly P (body x acc)) ->
  forall acc, emitsOnly P (forEach l body acc).
Proof.
  intros Hb. induction l as [|x r IH]; intros acc; simpl.
  - apply emitsOnly_ret.
  - apply emitsOnly_bind; auto.
Qed.

Lemma emitsOnly_fetch readsError r : emitsOnly P (fetch env readsError r).
Proof.
  intros sys e. unfold fetch.
  destruct (send env (world sys) r) as [[|readable|] w1];
    [| destruct (readsError && negb readable) |];
    intros [<-|[]]; now apply others.
Qed.

Lemma emitsOnly_fetchProductionData : emitsOnly P (fetchProductionData env).
Proof.
  intros sys e. unfold fetchProductionData.
  destruct (getData env (world sys)) as [[d|] w1];
    intros [<-|[]]; now apply others.
Qed.

Lemma emitsOnly_checkProductionSchema :
  emitsOnly P (MigrateSmart.checkProductionSchema env).
Proof.
  intros sys e. unfold MigrateSmart.checkProductionSchema.
  destruct (getData env (world sys)) as [r w1].
  intros [<-|[]]. now apply others.
Qed.

Lemma emitsOnly_statSync path : emitsOnly P (statSync env path).
Proof.
  intros sys e. unfold statSync.
  destruct (statFile env (world sys) path) as [[|] w1]; intros [].
Qed.

Lemma emitsOnly_deref v : emitsOnly P (@deref W v).
Proof. intros sys e. rewrite deref_run. intros []. Qed.

Lemma emitsOnly_objectKeys v : emitsOnly P (@objectKeys W v).
Proof. intros sys e. rewrite objectKeys_run. intros []. Qed.

Lemma emitsOnly_askQuestion : emitsOnly P (@askQuestion W).
Proof.
  intros sys e. unfold askQuestion.
  destruct (stdin sys); intros [<-|[]]; now apply others.
Qed.

Lemma emitsOnly_attempt readsError k r name counts :
  emitsOnly P (attempt env readsError k r name counts).
Proof.
  destruct counts as [s f]. unfold attempt.
  apply emitsOnly_tryCatch.
  - apply emitsOnly_bind; [apply emitsOnly_fetch|].
    intros [|]; (apply emitsOnly_bind; [apply emitsOnly_log|]);
      intros _; apply emitsOnly_ret.
  - apply emitsOnly_bind; [apply emitsOnly_log|]. intros _.
    apply emitsOnly_ret.
Qed.

Lemma emitsOnly_batch readsError k (mk : record -> request) ps acc :
  emitsOnly P (forEach ps
                 (fun project => attempt env readsError k (mk project)
                                   (prop project "name")) acc).
Proof. apply emitsOnly_forEach. intros. apply emitsOnly_attempt. Qed.

Lemma emitsOnly_showSummary localData prodData plan :
  emitsOnly P (@showSummary W localData prodData plan).
Proof.
  unfold showSummary. apply emitsOnly_bind; [apply emitsOnly_log|].
  intros _. destruct (settingsChanged plan); [|apply emitsOnly_ret].
  apply emitsOnly_bind; [apply emitsOnly_log|]. intros _.
  apply emitsOnly_bind; [apply emitsOnly_deref|]. intros jl.
  apply emitsOnly_bind; [apply emitsOnly_deref|]. intros jp.
  destruct (negb _); [|apply emitsOnly_ret].
  apply emitsOnly_bind; [apply emitsOnly_objectKeys|]. intros _.
  apply emitsOnly_objectKeys.
Qed.

Lemma emitsOnly_executePlan plan : emitsOnly P (executePlan env plan).
Proof.
  unfold executePlan. apply emitsOnly_bind; [apply emitsOnly_log|].
  intros _.
  apply emitsOnly_bind;
    [apply emitsOnly_forEach; intros; apply emitsOnly_attempt|]. intros c1.
  apply emitsOnly_bind;
    [apply emitsOnly_forEach; intros; apply emitsOnly_attempt|]. intros c2.
  apply emitsOnly_bind;
    [apply emitsOnly_forEach; intros; apply emitsOnly_attempt|]. intros c3.
  apply emitsOnly_bind; [|intros _; apply emitsOnly_log].
  destruct (settingsChanged plan); [apply emitsOnly_log|apply emitsOnly_ret].
Qed.

Lemma emitsOnly_confirmSync toLowerCase autoConfirm :
  emitsOnly P (@confirmSync W toLowerCase autoConfirm).
Proof.
  unfold confirmSync. destruct (negb autoConfirm); [|apply emitsOnly_ret].
  apply emitsOnly_bind; [apply emitsOnly_askQuestion|]. intros answer.
  destruct (_ && _); [|apply emitsOnly_ret].
  apply emitsOnly_bind; [apply emitsOnly_log|]. intros _.
  apply emitsOnly_ret.
Qed.

Lemma emitsOnly_confirmReplace toUpperCase autoConfirm :
  emitsOnly P (@confirmReplace W toUpperCase autoConfirm).
Proof.
  unfold confirmReplace. destruct (negb autoConfirm); [|apply emitsOnly_ret].
  apply emitsOnly_bind; [apply emitsOnly_askQuestion|]. intros answer1.
  destruct (negb (String.eqb answer1 "REPLACE")).
  - apply emitsOnly_bind; [apply emitsOnly_log|]. intros _.
    apply emitsOnly_ret.
  - apply emitsOnly_bind; [apply emitsOnly_askQuestion|]. intros answer2.
    destruct (negb _); [|apply emitsOnly_ret].
    apply emitsOnly_bind; [apply emitsOnly_log|]. intros _.
    apply emitsOnly_ret.
Qed.

Lemma emitsOnly_syncData toLowerCase file autoConfirm :
  emitsOnly P (syncData env toLowerCase file autoConfirm).
Proof.
  unfold syncData.
  apply emitsOnly_tryCatch;
    [|apply emitsOnly_bind;
      [apply emitsOnly_log|intros _; apply emitsOnly_exit]].
  destruct file as [| |localData].
  - apply emitsOnly_bind;
      [apply emitsOnly_log|intros _; apply emitsOnly_exit].
  - apply emitsOnly_throw.
  - apply emitsOnly_bind; [apply emitsOnly_fetchProductionData|].
    intros prodData.
    destruct (planIsEmpty _); [apply emitsOnly_log|].
    apply emitsOnly_bind; [apply emitsOnly_showSummary|]. intros _.
    apply emitsOnly_bind; [apply emitsOnly_confirmSync|].
    intros [|]; [apply emitsOnly_executePlan|apply emitsOnly_ret].
Qed.

Lemma emitsOnly_migrateData backup :
  emitsOnly P (Migrate.migrateData env backup).
Proof.
  unfold Migrate.migrateData.
  apply emitsOnly_tryCatch; [|apply emitsOnly_ret].
  destruct backup as [data|]; [|apply emitsOnly_throw].
  apply emitsOnly_forEach. intros project _. unfold Migrate.upload.
  apply emitsOnly_tryCatch; [|apply emitsOnly_ret].
  apply emitsOnly_bind; [apply emitsOnly_fetch|].
  intros [|]; apply emitsOnly_ret.
Qed.

Lemma emitsOnly_upsert m project c :
  emitsOnly P (MigrateSmart.upsert env m project c).
Proof.
  unfold MigrateSmart.upsert.
  apply emitsOnly_tryCatch; [|apply emitsOnly_ret].
  destruct (JsMap.get m (prop project "id"));
    (apply emitsOnly_bind; [apply emitsOnly_fetch|]);
    intros [|]; apply emitsOnly_ret.
Qed.

Lemma emitsOnly_smartMigrateData backup :
  emitsOnly P (MigrateSmart.migrateData env backup).
Proof.
  unfold MigrateSmart.migrateData.
  apply emitsOnly_tryCatch; [|apply emitsOnly_ret].
  apply emitsOnly_bind; [apply emitsOnly_checkProductionSchema|].
  intros [prod|]; [|apply emitsOnly_ret].
  destruct backup as [data|]; [|apply emitsOnly_throw].
  apply emitsOnly_bind; [|intros c; apply emitsOnly_ret].
  apply emitsOnly_forEach. intros project c. apply emitsOnly_upsert.
Qed.

(** In the replace script the one write is that of the backup. *)
Lemma emitsOnly_replaceProduction toUpperCase iso file autoConfirm
    (sys : Sys W) :
  (forall data ok,
     fst (getData env (world sys)) = Some data ->
     P (EvWriteFile (BACKUP_FILE iso) data ok)) ->
  forall e,
    In e (traceOf (replaceProduction env toUpperCase iso file autoConfirm
                     sys)) -> P e.
Proof.
  intros Hw.
  assert (handler : emitsOnly P
            (bind (@log W (MsgReplaceFailed (BACKUP_FILE iso)))
               (fun _ => @exit W unit 1))).
  { apply emitsOnly_bind; [apply emitsOnly_log|].
    intros _. apply emitsOnly_exit. }
  destruct file as [| |localData].
  - apply emitsOnly_tryCatch; [|exact handler].
    apply emitsOnly_bind; [apply emitsOnly_log|].
    intros _. apply emitsOnly_exit.
  - apply emitsOnly_tryCatch; [apply emitsOnly_throw|exact handler].
  - unfold replaceProduction, tryCatch. unfold bind at 1.
    unfold fetchProductionData.
    destruct (getData env (world sys)) as [[prodData|] w1] eqn:G.
    2: { intros e [<-|He]; [now apply others|].
         simpl in He. destruct He as [<-|[]]. now apply others. }
    specialize (Hw prodData).
    match goal with
    | |- context [bind ?m ?f ?s] =>
        assert (R : forall e, In e (traceOf (bind m f s)) -> P e);
        [|destruct (bind m f s) as [[r s2] t2]]
    end.
    { apply emitsOnly_bind.
      - intros s e. unfold writeFileSync.
        destruct (writeFile env (world s) (BACKUP_FILE iso) prodData)
          as [ok w2].
        intros [<-|[]]. now apply Hw.
      - intros _. apply emitsOnly_bind; [apply emitsOnly_statSync|].
        intros _. apply emitsOnly_bind; [apply emitsOnly_log|].
        intros _. apply emitsOnly_bind; [apply emitsOnly_log|].
        intros _.
        apply emitsOnly_bind; [apply emitsOnly_confirmReplace|].
        intros [|]; [|apply emitsOnly_ret].
        apply emitsOnly_bind; [apply emitsOnly_log|]. intros _.
        apply emitsOnly_bind; [apply emitsOnly_batch|]. intros d.
        apply emitsOnly_bind; [apply emitsOnly_log|]. intros _.
        apply emitsOnly_bind; [apply emitsOnly_batch|]. intros c.
        apply emitsOnly_bind; [apply emitsOnly_log|]. intros _.
        apply emitsOnly_bind; [apply emitsOnly_log|]. intros _.
        apply emitsOnly_bind; [apply emitsOnly_log|]. intros _.
        apply emitsOnly_bind; [apply emitsOnly_fetchProductionData|].
        intros f. apply emitsOnly_log. }
    unfold traceOf in R. cbn [fst snd] in R.
    assert (GET : P (EvRequest getDataRequest)) by now apply others.
    destruct r as [u| |c|]; unfold traceOf; cbn [fst snd];
      try (intros e [<-|He]; [exact GET|now apply R]).
    pose proof (handler s2) as H2.
    destruct (bind (log (MsgReplaceFailed (BACKUP_FILE iso)))
                (fun _ => exit 1) s2) as [[r' s3] t3].
    unfold traceOf in H2. cbn [fst snd] in H2.
    intros e He. cbn [app] in He. destruct He as [<-|He]; [exact GET|].
    apply in_app_iff in He as [He|He]; [now apply R|now apply H2].
Qed.

End EmitFacts.

(** X23 (the files the scripts write).  The sync script and the two
    migration scripts write no file.  The replace script writes no file
    but the backup, and what it writes there is the snapshot that the
    fetch at its start returned. *)
Theorem files_written_by_the_scripts {W} (env : Env W)
    (toLowerCase toUpperCase : string -> string) (iso : string)
    (file : localFile) (backup : option Snapshot) (autoConfirm : bool)
    (sys : Sys W) (e : event) :
  (In e (traceOf (syncData env toLowerCase file autoConfirm sys))
   \/ In e (traceOf (Migrate.migrateData env backup sys))
   \/ In e (traceOf (MigrateSmart.migrateData env backup sys)) ->
   isWrite e = false)
  /\ (In e (traceOf (replaceProduction env toUpperCase iso file autoConfirm
                       sys)) ->
      isWrite e = true ->
      exists data ok,
        e = EvWriteFile (BACKUP_FILE iso) data ok
        /\ fst (getData env (world sys)) = Some data).
Proof.
  split.
  - intros [H|[H|H]]; revert H.
    + now apply (emitsOnly_syncData env (fun e => isWrite e = false)).
    + now apply (emitsOnly_migrateData env (fun e => isWrite e = false)).
    + now apply (emitsOnly_smartMigrateData env
                   (fun e => isWrite e = false)).
  - apply (emitsOnly_replaceProduction env
             (fun e => isWrite e = true ->
                       exists data ok,
                         e = EvWriteFile (BACKUP_FILE iso) data ok
                         /\ fst (getData env (world sys)) = Some data)).
    + intros e0 N Y. congruence.
    + intros data ok G _. now exists data, ok.
Qed.

(** Scenario C with the flag: the one file is the backup of production. *)
Lemma files_written_by_the_scripts_witness :
  exists data ok,
    EvWriteFile (BACKUP_FILE Samples.iso) Samples.prodC true
    = EvWriteFile (BACKUP_FILE Samples.iso) data ok
    /\ fst (getData (Scripted.env (Some Samples.prodC) true) [])
       = Some data.
Proof.
  apply (proj2 (files_written_by_the_scripts
                  (Scripted.env (Some Samples.prodC) true)
                  Scripted.toLowerCase Scripted.toUpperCase Samples.iso
                  (FileLoaded Samples.localC) None true
                  (Scripted.start [] [])
                  (EvWriteFile (BACKUP_FILE Samples.iso) Samples.prodC true))).
  - vm_compute. tauto.
  - reflexivity.
Defined.

(* ================================================================== *)
(** ** What a call tells of its record *)

Lemma append_inv_head pre : forall x y : string,
  (pre ++ x = pre ++ y)%string -> x = y.
Proof.
  induction pre as [|c r IH]; simpl; intros x y H; [exact H|].
  injection H as H. now apply IH.
Qed.

(** X24 (what a call tells of its record).  The body of a create or
    update call determines the record: two records that make the same
    create call, or the same update call, are the same record.  A delete
    call tells only how the identifier prints: two records make the same
    delete call exactly when their identifiers print alike, as the number
    5 and the text 5 do. *)
Theorem calls_determine_records (p q : record) :
  (createRequest p = createRequest q -> p = q)
  /\ (updateRequest p = updateRequest q -> p = q)
  /\ (deleteRequest p = deleteRequest q
      <-> JS.toString (idOf p) = JS.toString (idOf q))
  /\ deleteRequest [("id", JNum 5)] = deleteRequest [("id", JStr "5")].
Proof.
  assert (body : JSON.stringify (Some (JObj p))
                 = JSON.stringify (Some (JObj q)) -> p = q).
  { intros H. apply stringify_inj in H. now injection H. }
  split; [|split; [|split; [|reflexivity]]].
  - intros H. apply body. exact (f_equal reqBody H).
  - intros H. apply body. exact (f_equal reqBody H).
  - unfold deleteRequest. split.
    + intros H. apply (f_equal reqUrl) in H. cbn [reqUrl] in H.
      apply append_inv_head in H. now apply append_inv_head in H.
    + intros H. unfold idOf in H. now rewrite H.
Qed.

(** The two records of Scenario A under the identifier 2. *)
Lemma calls_determine_records_witness :
  createRequest Samples.p2 <> createRequest Samples.p2'
  /\ deleteRequest Samples.p2 = deleteRequest Samples.p2'.
Proof.
  pose proof (calls_determine_records Samples.p2 Samples.p2')
    as (A & _ & C & _).
  split.
  - intros H. apply A in H. discriminate.
  - apply C. reflexivity.
Defined.

(* ================================================================== *)
(** ** The name of the backup file *)

Lemma chars_append s1 s2 : chars (s1 ++ s2) = chars s1 ++ chars s2.
Proof.
  unfold chars. induction s1 as [|c r IH]; simpl; [reflexivity|].
  now rewrite IH.
Qed.

Lemma chars_inj s1 s2 : chars s1 = chars s2 -> s1 = s2.
Proof.
  unfold chars. intros H.
  rewrite <- (string_of_list_ascii_of_string s1),
          <- (string_of_list_ascii_of_string s2).
  now rewrite H.
Qed.

Lemma length_chars s : List.length (chars s) = String.length s.
Proof.
  unfold chars. induction s as [|c r IH]; simpl; [reflexivity|].
  now rewrite IH.
Qed.

Lemma replaceColonsAndDots_length s :
  String.length (replaceColonsAndDots s) = String.length s.
Proof. induction s as [|c r IH]; simpl; [reflexivity|]. now rewrite IH. Qed.

Lemma replaceColonsAndDots_no_colon s :
  ~ In ":"%char (chars (replaceColonsAndDots s)).
Proof.
  unfold chars. induction s as [|c r IH]; simpl; [tauto|].
  intros [H|H]; [|now apply IH].
  destruct (Ascii.eqb c ":") eqn:E1; simpl in H; [discriminate|].
  destruct (Ascii.eqb c ".") eqn:E2; simpl in H; [discriminate|].
  subst c. discriminate.
Qed.

Lemma digit_kept c :
  isDigit c = true ->
  (if (Ascii.eqb c ":" || Ascii.eqb c ".")%bool then "-"%char else c) = c.
Proof.
  intros D.
  destruct (Ascii.eqb c ":") eqn:E1;
    [apply Ascii.eqb_eq in E1; subst c; discriminate|].
  destruct (Ascii.eqb c ".") eqn:E2;
    [apply Ascii.eqb_eq in E2; subst c; discriminate|].
  reflexivity.
Qed.

(** Two texts of one shape that the replacement makes equal are equal. *)
Lemma replaceColonsAndDots_inj shape : forall a b,
  matchesShape shape a = true -> matchesShape shape b = true ->
  replaceColonsAndDots a = replaceColonsAndDots b -> a = b.
Proof.
  induction shape as [|x shape IH]; intros [|ca a] [|cb b] Ha Hb E;
    try discriminate; [reflexivity|].
  simpl in Ha, Hb. apply andb_true_iff in Ha as [Ha Ha'].
  apply andb_true_iff in Hb as [Hb Hb'].
  simpl in E. injection E as Ec E.
  rewrite (IH a b Ha' Hb' E). f_equal.
  destruct (Ascii.eqb x "d").
  - now rewrite (digit_kept _ Ha), (digit_kept _ Hb) in Ec.
  - apply Ascii.eqb_eq in Ha, Hb. congruence.
Qed.

(** X25 (the name of the backup file).  Whatever the time stamp, the name
    of the backup file holds no colon and is 23 characters longer than the
    stamp; and two stamps of the shape that [toISOString] gives, one for
    each instant, never make the same name, so that the backup of a run
    does not overwrite the backup of an earlier one. *)
Theorem backup_file_names (a b : string) :
  ~ In ":"%char (chars (BACKUP_FILE a))
  /\ String.length (BACKUP_FILE a) = 23 + String.length a
  /\ (isoShape a = true -> isoShape b = true -> a <> b ->
      BACKUP_FILE a <> BACKUP_FILE b).
Proof.
  unfold BACKUP_FILE. split; [|split].
  - rewrite !chars_append, !in_app_iff.
    intros [H|[H|H]].
    + vm_compute in H. intuition discriminate.
    + now apply replaceColonsAndDots_no_colon in H.
    + vm_compute in H. intuition discriminate.
  - rewrite <- !length_chars, !chars_append, !length_app, !length_chars.
    rewrite replaceColonsAndDots_length. simpl. lia.
  - intros Ha Hb Hne E. apply Hne. simpl in E. injection E as E.
    apply (f_equal chars) in E. rewrite !chars_append in E.
    apply app_inv_tail, chars_inj in E.
    now apply (replaceColonsAndDots_inj _ a b Ha Hb).
Qed.

(** Two runs one millisecond apart. *)
Lemma backup_file_names_witness :
  isoShape Samples.iso = true
  /\ BACKUP_FILE Samples.iso <> BACKUP_FILE "2024-05-01T10:20:30.457Z".
Proof.
  split; [reflexivity|].
  apply (proj2 (proj2 (backup_file_names Samples.iso
                         "2024-05-01T10:20:30.457Z")));
    [reflexivity|reflexivity|discriminate].
Defined.

(* ================================================================== *)
(** ** The checks of the production report *)

(** X26 (the two schema checks of the report agree).  The report says that
    all projects have the new fields exactly when the number of projects
    it would otherwise say need an update is zero, so that it never
    reports zero projects to update; that number is at most the number of
    projects.  When all projects have the new fields and there is one, the
    schema is reported as new; on a production without projects the
    schema is reported as old although all projects have the new
    fields. *)
Theorem schema_checks_agree (projects : list record) :
  (CheckProduction.allHaveNewFields projects = true
   <-> CheckProduction.needsUpdate projects = 0)
  /\ CheckProduction.needsUpdate projects <= List.length projects
  /\ (CheckProduction.allHaveNewFields projects = true ->
      projects <> [] -> CheckProduction.hasNewSchema projects = true)
  /\ (CheckProduction.hasNewSchema [] = false
      /\ CheckProduction.allHaveNewFields [] = true).
Proof.
  unfold CheckProduction.allHaveNewFields, CheckProduction.needsUpdate,
    CheckProduction.hasNewSchema.
  split; [|split; [|split; [|split; reflexivity]]].
  - induction projects as [|p r IH]; simpl; [tauto|].
    destruct (JS.strictEquals (prop p "practiceName") None),
             (JS.strictEquals (prop p "briefDescription") None),
             (JS.isArray (prop p "projectTypes")); simpl;
      try (split; [discriminate|intros H; discriminate]).
    exact IH.
  - induction projects as [|p r IH]; simpl; [lia|].
    destruct (_ || _); simpl; lia.
  - intros H NE. destruct projects as [|p r]; [contradiction|].
    simpl in *. apply andb_true_iff in H as [H _].
    apply andb_true_iff in H as [_ H]. now rewrite H.
Qed.

(** A production whose only project has no brief description. *)
Lemma schema_checks_agree_witness :
  CheckProduction.allHaveNewFields [Samples.p1] = true
  /\ CheckProduction.hasNewSchema [Samples.p1] = true
  /\ CheckProduction.needsUpdate [Samples.bare] = 1.
Proof.
  pose proof (schema_checks_agree [Samples.p1]) as (A & _ & C & _).
  split; [apply A; reflexivity|].
  split; [apply C; [apply A; reflexivity|discriminate]|reflexivity].
Defined.
